(** * aws-cdk construct libraries: RDS parameter groups and instances,
      DMS replication tasks, EKS cluster export, the client VPN endpoint
      and the asset archiver, embedded from the TypeScript sources. *)

From Stdlib Require Import ZArith List String Ascii Bool Lia Permutation.
From stdpp Require Import base gmap strings list pretty.

Set Warnings "-register-all".

Local Open Scope string_scope.
Local Open Scope list_scope.
Local Open Scope nat_scope.

(** ** JavaScript regular expressions

    The fragment of the RegExp language used by the sources
    ([/aurora/] and the DMS [IDENTIFIER_REGEX]).  A string is read as its
    sequence of code units, here of 8 bits: the patterns of the sources
    name ASCII characters only.  [RegExp.prototype.test] only asks whether
    some match exists, and the fragment has no captures or
    back-references, so a pattern is interpreted as the set of end
    positions it can reach from a start position; greedy or lazy order
    does not matter. *)
Module Regex.

Inductive regex : Type :=
| Bol                                   (* ^ *)
| Eol                                   (* $ *)
| Lit (c : ascii)                       (* a literal character *)
| Class (ranges : list (ascii * ascii)) (* [a-bc-d...] *)
| AnyChar                               (* . *)
| Seq (r1 r2 : regex)                   (* r1r2 *)
| Star (r : regex)                      (* r* *)
| Rep (r : regex) (lo hi : nat)         (* r{lo,hi} *)
| NegAhead (r : regex)                  (* (?!r) *)
| NegBehind (r : regex).                (* (?<!r) *)

Definition in_range (c : ascii) (rg : ascii * ascii) : bool :=
  (nat_of_ascii (fst rg) <=? nat_of_ascii c)
  && (nat_of_ascii c <=? nat_of_ascii (snd rg)).

Definition in_class (ranges : list (ascii * ascii)) (c : ascii) : bool :=
  existsb (in_range c) ranges.

(** [.] matches any code unit but a line terminator (no [s] flag). *)
Definition line_terminator (c : ascii) : bool :=
  (nat_of_ascii c =? 10) || (nat_of_ascii c =? 13).

Section Matching.
Variable s : list ascii.

Definition step_char (p : ascii -> bool) (i : nat) : list nat :=
  match s !! i with
  | Some c => if p c then [S i] else []
  | None => []
  end.

(** [r*]: zero or more iterations; an iteration that consumes nothing
    ends the loop, as in ECMAScript. *)
Fixpoint iter_star (body : nat -> list nat) (fuel i : nat) : list nat :=
  i :: match fuel with
       | 0 => []
       | S f => flat_map (fun j => if i <? j then iter_star body f j else [])
                         (body i)
       end.

(** [r{lo,hi}]: between [lo] and [hi] iterations. *)
Fixpoint iter_rep (body : nat -> list nat) (lo hi i : nat) : list nat :=
  (if lo =? 0 then [i] else [])
  ++ match hi with
     | 0 => []
     | S hi' => flat_map (iter_rep body (pred lo) hi') (body i)
     end.

Fixpoint ends (r : regex) (i : nat) : list nat :=
  match r with
  | Bol => if i =? 0 then [i] else []
  | Eol => if i =? length s then [i] else []
  | Lit c => step_char (Ascii.eqb c) i
  | Class rs => step_char (in_class rs) i
  | AnyChar => step_char (fun c => negb (line_terminator c)) i
  | Seq r1 r2 => flat_map (ends r2) (ends r1 i)
  | Star r1 => iter_star (ends r1) (length s) i
  | Rep r1 lo hi => iter_rep (ends r1) lo hi i
  | NegAhead r1 => match ends r1 i with [] => [i] | _ :: _ => [] end
  | NegBehind r1 =>
      if existsb (fun k => existsb (Nat.eqb i) (ends r1 k)) (seq 0 (S i))
      then [] else [i]
  end.

Definition matches_at (r : regex) (i : nat) : bool :=
  match ends r i with [] => false | _ :: _ => true end.
End Matching.

(** [re.test(str)]: some start position admits a match. *)
Definition test (r : regex) (str : string) : bool :=
  let s := list_ascii_of_string str in
  existsb (matches_at s r) (seq 0 (S (length s))).

(** A literal word, e.g. [/aurora/]. *)
Fixpoint word (w : list ascii) : regex :=
  match w with
  | [] => Rep AnyChar 0 0
  | [c] => Lit c
  | c :: w' => Seq (Lit c) (word w')
  end.

End Regex.

(** ** The construct tree and construction-time errors *)
Module Core.

(** A node's path: the chain of ids from the tree root. *)
Definition Path : Type := list string.

Inductive NodeKind : Type :=
| KConstruct
| KResource (cfnType : string)
| KOutput (value : string).

(** Modelled from the spec: the construct tree of the core library, as
    the nodes attached so far, in creation order. *)
Definition Tree : Type := list (Path * NodeKind).

(** A JavaScript exception: [DuplicateId] is the core library's own
    error, [Thrown] an [Error] thrown by a construct library with the
    given message. *)
Inductive Error : Type :=
| DuplicateId (p : Path)
| Thrown (message : string).

(** Code that builds constructs mutates the tree and may throw; the
    nodes attached before a throw stay in the tree. *)
Definition M (A : Type) : Type := Tree -> (Error + A) * Tree.

#[global] Instance M_ret : MRet M := fun A a t => (inr a, t).
#[global] Instance M_bind : MBind M := fun A B f m t =>
  match m t with
  | (inl e, t') => (inl e, t')
  | (inr a, t') => f a t'
  end.

Definition throw {A : Type} (e : Error) : M A := fun t => (inl e, t).

(** A call into code that returns or throws without touching the tree. *)
Definition lift {A : Type} (r : Error + A) : M A := fun t => (r, t).

Definition path_eqb (p q : Path) : bool := bool_decide (p = q).

Definition has_node (t : Tree) (p : Path) : bool :=
  existsb (fun n => path_eqb (fst n) p) t.

(** Modelled from the spec: the core [Construct] constructor, which is
    not among the sources.  "[id] uniqueness is enforced per-parent
    (duplicate sibling ids is a fatal construction-time error)"; "a
    node's fully-qualified path is the [/]-joined chain of ids from tree
    root". *)
Definition addChild (parent : Path) (id : string) (k : NodeKind) : M Path :=
  fun t =>
    let p := parent ++ [id] in
    if has_node t p then (inl (DuplicateId p), t)
    else (inr p, t ++ [(p, k)]).

(** Modelled from the spec: [super(scope, id)] of a class extending the
    core [Construct] or [Resource]; it attaches the node to its scope. *)
Definition Construct_new (scope : Path) (id : string) : M Path :=
  addChild scope id KConstruct.

(** Modelled from the spec: [new CfnXxx(scope, id, props)] for a
    generated resource class, a construct like any other.  The property
    bag is not recorded. *)
Definition CfnResource_new (scope : Path) (id : string) (cfnType : string)
  : M Path :=
  addChild scope id (KResource cfnType).

Record CfnOutput : Type := { output_path : Path; output_value : string }.

(** Modelled from the spec: [new cdk.CfnOutput(scope, id, { value })]
    (named [cdk.Output] in the EKS source), the construct that declares
    an entry of the unit's output map. *)
Definition CfnOutput_new (scope : Path) (id : string) (value : string)
  : M CfnOutput :=
  p ← addChild scope id (KOutput value);
  mret {| output_path := p; output_value := value |}.

(** The outputs declared in the tree. *)
Definition outputs (t : Tree) : list (Path * string) :=
  flat_map (fun n => match snd n with
                     | KOutput v => [(fst n, v)]
                     | _ => []
                     end) t.

(** JavaScript truthiness of optional strings and numbers. *)
Definition truthy_string (s : option string) : bool :=
  match s with
  | Some s' => negb (String.eqb s' "")
  | None => false
  end.

Definition truthy_number (n : option Z) : bool :=
  match n with
  | Some z => negb (Z.eqb z 0)
  | None => false
  end.

Definition truthy_bool (b : option bool) : bool :=
  match b with Some true => true | _ => false end.

Definition defined {A : Type} (o : option A) : bool :=
  match o with Some _ => true | None => false end.

End Core.

(** ** aws-rds: parameter groups *)
Module ParameterGroup.
Import Core.

(** [type Parameters = {[key: string]: any}]: an object used as a map. *)
Abbreviation Parameters := (gmap string string).

Record ParameterGroupProps : Type := {
  family : string;
  props_description : option string;
  (** [Object.entries(props.parameters)], when [parameters] is given. *)
  props_parameters : option (list (string * option string))
}.

Record ParameterGroupImportProps : Type := {
  import_parameterGroupName : string
}.

(** The mutable fields of a [ParameterGroup] object. *)
Record ParameterGroup : Type := {
  node : Path;
  description : string;
  parameters : Parameters
}.

(** [obj[key] = value] on a plain object: an own property is written,
    except for the key [__proto__], where the inherited setter runs and
    ignores a string. *)
Definition assign (key value : string) (ps : Parameters) : Parameters :=
  if String.eqb key "__proto__" then ps else <[key := value]> ps.

(** [key in obj], on own properties.  The operator also sees inherited
    properties, but [delete] removes own properties only, so nothing is
    lost for [setParameter]. *)
Definition has_key (key : string) (ps : Parameters) : bool :=
  bool_decide (is_Some (ps !! key)).

Definition setParameter (key : string) (value : option string)
  (this : ParameterGroup) : ParameterGroup :=
  let ps1 :=
    if negb (defined value) && has_key key (parameters this)
    then delete key (parameters this)
    else parameters this in
  let ps2 :=
    match value with
    | Some v => assign key v ps1
    | None => ps1
    end in
  {| node := node this; description := description this;
     parameters := ps2 |}.

Definition removeParameter (key : string) (this : ParameterGroup)
  : ParameterGroup :=
  setParameter key None this.

Definition validate (this : ParameterGroup) : list string :=
  if length (map fst (map_to_list (parameters this))) =? 0
  then ["At least one parameter required, call setParameter()."]
  else [].

Definition ParameterGroup_new (scope : Path) (id : string)
  (props : ParameterGroupProps) : M ParameterGroup :=
  this ← Construct_new scope id;
  let descr :=
    if truthy_string (props_description props)
    then default "" (props_description props)
    else "Parameter group for " +:+ family props in
  mret (fold_left (fun g kv => setParameter (fst kv) (snd kv) g)
          (default [] (props_parameters props))
          {| node := this; description := descr; parameters := ∅ |}).

(** A [cdk.Token] built from a closure over [this]: the closure runs
    against the object's state at the time the token is resolved. *)
Definition Token (A : Type) : Type := ParameterGroup -> A.

Definition Token_resolve {A : Type} (tok : Token A) (this : ParameterGroup)
  : A := tok this.

Section Classes.
(** The string form of the token for attribute [attr] of the node at
    a path (core library, not among the sources). *)
Variable cfnToken : Path -> string -> string.

Record ClusterParameterGroup : Type := {
  cpg_base : ParameterGroup;
  cpg_parameterGroupName : string;
  (** The [parameters] property handed to the Cfn resource. *)
  cpg_parameters : Token Parameters
}.

Definition ClusterParameterGroup_new (scope : Path) (id : string)
  (props : ParameterGroupProps) : M ClusterParameterGroup :=
  base ← ParameterGroup_new scope id props;
  parameterGroup ← CfnResource_new (node base) "Resource"
                     "AWS::RDS::DBClusterParameterGroup";
  mret {| cpg_base := base;
          cpg_parameterGroupName := cfnToken parameterGroup "Ref";
          cpg_parameters := fun this => parameters this |}.

Record InstanceParameterGroup : Type := {
  ipg_base : ParameterGroup;
  ipg_parameterGroupName : string;
  ipg_parameters : Token Parameters
}.

Definition InstanceParameterGroup_new (scope : Path) (id : string)
  (props : ParameterGroupProps) : M InstanceParameterGroup :=
  base ← ParameterGroup_new scope id props;
  parameterGroup ← CfnResource_new (node base) "Resource"
                     "AWS::RDS::DBParameterGroup";
  mret {| ipg_base := base;
          ipg_parameterGroupName := cfnToken parameterGroup "Ref";
          ipg_parameters := fun this => parameters this |}.

(** [ParameterGroup.export()]. *)
Definition export (this : ParameterGroup) (parameterGroupName : string)
  : M ParameterGroupImportProps :=
  o ← CfnOutput_new (node this) "ParameterGroupName" parameterGroupName;
  mret {| import_parameterGroupName :=
            cfnToken (output_path o) "Fn::ImportValue" |}.
End Classes.

Record ImportedParameterGroup : Type := {
  imported_node : Path;
  imported_props : ParameterGroupImportProps;
  parameterGroupName : string
}.

Definition ImportedParameterGroup_new (scope : Path) (id : string)
  (props : ParameterGroupImportProps) : M ImportedParameterGroup :=
  this ← Construct_new scope id;
  mret {| imported_node := this;
          imported_props := props;
          parameterGroupName := import_parameterGroupName props |}.

Definition ImportedParameterGroup_export (this : ImportedParameterGroup)
  : M ParameterGroupImportProps :=
  mret (imported_props this).

End ParameterGroup.

(** ** aws-rds: database instances *)
Module Instance.
Import Core.

Inductive DatabaseInstanceEngine : Type :=
| Aurora | AuroraMysql | AuroraPostgresql | MariaDb | Mysql
| OracleEE | OracleSE2 | OracleSE1 | OracleSE | Postgres
| SqlServerEE | SqlServerSE | SqlServerEX | SqlServerWeb.

(** The string value of each enum member. *)
Definition engine_value (e : DatabaseInstanceEngine) : string :=
  match e with
  | Aurora => "aurora"
  | AuroraMysql => "aurora-mysql"
  | AuroraPostgresql => "aurora-postgresql"
  | MariaDb => "mariadb"
  | Mysql => "mysql"
  | OracleEE => "oracle-ee"
  | OracleSE2 => "oracle-se2"
  | OracleSE1 => "oracle-se1"
  | OracleSE => "oracle-se"
  | Postgres => "postgres"
  | SqlServerEE => "sqlserver-ee"
  | SqlServerSE => "sqlserver-se"
  | SqlServerEX => "sqlserver-ex"
  | SqlServerWeb => "sqlserver-web"
  end.

Inductive StorageType : Type := Standard | GP2 | IO1.

(** [/aurora/] *)
Definition aurora_regex : Regex.regex :=
  Regex.word (list_ascii_of_string "aurora").

Record Subnet : Type := { subnetId : string; availabilityZone : string }.

(** The objects passed by reference in the props, with the members the
    instance reads. *)
Record IDatabaseCluster : Type := { clusterIdentifier : string }.
Record IOptionGroup : Type := { optionGroupName : string }.
Record IDatabaseInstanceRef : Type := { ref_instanceIdentifier : string }.

(** [new Endpoint(address, port)]. *)
Record Endpoint : Type := { hostname : string; port : string }.

Record Connections : Type := {
  securityGroups : list Path;
  defaultPortRange : string
}.

Record DatabaseInstanceImportProps : Type := {
  import_instanceIdentifier : string;
  import_endpointAddress : string;
  import_port : string;
  import_securityGroupId : string
}.

Definition cannot_specify_cluster_msg : string :=
  "Cannot specify `databaseCluster` when engine is not aurora.".

Definition cannot_specify_with_cluster_msg : string :=
  "Cannot specify `allocatedStorage`, `backupRetentionPeriod`, `characterSetName`, `databaseName`, `masterUsername`, `masterPassword`, `optionGroup`, `preferredBackupWindows`, `port`, `sourceDatabaseInstance` when specifying `databaseCluster`.".

Definition multi_az_msg : string :=
  "Multi AZ requires at least 2 subnets in 2 different availability zones.".

(** [ProcessorFeatures]: the own properties of the object, as
    [Object.entries] lists them.  Both properties are optional, so an
    entry may hold [undefined]. *)
Definition ProcessorFeatures : Type := list (string * option Z).

(** The [TypeError] that [value.toString()] raises when [value] is
    [undefined], recorded by its message as the JavaScript engine of the
    time words it. *)
Definition undefined_to_string_msg : string :=
  "Cannot read property 'toString' of undefined".

(** [Object.entries(features).map(([name, value]) =>
      ({ name, value: value.toString() }))] *)
Fixpoint featuresList (features : ProcessorFeatures)
  : Error + list (string * string) :=
  match features with
  | [] => inr []
  | (name, value) :: rest =>
      match value with
      | None => inl (Thrown undefined_to_string_msg)
      | Some v =>
          match featuresList rest with
          | inl e => inl e
          | inr l => inr ((name, pretty v) :: l)
          end
      end
  end.

(** [renderProcessorFeatures(features)] *)
Definition renderProcessorFeatures (features : ProcessorFeatures)
  : Error + option (list (string * string)) :=
  match featuresList features with
  | inl e => inl e
  | inr l => inr (if length l =? 0 then None else Some l)
  end.

Section Classes.
Variable cfnToken : Path -> string -> string.
(** [ec2.VpcPlacementStrategy] *)
Variable VpcPlacementStrategy : Type.

(** [ec2.IVpcNetwork], with its [subnets(placement)] method. *)
Record IVpcNetwork : Type := {
  vpc_subnets : option VpcPlacementStrategy -> list Subnet
}.

(** The props that decide control flow and the shape of the tree, and
    those whose rendering can throw; the props only copied into the Cfn
    resource are left out. *)
Record DatabaseInstanceProps : Type := {
  engine : DatabaseInstanceEngine;
  multiAz : option bool;
  storageType : option StorageType;
  allocatedStorage : option Z;
  iops : option Z;
  masterUsername : option string;
  masterUserPassword : option string;
  generateMasterUserPassword : option bool;
  vpc : IVpcNetwork;
  vpcPlacement : option VpcPlacementStrategy;
  databaseName : option string;
  db_port : option Z;
  optionGroup : option IOptionGroup;
  characterSetName : option string;
  backupRetentionPeriod : option Z;
  preferredBackupWindow : option string;
  preferredMaintenanceWindow : option string;
  monitoringInterval : option Z;
  deletionProtection : option bool;
  snapshotIdentifier : option string;
  databaseCluster : option IDatabaseCluster;
  sourceDatabaseInstance : option IDatabaseInstanceRef;
  processorFeatures : option ProcessorFeatures
}.

Record DatabaseInstance : Type := {
  node : Path;
  instanceIdentifier : string;
  instanceEndpoint : Endpoint;
  securityGroupId : string;
  connections : Connections;
  instance_engine : DatabaseInstanceEngine;
  (** the [secretArn] of [this.secret], when there is one *)
  secret : option string;
  monitoringRole : option Path
}.

(** [new DatabaseSecret(scope, id, ...)]: the construct and the
    [secretsmanager.Secret] below it. *)
Definition DatabaseSecret_new (scope : Path) (id : string) : M string :=
  this ← Construct_new scope id;
  s ← Construct_new this "Resource";
  mret (cfnToken s "Ref").

Definition DatabaseInstance_new (scope : Path) (id : string)
  (props : DatabaseInstanceProps) : M DatabaseInstance :=
  this ← Construct_new scope id;
  if defined (databaseCluster props)
     && Regex.test aurora_regex (engine_value (engine props))
  then throw (Thrown cannot_specify_cluster_msg)
  else
  if defined (databaseCluster props)
     && (truthy_number (allocatedStorage props)
         || truthy_number (backupRetentionPeriod props)
         || truthy_string (characterSetName props)
         || truthy_string (databaseName props)
         || truthy_string (masterUsername props)
         || truthy_string (masterUserPassword props)
         || defined (optionGroup props)
         || truthy_string (preferredBackupWindow props)
         || truthy_string (preferredMaintenanceWindow props)
         || truthy_number (db_port props)
         || defined (sourceDatabaseInstance props)
         || defined (storageType props)
         || true (* props.vpc: an object *))
  then throw (Thrown cannot_specify_with_cluster_msg)
  else
  let subnets := vpc_subnets (vpc props) (vpcPlacement props) in
  let availabilityZones : gset string :=
    list_to_set (map availabilityZone subnets) in
  let multiAz' := default true (multiAz props) in
  if multiAz' && (size availabilityZones <? 2)
  then throw (Thrown multi_az_msg)
  else
  subnetGroup ← CfnResource_new this "SubnetGroup" "AWS::RDS::DBSubnetGroup";
  securityGroup ← Construct_new this "SecurityGroup";
  let sgId := cfnToken securityGroup "GroupId" in
  sec ← (if truthy_bool (generateMasterUserPassword props)
            || (negb (truthy_string (masterUserPassword props))
                && (negb (truthy_string (snapshotIdentifier props))
                    || negb (defined (sourceDatabaseInstance props))))
         then arn ← DatabaseSecret_new this "Secret"; mret (Some arn)
         else mret None);
  role ← (if truthy_number (monitoringInterval props)
          then r ← Construct_new this "MonitoringRole"; mret (Some r)
          else mret None);
  (* the props object of the Cfn resource is evaluated before the
     resource is constructed *)
  processorFeatures' ←
    lift (match processorFeatures props with
          | Some features => renderProcessorFeatures features
          | None => inr None
          end);
  instance ← CfnResource_new this "Resource" "AWS::RDS::DBInstance";
  _ ← (if defined sec
       then a ← CfnResource_new this "SecretAttachement"
                  "AWS::SecretsManager::SecretTargetAttachment";
            mret tt
       else mret tt);
  mret {| node := this;
          instanceIdentifier := cfnToken instance "Ref";
          instanceEndpoint :=
            {| hostname := cfnToken instance "Endpoint.Address";
               port := cfnToken instance "Endpoint.Port" |};
          securityGroupId := sgId;
          connections :=
            {| securityGroups := [securityGroup];
               defaultPortRange := cfnToken instance "Endpoint.Port" |};
          instance_engine := engine props;
          secret := sec;
          monitoringRole := role |}.

Definition import_value (o : CfnOutput) : string :=
  cfnToken (output_path o) "Fn::ImportValue".

(** [DatabaseInstance.export()] *)
Definition export (this : DatabaseInstance)
  : M DatabaseInstanceImportProps :=
  o1 ← CfnOutput_new (node this) "InstanceId" (instanceIdentifier this);
  o2 ← CfnOutput_new (node this) "EndpointAddress"
         (hostname (instanceEndpoint this));
  o3 ← CfnOutput_new (node this) "Port" (port (instanceEndpoint this));
  o4 ← CfnOutput_new (node this) "SecurityGroupId" (securityGroupId this);
  mret {| import_instanceIdentifier := import_value o1;
          import_endpointAddress := import_value o2;
          import_port := import_value o3;
          import_securityGroupId := import_value o4 |}.
End Classes.

Record ImportedDatabaseInstance : Type := {
  imported_node : Path;
  imported_props : DatabaseInstanceImportProps;
  imported_instanceIdentifier : string;
  imported_instanceEndpoint : Endpoint;
  imported_securityGroupId : string;
  imported_connections : Connections
}.

Definition ImportedDatabaseInstance_new (scope : Path) (id : string)
  (props : DatabaseInstanceImportProps) : M ImportedDatabaseInstance :=
  this ← Construct_new scope id;
  sg ← Construct_new this "SecurityGroup";
  mret {| imported_node := this;
          imported_props := props;
          imported_instanceIdentifier := import_instanceIdentifier props;
          imported_instanceEndpoint :=
            {| hostname := import_endpointAddress props;
               port := import_port props |};
          imported_securityGroupId := import_securityGroupId props;
          imported_connections :=
            {| securityGroups := [sg];
               defaultPortRange := import_port props |} |}.

Definition ImportedDatabaseInstance_export (this : ImportedDatabaseInstance)
  : M DatabaseInstanceImportProps :=
  mret (imported_props this).

End Instance.

(** ** aws-rds: imported database clusters *)
Module Cluster.
Import Core.
Import Instance (Endpoint, Build_Endpoint, hostname, port,
                 Connections, Build_Connections, securityGroups,
                 defaultPortRange).

Record DatabaseClusterImportProps : Type := {
  import_port : string;
  import_securityGroupId : string;
  import_clusterIdentifier : string;
  import_instanceIdentifiers : list string;
  import_clusterEndpointAddress : string;
  import_readerEndpointAddress : string;
  import_instanceEndpointAddresses : list string
}.

Record ImportedDatabaseCluster : Type := {
  imported_node : Path;
  imported_props : DatabaseClusterImportProps;
  imported_defaultPortRange : string;
  imported_connections : Connections;
  imported_clusterIdentifier : string;
  imported_instanceIdentifiers : list string;
  imported_clusterEndpoint : Endpoint;
  imported_readerEndpoint : Endpoint;
  imported_instanceEndpoints : list Endpoint;
  imported_securityGroupId : string
}.

Definition ImportedDatabaseCluster_new (scope : Path) (name : string)
  (props : DatabaseClusterImportProps) : M ImportedDatabaseCluster :=
  this ← Construct_new scope name;
  sg ← Construct_new this "SecurityGroup";
  mret {| imported_node := this;
          imported_props := props;
          imported_securityGroupId := import_securityGroupId props;
          imported_defaultPortRange := import_port props;
          imported_connections :=
            {| securityGroups := [sg];
               defaultPortRange := import_port props |};
          imported_clusterIdentifier := import_clusterIdentifier props;
          imported_instanceIdentifiers := [];
          imported_clusterEndpoint :=
            {| hostname := import_clusterEndpointAddress props;
               port := import_port props |};
          imported_readerEndpoint :=
            {| hostname := import_readerEndpointAddress props;
               port := import_port props |};
          imported_instanceEndpoints :=
            map (fun a => {| hostname := a; port := import_port props |})
                (import_instanceEndpointAddresses props) |}.

Definition ImportedDatabaseCluster_export (this : ImportedDatabaseCluster)
  : M DatabaseClusterImportProps :=
  mret (imported_props this).

End Cluster.

(** ** aws-eks: the cluster base class *)
Module ClusterBase.
Import Core.

Section Classes.
Variable cfnToken : Path -> string -> string.
Variable VpcPlacementStrategy : Type.
Variable Connections : Type.

(** The abstract members a subclass provides. *)
Record ClusterBase : Type := {
  node : Path;
  clusterName : string;
  clusterArn : string;
  clusterEndpoint : string;
  vpcPlacement : VpcPlacementStrategy;
  securityGroupId : string;
  connections : Connections
}.

Record ClusterImportProps : Type := {
  import_clusterName : string;
  import_clusterArn : string;
  import_clusterEndpoint : string;
  import_vpcPlacement : VpcPlacementStrategy;
  import_securityGroupId : string;
  import_connections : Connections
}.

Definition makeOutput (this : ClusterBase) (name value : string)
  : M string :=
  o ← CfnOutput_new (node this) name value;
  mret (cfnToken (output_path o) "Fn::ImportValue").

Definition export (this : ClusterBase) : M ClusterImportProps :=
  n ← makeOutput this "ClusterName" (clusterName this);
  a ← makeOutput this "ClusterArn" (clusterArn this);
  e ← makeOutput this "ClusterEndpoint" (clusterEndpoint this);
  mret {| import_clusterName := n;
          import_clusterArn := a;
          import_clusterEndpoint := e;
          import_vpcPlacement := vpcPlacement this;
          import_securityGroupId := securityGroupId this;
          import_connections := connections this |}.
End Classes.

End ClusterBase.

(** ** aws-dms: replication tasks *)
Module ReplicationTask.
Import Core.
Import Regex.

Local Open Scope char_scope.

(** [/^(?![\-0-9])(?!.*--)[A-Za-z0-9-]{1,255}(?<!-)$/] *)
Definition IDENTIFIER_REGEX : regex :=
  Seq Bol
 (Seq (NegAhead (Class [("-", "-"); ("0", "9")]))
 (Seq (NegAhead (Seq (Star AnyChar) (Seq (Lit "-") (Lit "-"))))
 (Seq (Rep (Class [("A", "Z"); ("a", "z"); ("0", "9"); ("-", "-")]) 1 255)
 (Seq (NegBehind (Lit "-"))
      Eol)))).

Local Close Scope char_scope.

Inductive MigrationType : Type := FULL_LOAD | FULL_LOAD_AND_CDC | CDC.

(** [CdcStart.position(p)] or [CdcStart.time(t)]. *)
Inductive CdcStart : Type :=
| cdcStartPosition (position : string)
| cdcStartTime (time : Z).

Record ReplicationTaskProps : Type := {
  cdcStart : option CdcStart;
  cdcStop : option string;
  migrationType : MigrationType;
  replicationInstanceArn : string;
  replicationTaskIdentifier : option string;
  sourceEndpointArn : string;
  tableMappings : string;
  targetEndpointArn : string
}.

Definition identifier_msg : string :=
  "Identifier must begin with a letter and must contain only ASCII letters, digits, and hyphens. They can't end with a hyphen or contain two consecutive hyphens. Maximum length is 255.".

Section Classes.
Variable cfnToken : Path -> string -> string.

Record ReplicationTask : Type := {
  node : Path;
  replicationTaskArn : string
}.

Definition ReplicationTask_new (scope : Path) (id : string)
  (props : ReplicationTaskProps) : M ReplicationTask :=
  this ← Construct_new scope id;
  if truthy_string (replicationTaskIdentifier props)
     && negb (test IDENTIFIER_REGEX
                (default "" (replicationTaskIdentifier props)))
  then throw (Thrown identifier_msg)
  else
  task ← CfnResource_new this "Resource" "AWS::DMS::ReplicationTask";
  mret {| node := this; replicationTaskArn := cfnToken task "Ref" |}.
End Classes.

(** The constraints of the identifier as the documentation words them:
    1-255 characters drawn from ASCII letters, digits and hyphens, not
    starting with a hyphen or a digit, not ending with a hyphen, no two
    consecutive hyphens. *)
Definition is_letter (c : ascii) : bool :=
  let n := nat_of_ascii c in
  ((65 <=? n) && (n <=? 90)) || ((97 <=? n) && (n <=? 122)).

Definition is_digit (c : ascii) : bool :=
  let n := nat_of_ascii c in (48 <=? n) && (n <=? 57).

Definition is_hyphen (c : ascii) : bool := nat_of_ascii c =? 45.

Fixpoint no_double_hyphen (s : list ascii) : bool :=
  match s with
  | c1 :: ((c2 :: _) as rest) =>
      negb (is_hyphen c1 && is_hyphen c2) && no_double_hyphen rest
  | _ => true
  end.

Definition identifier_ok (str : string) : bool :=
  let s := list_ascii_of_string str in
  (1 <=? length s) && (length s <=? 255)
  && forallb (fun c => is_letter c || is_digit c || is_hyphen c) s
  && match head s with
     | Some c => negb (is_hyphen c || is_digit c)
     | None => true
     end
  && match last s with
     | Some c => negb (is_hyphen c)
     | None => true
     end
  && no_double_hyphen s.

End ReplicationTask.

(** ** aws-ec2: the client VPN endpoint *)
Module ClientVpnEndpoint.
Import Core.

Record ClientVpnUserBasedAuthentication : Type := {
  directoryId : option string;
  samlProviderArn : option string;
  selfServiceSamlProviderArn : option string
}.

Inductive ClientAuthenticationRequest : Type :=
| certificate_authentication (clientRootCertificateChainArn : string)
| directory_service_authentication (directoryId : string)
| federated_authentication (samlProviderArn : string)
                           (selfServiceSamlProviderArn : option string).

Definition overlap_msg : string :=
  "The client CIDR cannot overlap with the local CIDR of the VPC".
Definition dns_msg : string :=
  "A client VPN endpoint can have up to two DNS servers".
Definition logging_msg : string :=
  "Cannot specify `logGroup` or `logStream` when logging is disabled".
Definition both_auth_msg : string :=
  "Cannot use both Active Directory and Federated authentication".
Definition no_auth_msg : string :=
  "A client VPN endpoint must use at least one authentication option".

Definition renderAuthenticationOptions
  (clientCertificate : option string)
  (userBasedAuthentication : option ClientVpnUserBasedAuthentication)
  : Error + list ClientAuthenticationRequest :=
  let opts1 :=
    match clientCertificate with
    | Some arn => [certificate_authentication arn]
    | None => []
    end in
  let dir := userBasedAuthentication ≫= directoryId in
  let saml := userBasedAuthentication ≫= samlProviderArn in
  if truthy_string dir && truthy_string saml
  then inl (Thrown both_auth_msg)
  else
  let opts2 :=
    if truthy_string dir
    then opts1 ++ [directory_service_authentication (default "" dir)]
    else opts1 in
  let opts3 :=
    if truthy_string saml
    then opts2 ++ [federated_authentication (default "" saml)
                     (userBasedAuthentication ≫= selfServiceSamlProviderArn)]
    else opts2 in
  if length opts3 =? 0
  then inl (Thrown no_auth_msg)
  else inr opts3.

Definition booleanToEnabledDisabled (val : option bool) : option string :=
  match val with
  | None => None
  | Some true => Some "enabled"
  | Some false => Some "disabled"
  end.

Section Classes.
Variable cfnToken : Path -> string -> string.
(** [Token.isUnresolved] of the core library. *)
Variable isUnresolved : string -> bool.
(** [CidrBlock] of [network-util]: the constructor, which may throw,
    and [containsCidr]. *)
Variable CidrBlock : Type.
Variable CidrBlock_new : string -> Error + CidrBlock.
Variable containsCidr : CidrBlock -> CidrBlock -> bool.
Variable SubnetSelection : Type.

Record IVpc : Type := {
  vpcId : string;
  vpcCidrBlock : string;
  (** [selectSubnets(selection).subnetIds] *)
  selectSubnets : option SubnetSelection -> list string
}.

Record ClientVpnEndpointProps : Type := {
  cidr : string;
  clientCertificate : option string;
  userBasedAuthentication : option ClientVpnUserBasedAuthentication;
  logging : option bool;
  logGroup : option string;
  logStream : option string;
  clientConnectionHandler : option string;
  securityGroups : option (list string);
  selfServicePortal : option bool;
  serverCertificate : string;
  dnsServers : option (list string);
  vpcSubnets : option SubnetSelection;
  authorizeAllUsersToVpcCidr : option bool;
  vpc : IVpc
}.

Record ClientVpnEndpoint : Type := {
  node : Path;
  endpointId : string;
  connections : list string;
  targetNetworksAssociated : list Path
}.

(** The associations, one per selected subnet, named by its index. *)
Fixpoint associate (this : Path) (idx : nat) (subnetIds : list string)
  : M (list Path) :=
  match subnetIds with
  | [] => mret []
  | _ :: rest =>
      a ← CfnResource_new this ("Association" +:+ pretty idx)
            "AWS::EC2::ClientVpnTargetNetworkAssociation";
      more ← associate this (S idx) rest;
      mret (a :: more)
  end.

Definition ClientVpnEndpoint_new (scope : Path) (id : string)
  (props : ClientVpnEndpointProps) : M ClientVpnEndpoint :=
  this ← Construct_new scope id;
  _ ← (if negb (isUnresolved (vpcCidrBlock (vpc props)))
       then
         clientCidr ← lift (CidrBlock_new (cidr props));
         vpcCidr ← lift (CidrBlock_new (vpcCidrBlock (vpc props)));
         if containsCidr vpcCidr clientCidr
         then throw (Thrown overlap_msg)
         else mret tt
       else mret tt);
  if match dnsServers props with
     | Some l => 2 <? length l
     | None => false
     end
  then throw (Thrown dns_msg)
  else
  if bool_decide (logging props = Some false)
     && (defined (logGroup props) || defined (logStream props))
  then throw (Thrown logging_msg)
  else
  let logging' := default true (logging props) in
  logGroup' ← (if logging'
               then match logGroup props with
                    | Some g => mret (Some g)
                    | None => g ← Construct_new this "LogGroup";
                              mret (Some (cfnToken g "Ref"))
                    end
               else mret None);
  securityGroups' ← match securityGroups props with
                    | Some l => mret l
                    | None => g ← Construct_new this "SecurityGroup";
                              mret [cfnToken g "GroupId"]
                    end;
  authenticationOptions ←
    lift (renderAuthenticationOptions (clientCertificate props)
            (userBasedAuthentication props));
  endpoint ← CfnResource_new this "Resource" "AWS::EC2::ClientVpnEndpoint";
  let endpointId' := cfnToken endpoint "Ref" in
  _ ← (if defined (userBasedAuthentication props)
          && default true (selfServicePortal props)
       then o ← CfnOutput_new this "SelfServicePortalUrl"
                  ("https://self-service.clientvpn.amazonaws.com/endpoints/"
                   +:+ endpointId');
            mret tt
       else mret tt);
  assocs ← associate this 0
             (selectSubnets (vpc props) (vpcSubnets props));
  _ ← (if default true (authorizeAllUsersToVpcCidr props)
       then r ← Construct_new this "AuthorizeAll"; mret tt
       else mret tt);
  mret {| node := this;
          endpointId := endpointId';
          connections := securityGroups';
          targetNetworksAssociated := assocs |}.
End Classes.

End ClientVpnEndpoint.

(** ** aws-cdk CLI: the asset archiver *)
Module Archive.

(** One file of the directory: its path relative to the directory, and
    what [readFile] and [stat] return for it. *)
Record DirFile : Type := {
  file : string;
  file_data : string;
  file_mode : Z
}.

(** The directory as [glob.sync('**', globOptions)] enumerates it: files
    only, in glob's sorted order. *)
Definition Directory : Type := list DirFile.

(** An entry as handed to [archive.append(data, { name, date, mode })]. *)
Record ArchiveEntry : Type := {
  entry_name : string;
  entry_date : string;
  entry_mode : Z;
  entry_data : string
}.

Definition pinned_date : string := "1980-01-01T00:00:00.000Z".

Definition entry_of (f : DirFile) : ArchiveEntry :=
  {| entry_name := file f;
     entry_date := pinned_date;
     entry_mode := file_mode f;
     entry_data := file_data f |}.

(** [Promise.all(files.map(async (file) => { await reads; append }))]:
    every callback starts its reads at once, in the order of [files],
    and appends its entry when its own reads complete.  Which pending
    read completes next is the event loop's choice; [sched] lists these
    choices as indices into the reads still pending.  When [sched] runs
    out the remaining reads complete in the order they were started.
    The archiver queues entries in the order of the [append] calls. *)
Fixpoint complete_reads (sched : list nat) (pending : list DirFile)
  (appended : list ArchiveEntry) : list ArchiveEntry :=
  match sched with
  | [] => appended ++ map entry_of pending
  | k :: sched' =>
      match pending !! (k mod length pending) with
      | Some f =>
          complete_reads sched' (delete (k mod length pending) pending)
            (appended ++ [entry_of f])
      | None => appended
      end
  end.

(** The entries of the archive written by [zipDirectory], in order. *)
Definition zipDirectory (sched : list nat) (directory : Directory)
  : list ArchiveEntry :=
  complete_reads sched directory [].

Section Hash.
(** The zip container written by the archiver for a sequence of
    entries, and SHA-256 with hex output. *)
Variable zip_bytes : list ArchiveEntry -> string.
Variable sha256_hex : string -> string.

Definition contentHash (data : string) : string := sha256_hex data.

Definition archive_hash (sched : list nat) (directory : Directory)
  : string :=
  contentHash (zip_bytes (zipDirectory sched directory)).
End Hash.

End Archive.

(** ** The lazy resolution engine *)
Module Resolve.

Definition Handle : Type := nat.

Inductive Prim : Type :=
| PNull
| PBool (b : bool)
| PNum (n : Z)
| PStr (s : string).

(** Modelled from the spec: the values [resolve] walks, "any nested
    combination of primitives, ordered sequences, mappings, and Tokens".
    [VTemplate] is a string in which tokens are embedded, cut at the
    sentinels into literal text and token handles; a string without
    tokens is [VPrim (PStr s)]. *)
Inductive Value : Type :=
| VPrim (p : Prim)
| VSeq (items : list Value)
| VMap (entries : list (string * Value))
| VToken (h : Handle)
| VTemplate (parts : list (string + Handle)).

(** The context a resolver runs in: the current deployable unit and the
    node being serialized. *)
Record Context : Type := { context_unit : string; context_node : string }.

Inductive ResolveError : Type :=
| UnresolvableToken (h : Handle)
| RunawayToken
| ResolverFailed (node : string) (message : string).

(** A resolver returns a value, or throws with a message. *)
Definition Resolver : Type := Context -> string + Value.

Abbreviation Registry := (gmap nat Resolver).

Definition Result (A : Type) : Type := ResolveError + A.

Section MapM.
Context {A B : Type}.
Variable f : A -> Result B.

Fixpoint mapM (l : list A) : Result (list B) :=
  match l with
  | [] => inr []
  | x :: l' =>
      match f x with
      | inl e => inl e
      | inr y =>
          match mapM l' with
          | inl e => inl e
          | inr ys => inr (y :: ys)
          end
      end
  end.
End MapM.

Definition prim_to_string (p : Prim) : string :=
  match p with
  | PNull => "null"
  | PBool true => "true"
  | PBool false => "false"
  | PNum n => pretty n
  | PStr s => s
  end.

Definition as_scalar (v : Value) : option string :=
  match v with
  | VPrim p => Some (prim_to_string p)
  | _ => None
  end.

(** The provider-native join of the fragments of a string. *)
Definition join_expression (fragments : list Value) : Value :=
  VMap [("Fn::Join", VSeq [VPrim (PStr ""); VSeq fragments])].

(** Modelled from the spec: "splice the resolved fragment back into the
    string, falling back to a provider-native string concatenation/join
    representation when the resolved value is itself non-scalar". *)
Definition splice (fragments : list Value) : Value :=
  match mapM (fun v => match as_scalar v with
                       | Some s => inr s
                       | None => inl RunawayToken
                       end) fragments with
  | inr strs => VPrim (PStr (String.concat "" strs))
  | inl _ => join_expression fragments
  end.

(** Modelled from the spec: [resolve(value, context)], which is not
    among the sources.  "For a primitive: returned unchanged.  For a
    sequence/mapping: recursively resolve every element/value; keys are
    never resolved.  For a Token: invoke its resolver with the current
    context; the resolver may itself return a value containing further
    Tokens -- resolution continues recursively until a fixed point of
    concrete values, with a bounded recursion depth (exceeding it is a
    fatal circular or runaway token error)."  "Resolving an
    unknown/foreign Token handle is a fatal unresolvable token error;
    resolving a Token whose resolver throws propagates that error,
    tagged with the originating node's path."  [depth] is the number of
    nested resolver invocations still allowed. *)
Fixpoint resolve (depth : nat) (reg : Registry) (ctx : Context)
  {struct depth} : Value -> Result Value :=
  let token (h : Handle) : Result Value :=
    match depth with
    | 0 => inl RunawayToken
    | S d =>
        match reg !! h with
        | None => inl (UnresolvableToken h)
        | Some r =>
            match r ctx with
            | inl msg => inl (ResolverFailed (context_node ctx) msg)
            | inr v' => resolve d reg ctx v'
            end
        end
    end in
  fix go (v : Value) {struct v} : Result Value :=
    match v with
    | VPrim p => inr (VPrim p)
    | VSeq items =>
        match mapM go items with
        | inl e => inl e
        | inr items' => inr (VSeq items')
        end
    | VMap entries =>
        match mapM (fun kv => let '(k, x) := kv in
                              match go x with
                              | inl e => inl e
                              | inr x' => inr (k, x')
                              end) entries with
        | inl e => inl e
        | inr entries' => inr (VMap entries')
        end
    | VToken h => token h
    | VTemplate parts =>
        match mapM (fun p => match p with
                             | inl s => inr (VPrim (PStr s))
                             | inr h => token h
                             end) parts with
        | inl e => inl e
        | inr fragments => inr (splice fragments)
        end
    end.

(** The token case of [resolve], on its own. *)
Definition resolve_token (depth : nat) (reg : Registry) (ctx : Context)
  (h : Handle) : Result Value :=
  match depth with
  | 0 => inl RunawayToken
  | S d =>
      match reg !! h with
      | None => inl (UnresolvableToken h)
      | Some r =>
          match r ctx with
          | inl msg => inl (ResolverFailed (context_node ctx) msg)
          | inr v' => resolve d reg ctx v'
          end
      end
  end.

(** Induction over values, with the hypotheses for the nested lists. *)
Section ValueInd.
Variable P : Value -> Prop.
Hypothesis HPrim : forall p, P (VPrim p).
Hypothesis HSeq : forall items, Forall P items -> P (VSeq items).
Hypothesis HMap :
  forall entries, Forall (fun kv => P (snd kv)) entries -> P (VMap entries).
Hypothesis HToken : forall h, P (VToken h).
Hypothesis HTemplate : forall parts, P (VTemplate parts).

Fixpoint Value_ind' (v : Value) : P v :=
  match v with
  | VPrim p => HPrim p
  | VSeq items =>
      HSeq items
        ((fix all (l : list Value) : Forall P l :=
            match l with
            | [] => @List.Forall_nil _ P
            | x :: l' => @List.Forall_cons _ P x l' (Value_ind' x) (all l')
            end) items)
  | VMap entries =>
      HMap entries
        ((fix all (l : list (string * Value))
            : Forall (fun kv => P (snd kv)) l :=
            match l with
            | [] => @List.Forall_nil _ _
            | (k, x) :: l' =>
                @List.Forall_cons _ (fun kv => P (snd kv)) (k, x) l'
                  (Value_ind' x) (all l')
            end) entries)
  | VToken h => HToken h
  | VTemplate parts => HTemplate parts
  end.
End ValueInd.

(** No token anywhere in the value. *)
Fixpoint token_free (v : Value) : bool :=
  match v with
  | VPrim _ => true
  | VSeq items => forallb token_free items
  | VMap entries => forallb (fun kv => token_free (snd kv)) entries
  | VToken _ => false
  | VTemplate _ => false
  end.

End Resolve.

(** ** The reference tracker *)
Module Tracker.
Import Core.


(** Modelled from the spec: an exported value a deployable unit "must
    publish for cross-unit references": an attribute of a node of that
    unit. *)
Record Export : Type := {
  export_unit : string;
  export_node : Path;
  export_attribute : string
}.

(** Modelled from the spec: an imported parameter a deployable unit "must
    accept": the consumer unit and the export it stands for. *)
Record Import : Type := {
  import_unit : string;
  import_of : Export
}.

#[global] Instance Export_eq_dec : EqDecision Export.
Proof. solve_decision. Defined.

#[global] Instance Import_eq_dec : EqDecision Import.
Proof. solve_decision. Defined.



Section Tracking.
(** Modelled from the spec: the deployable unit a node "may be associated
    with". *)
Variable unit_of : Path -> string.




End Tracking.

End Tracker.

(** ** aws-rds: database clusters *)
Module DatabaseCluster.
Import Core.
Import Instance (Endpoint, Build_Endpoint, hostname, port,
                 Connections, Build_Connections, securityGroups,
                 defaultPortRange).

Definition at_least_one_instance_msg : string :=
  "At least one instance is required".

Section Classes.
Variable cfnToken : Path -> string -> string.
Variable VpcPlacementStrategy : Type.

(** [InstanceProps] of [props.ts]; [securityGroup] is the construct of
    a security group supplied by the caller. *)
Record InstanceProps : Type := {
  instanceType : string;
  vpc : Instance.IVpcNetwork VpcPlacementStrategy;
  vpcPlacement : option VpcPlacementStrategy;
  securityGroup : option Path
}.

Record Login : Type := { username : string; password : option string }.

(** The props that decide control flow, the shape of the tree and the
    instance identifiers. *)
Record DatabaseClusterProps : Type := {
  engine : string;
  instances : option Z;
  instanceProps : InstanceProps;
  masterUser : Login;
  clusterIdentifier : option string;
  instanceIdentifierBase : option string
}.

(** One [CfnDBInstance] of the cluster: its construct and the
    [dbInstanceIdentifier] it was given. *)
Record ClusterInstance : Type := {
  instance_path : Path;
  dbInstanceIdentifier : option string
}.

Record DatabaseCluster : Type := {
  node : Path;
  clusterIdentifier_ref : string;
  instanceIdentifiers : list string;
  clusterEndpoint : Endpoint;
  readerEndpoint : Endpoint;
  instanceEndpoints : list Endpoint;
  connections : Connections;
  securityGroupId : string;
  cluster_engine : string;
  secret : option string;
  cluster_instances : list ClusterInstance
}.

(** The identifier of instance number [instanceIndex]. *)
Definition instanceIdentifier_for (props : DatabaseClusterProps)
  (instanceIndex : nat) : option string :=
  match instanceIdentifierBase props with
  | Some base => Some (base +:+ pretty instanceIndex)
  | None =>
      match clusterIdentifier props with
      | Some cid => Some (cid +:+ "instance" +:+ pretty instanceIndex)
      | None => None
      end
  end.

(** [for (let i = 0; i < instanceCount; i++)], with [count] iterations
    left from index [i]. *)
Fixpoint addInstances (this : Path) (props : DatabaseClusterProps)
  (count i : nat) : M (list ClusterInstance) :=
  match count with
  | 0 => mret []
  | S count' =>
      let instanceIndex := i + 1 in
      instance ← CfnResource_new this ("Instance" +:+ pretty instanceIndex)
                   "AWS::RDS::DBInstance";
      rest ← addInstances this props count' (S i);
      mret ({| instance_path := instance;
               dbInstanceIdentifier :=
                 instanceIdentifier_for props instanceIndex |} :: rest)
  end.

Definition DatabaseCluster_new (scope : Path) (id : string)
  (props : DatabaseClusterProps) : M DatabaseCluster :=
  this ← Construct_new scope id;
  let subnets :=
    Instance.vpc_subnets _ (vpc (instanceProps props))
      (vpcPlacement (instanceProps props)) in
  if length subnets <? 2
  then throw (Thrown ("Cluster requires at least 2 subnets, got "
                      +:+ pretty (length subnets)))
  else
  subnetGroup ← CfnResource_new this "Subnets" "AWS::RDS::DBSubnetGroup";
  sg ← match securityGroup (instanceProps props) with
       | Some g => mret g
       | None => Construct_new this "SecurityGroup"
       end;
  sec ← (if negb (truthy_string (password (masterUser props)))
         then arn ← Instance.DatabaseSecret_new cfnToken this "Secret";
              mret (Some arn)
         else mret None);
  cluster ← CfnResource_new this "Resource" "AWS::RDS::DBCluster";
  let instanceCount := default 2%Z (instances props) in
  if (instanceCount <? 1)%Z
  then throw (Thrown at_least_one_instance_msg)
  else
  insts ← addInstances this props (Z.to_nat instanceCount) 0;
  _ ← (if defined sec
       then a ← CfnResource_new this "SecretAttachement"
                  "AWS::SecretsManager::SecretTargetAttachment";
            mret tt
       else mret tt);
  mret {| node := this;
          clusterIdentifier_ref := cfnToken cluster "Ref";
          instanceIdentifiers :=
            map (fun i => cfnToken (instance_path i) "Ref") insts;
          clusterEndpoint :=
            {| hostname := cfnToken cluster "Endpoint.Address";
               port := cfnToken cluster "Endpoint.Port" |};
          readerEndpoint :=
            {| hostname := cfnToken cluster "ReadEndpoint.Address";
               port := cfnToken cluster "Endpoint.Port" |};
          instanceEndpoints :=
            map (fun i =>
                   {| hostname := cfnToken (instance_path i) "Endpoint.Address";
                      port := cfnToken (instance_path i) "Endpoint.Port" |})
                insts;
          connections :=
            {| securityGroups := [sg];
               defaultPortRange := cfnToken cluster "Endpoint.Port" |};
          securityGroupId := cfnToken sg "GroupId";
          cluster_engine := engine props;
          secret := sec;
          cluster_instances := insts |}.
End Classes.

End DatabaseCluster.

(** ** aws-rds: single user secret rotation *)
Module Rotation.
Import Core.

Record ServerlessApplicationLocation : Type := {
  applicationId : string;
  semanticVersion : string
}.

Definition ServerlessApplicationLocation_new (application version : string)
  : ServerlessApplicationLocation :=
  {| applicationId :=
       "arn:aws:serverlessrepo:us-east-1:297356227824:applications/"
       +:+ application;
     semanticVersion := version |}.

Definition MariaDbRotationSingleUser : ServerlessApplicationLocation :=
  ServerlessApplicationLocation_new
    "SecretsManagerRDSMariaDBRotationSingleUser" "1.0.46".
Definition MysqlRotationSingleUser : ServerlessApplicationLocation :=
  ServerlessApplicationLocation_new
    "SecretsManagerRDSMySQLRotationSingleUser" "1.0.74".
Definition OracleRotationSingleUser : ServerlessApplicationLocation :=
  ServerlessApplicationLocation_new
    "SecretsManagerRDSOracleRotationSingleUser" "1.0.45".
Definition PostgresRotationSingleUser : ServerlessApplicationLocation :=
  ServerlessApplicationLocation_new
    "SecretsManagerRDSPostgreSQLRotationSingleUser" "1.0.75".
Definition SqlServerRotationSingleUser : ServerlessApplicationLocation :=
  ServerlessApplicationLocation_new
    "SecretsManagerRDSSQLServerRotationSingleUser" "1.0.74".

Definition literal (w : string) : Regex.regex :=
  Regex.word (list_ascii_of_string w).

Definition getApplicationLocation (engine : string)
  : Error + ServerlessApplicationLocation :=
  if String.eqb engine (Instance.engine_value Instance.Aurora)
     || Regex.test (literal "mysql") engine
  then inr MysqlRotationSingleUser
  else if Regex.test (literal "mariadb") engine
  then inr MariaDbRotationSingleUser
  else if Regex.test (literal "oracle") engine
  then inr OracleRotationSingleUser
  else if Regex.test (literal "postgres") engine
  then inr PostgresRotationSingleUser
  else if Regex.test (literal "sqlserver") engine
  then inr SqlServerRotationSingleUser
  else inl (Thrown ("Engine " +:+ engine
                    +:+ " not supported for single user rotation.")).

Definition both_msg : string := "Cannot specify both `instance` and `cluster`.".
Definition either_msg : string :=
  "Either `instance` or `cluster` must be specified.".
Definition no_secret_msg : string :=
  "There is no secret associated with this instance.".

Section Classes.
Variable VpcPlacementStrategy : Type.
(** [node.uniqueId] of the core library. *)
Variable uniqueId : Path -> string.
(** [connections.allowDefaultPortFrom(securityGroup)] of [aws-ec2]. *)
Variable allowDefaultPortFrom : Instance.Connections -> Path -> M unit.

Record RotationSingleUserProps : Type := {
  automaticallyAfterDays : option Z;
  serverlessApplicationLocation : option ServerlessApplicationLocation;
  instance : option Instance.DatabaseInstance;
  cluster : option DatabaseCluster.DatabaseCluster;
  vpc : Instance.IVpcNetwork VpcPlacementStrategy;
  vpcPlacement : option VpcPlacementStrategy
}.

(** [props.instance || props.cluster] *)
Inductive Target : Type :=
| TargetInstance (i : Instance.DatabaseInstance)
| TargetCluster (c : DatabaseCluster.DatabaseCluster).

Definition target_secret (t : Target) : option string :=
  match t with
  | TargetInstance i => Instance.secret i
  | TargetCluster c => DatabaseCluster.secret c
  end.

Definition target_connections (t : Target) : Instance.Connections :=
  match t with
  | TargetInstance i => Instance.connections i
  | TargetCluster c => DatabaseCluster.connections c
  end.

Definition target_engine (t : Target) : string :=
  match t with
  | TargetInstance i => Instance.engine_value (Instance.instance_engine i)
  | TargetCluster c => DatabaseCluster.cluster_engine c
  end.

(** What the construct hands to the resources it creates. *)
Record RotationSingleUser : Type := {
  node : Path;
  location : ServerlessApplicationLocation;
  functionName : string;
  vpcSubnetIds : string;
  secretId : string;
  rotationAfterDays : Z
}.

Definition RotationSingleUser_new (scope : Path) (id : string)
  (props : RotationSingleUserProps) : M RotationSingleUser :=
  this ← Construct_new scope id;
  if defined (instance props) && defined (cluster props)
  then throw (Thrown both_msg)
  else
  match match instance props with
        | Some i => Some (TargetInstance i)
        | None => option_map TargetCluster (cluster props)
        end with
  | None => throw (Thrown either_msg)
  | Some target =>
      match target_secret target with
      | None => throw (Thrown no_secret_msg)
      | Some secretArn =>
          let subnets := Instance.vpc_subnets _ (vpc props) (vpcPlacement props) in
          securityGroup ← Construct_new this "SecurityGroup";
          _ ← allowDefaultPortFrom (target_connections target) securityGroup;
          let rotationFunctionName := uniqueId this in
          loc ← match serverlessApplicationLocation props with
                | Some l => mret l
                | None => lift (getApplicationLocation (target_engine target))
                end;
          application ← CfnResource_new this "Resource"
                          "AWS::Serverless::Application";
          permission ← CfnResource_new this "Permission"
                         "AWS::Lambda::Permission";
          rotationSchedule ← CfnResource_new this "Schedule"
                               "AWS::SecretsManager::RotationSchedule";
          mret {| node := this;
                  location := loc;
                  functionName := rotationFunctionName;
                  vpcSubnetIds :=
                    String.concat "," (map Instance.subnetId subnets);
                  secretId := secretArn;
                  rotationAfterDays :=
                    if truthy_number (automaticallyAfterDays props)
                    then default 30%Z (automaticallyAfterDays props)
                    else 30%Z |}
      end
  end.

(** [DatabaseInstance.addMasterPasswordRotation(id, options)]; [vpc] and
    [vpcPlacement] are the private fields the instance's constructor set
    from its props. *)
Definition addMasterPasswordRotation (this : Instance.DatabaseInstance)
  (this_vpc : Instance.IVpcNetwork VpcPlacementStrategy)
  (this_vpcPlacement : option VpcPlacementStrategy)
  (id : string) (automaticallyAfterDays' : option Z)
  (serverlessApplicationLocation' : option ServerlessApplicationLocation)
  : M unit :=
  _ ← RotationSingleUser_new (Instance.node this) id
        {| automaticallyAfterDays := automaticallyAfterDays';
           serverlessApplicationLocation := serverlessApplicationLocation';
           instance := Some this;
           cluster := None;
           vpc := this_vpc;
           vpcPlacement := this_vpcPlacement |};
  mret tt.
End Classes.

End Rotation.

(** ** aws-dms: certificates *)
Module Certificate.
Import Core.
Import Regex.

Local Open Scope char_scope.

(** [/^(?!-)(?!.*--)[A-Za-z0-9-]+(?<!-)$/]; [r+] is written [rr*]. *)
Definition IDENTIFIER_REGEX : regex :=
  Seq Bol
 (Seq (NegAhead (Lit "-"))
 (Seq (NegAhead (Seq (Star AnyChar) (Seq (Lit "-") (Lit "-"))))
 (Seq (Seq (Class [("A", "Z"); ("a", "z"); ("0", "9"); ("-", "-")])
           (Star (Class [("A", "Z"); ("a", "z"); ("0", "9"); ("-", "-")])))
 (Seq (NegBehind (Lit "-"))
      Eol)))).

Local Close Scope char_scope.

Record CertificateFile : Type := {
  certificatePem : option string;
  certificateWallet : option string
}.

Definition fromPem (pem : string) : CertificateFile :=
  {| certificatePem := Some pem; certificateWallet := None |}.

Definition fromSso (sso : string) : CertificateFile :=
  {| certificatePem := None; certificateWallet := Some sso |}.

Record CertificateProps : Type := {
  certificateIdentifier : option string;
  certificateFile : CertificateFile
}.

Definition identifier_msg : string :=
  "Identifier must begin with a letter and must contain only ASCII letters, digits, and hyphens. They can't end with a hyphen or contain two consecutive hyphens.".

Section Classes.
Variable cfnToken : Path -> string -> string.

Record Certificate : Type := {
  node : Path;
  certificateArn : string
}.

Definition Certificate_new (scope : Path) (id : string)
  (props : CertificateProps) : M Certificate :=
  this ← Construct_new scope id;
  if truthy_string (certificateIdentifier props)
     && negb (test IDENTIFIER_REGEX (default "" (certificateIdentifier props)))
  then throw (Thrown identifier_msg)
  else
  certificate ← CfnResource_new this "Resource" "AWS::DMS::Certificate";
  mret {| node := this; certificateArn := cfnToken certificate "Ref" |}.
End Classes.

(** [Certificate.fromCertificateArn(scope, id, certificateArn)] *)
Definition fromCertificateArn (scope : Path) (id : string)
  (certificateArn' : string) : M Certificate :=
  this ← Construct_new scope id;
  mret {| node := this; certificateArn := certificateArn' |}.

End Certificate.

(** ** aws-dms: replication subnet groups and replication instances *)
Module ReplicationInstance.
Import Core.
Import Regex.

Local Open Scope char_scope.

(** [/^(?![\-0-9])(?!.*--)[A-Za-z0-9-]{1,63}(?<!-)$/] *)
Definition IDENTIFIER_REGEX : regex :=
  Seq Bol
 (Seq (NegAhead (Class [("-", "-"); ("0", "9")]))
 (Seq (NegAhead (Seq (Star AnyChar) (Seq (Lit "-") (Lit "-"))))
 (Seq (Rep (Class [("A", "Z"); ("a", "z"); ("0", "9"); ("-", "-")]) 1 63)
 (Seq (NegBehind (Lit "-"))
      Eol)))).

Local Close Scope char_scope.

Definition availability_zone_msg : string :=
  "Can set `availabilityZone` when `multiAz` is set to `true`".

Definition identifier_msg : string :=
  "Identifier must begin with a letter and must contain only ASCII letters, digits, and hyphens. They can't end with a hyphen or contain two consecutive hyphens. Maximum length is 63.".

Section Classes.
Variable cfnToken : Path -> string -> string.
Variable SubnetSelection : Type.
(** [{ subnetType: ec2.SubnetType.PRIVATE }] *)
Variable privateSubnets : SubnetSelection.

Record SubnetGroupProps : Type := {
  sg_description : string;
  sg_vpc : ClientVpnEndpoint.IVpc SubnetSelection;
  sg_subnetGroupName : option string;
  sg_vpcSubnets : option SubnetSelection
}.

(** A [SubnetGroup], with the subnets handed to its Cfn resource. *)
Record SubnetGroup : Type := {
  subnetGroup_node : Path;
  subnetGroupName : string;
  subnetGroup_subnetIds : list string
}.

Definition SubnetGroup_new (scope : Path) (id : string)
  (props : SubnetGroupProps) : M SubnetGroup :=
  this ← Construct_new scope id;
  let subnetIds :=
    ClientVpnEndpoint.selectSubnets _ (sg_vpc props)
      (Some (default privateSubnets (sg_vpcSubnets props))) in
  subnetGroup ← CfnResource_new this "Resource"
                  "AWS::DMS::ReplicationSubnetGroup";
  mret {| subnetGroup_node := this;
          subnetGroupName := cfnToken subnetGroup "Ref";
          subnetGroup_subnetIds := subnetIds |}.

(** The props that decide control flow and the shape of the tree;
    [subnetGroup] is the name of a subnet group supplied by the caller,
    [securityGroups] the ids of security groups supplied by the caller. *)
Record ReplicationInstanceProps : Type := {
  availabilityZone : option string;
  mutliAz : option bool;
  publiclyAccessible : option bool;
  instanceIdentifier : option string;
  vpc : ClientVpnEndpoint.IVpc SubnetSelection;
  vpcSubnets : option SubnetSelection;
  subnetGroup : option string;
  securityGroups : option (list string)
}.

Record ReplicationInstance : Type := {
  node : Path;
  replicationInstanceArn : string;
  connections : list string;
  (** properties handed to the Cfn resource *)
  replicationSubnetGroupIdentifier : string;
  cfn_publiclyAccessible : bool
}.

Definition ReplicationInstance_new (scope : Path) (id : string)
  (props : ReplicationInstanceProps) : M ReplicationInstance :=
  this ← Construct_new scope id;
  if truthy_bool (mutliAz props) && truthy_string (availabilityZone props)
  then throw (Thrown availability_zone_msg)
  else
  if truthy_string (instanceIdentifier props)
     && negb (test IDENTIFIER_REGEX (default "" (instanceIdentifier props)))
  then throw (Thrown identifier_msg)
  else
  subnetGroup' ← match subnetGroup props with
                 | Some name => mret name
                 | None =>
                     g ← SubnetGroup_new this "SubnetGroup"
                           {| sg_description :=
                                "Subnet group for " +:+ id
                                +:+ " replication instance";
                              sg_vpc := vpc props;
                              sg_subnetGroupName := None;
                              sg_vpcSubnets := vpcSubnets props |};
                     mret (subnetGroupName g)
                 end;
  securityGroups' ← match securityGroups props with
                    | Some l => mret l
                    | None => g ← Construct_new this "SecurityGroup";
                              mret [cfnToken g "GroupId"]
                    end;
  instance ← CfnResource_new this "Resource" "AWS::DMS::ReplicationInstance";
  mret {| node := this;
          replicationInstanceArn := cfnToken instance "Ref";
          connections := securityGroups';
          replicationSubnetGroupIdentifier := subnetGroup';
          cfn_publiclyAccessible := default false (publiclyAccessible props) |}.
End Classes.

End ReplicationInstance.

(** ** aws-eks: imported clusters *)
Module ImportedCluster.
Import Core.

Section Classes.
Variable VpcPlacementStrategy : Type.
Variable Connections : Type.

(** [class ImportedCluster extends ClusterBase]: the constructor copies
    the props into the members [ClusterBase] declares. *)
Definition ImportedCluster_new (parent : Path) (name : string)
  (props : ClusterBase.ClusterImportProps VpcPlacementStrategy Connections)
  : M (ClusterBase.ClusterBase VpcPlacementStrategy Connections) :=
  this ← Construct_new parent name;
  mret {| ClusterBase.node := this;
          ClusterBase.clusterName := ClusterBase.import_clusterName _ _ props;
          ClusterBase.clusterArn := ClusterBase.import_clusterArn _ _ props;
          ClusterBase.clusterEndpoint :=
            ClusterBase.import_clusterEndpoint _ _ props;
          ClusterBase.vpcPlacement :=
            ClusterBase.import_vpcPlacement _ _ props;
          ClusterBase.securityGroupId :=
            ClusterBase.import_securityGroupId _ _ props;
          ClusterBase.connections :=
            ClusterBase.import_connections _ _ props |}.
End Classes.

End ImportedCluster.

(** ** custom resources: the AWS SDK caller *)
Module AwsSdkJsCustomResource.
Import Core.

Record AwsSdkCall : Type := {
  service : string;
  action : string;
  parameters : string
}.

Record AwsSdkJsCustomResourceProps : Type := {
  onCreate : option AwsSdkCall;
  onUpdate : option AwsSdkCall;
  onDelete : option AwsSdkCall
}.

Definition no_call_msg : string :=
  "At least `onCreate`, `onUpdate` or `onDelete` must be specified.".

(** The construct, with the properties handed to its [CustomResource]. *)
Record AwsSdkJsCustomResource : Type := {
  node : Path;
  lambda : Path;
  resource : Path;
  cr_create : option AwsSdkCall;
  cr_update : option AwsSdkCall;
  cr_delete : option AwsSdkCall
}.

(** [a || b] on optional objects. *)
Definition or_else {A : Type} (a b : option A) : option A :=
  match a with Some _ => a | None => b end.

Definition AwsSdkJsCustomResource_new (scope : Path) (id : string)
  (props : AwsSdkJsCustomResourceProps) : M AwsSdkJsCustomResource :=
  this ← Construct_new scope id;
  if negb (defined (onCreate props)) && negb (defined (onUpdate props))
     && negb (defined (onDelete props))
  then throw (Thrown no_call_msg)
  else
  fn ← Construct_new this "Function";
  res ← Construct_new this "Resource";
  mret {| node := this;
          lambda := fn;
          resource := res;
          cr_create := or_else (onCreate props) (onUpdate props);
          cr_update := or_else (onUpdate props) (onCreate props);
          cr_delete := onDelete props |}.

End AwsSdkJsCustomResource.

(** ** aws-lambda-nodejs: utilities *)
Module NodejsUtil.
Import Core.

(** The values [countItems] can store in its result object: a number, or
    the text that [+= 1] makes of an inherited member. *)
Inductive JsValue : Type :=
| JNum (n : nat)
| JStr (s : string).

(** The property names every plain object inherits from
    [Object.prototype]. *)
Definition object_prototype_names : list string :=
  ["constructor"; "__defineGetter__"; "__defineSetter__"; "hasOwnProperty";
   "__lookupGetter__"; "__lookupSetter__"; "isPrototypeOf";
   "propertyIsEnumerable"; "toString"; "valueOf"; "__proto__";
   "toLocaleString"].

Definition truthy (v : JsValue) : bool :=
  match v with
  | JNum n => negb (n =? 0)
  | JStr s => negb (String.eqb s "")
  end.

(** [v + 1] *)
Definition plus_one (v : JsValue) : JsValue :=
  match v with
  | JNum n => JNum (n + 1)
  | JStr s => JStr (s +:+ "1")
  end.

Section CountItems.
(** [String(Object.prototype[name])] for an inherited name. *)
Variable inherited_text : string -> string.

(** [ret[item]]: the own property, else the inherited member. *)
Definition get (ret : gmap string JsValue) (item : string) : option JsValue :=
  match ret !! item with
  | Some v => Some v
  | None =>
      if bool_decide (item ∈ object_prototype_names)
      then Some (JStr (inherited_text item))
      else None
  end.

(** [ret[item] = v]: an own property is written, except for [__proto__],
    whose inherited setter ignores numbers and strings. *)
Definition put (item : string) (v : JsValue) (ret : gmap string JsValue)
  : gmap string JsValue :=
  if String.eqb item "__proto__" then ret else <[item := v]> ret.

Definition count_step (ret : gmap string JsValue) (item : string)
  : gmap string JsValue :=
  match get ret item with
  | Some v =>
      if truthy v then put item (plus_one v) ret else put item (JNum 1) ret
  | None => put item (JNum 1) ret
  end.

Definition countItems (list : list string) : gmap string JsValue :=
  fold_left count_step list ∅.
End CountItems.

(** [str.replace(re, replacement)] for a pattern without the [g] flag:
    the leftmost match is replaced.  The end of the match is the first
    one listed by [Regex.ends]; the patterns used here match at most one
    substring from a given start. *)
Definition search (r : Regex.regex) (s : list ascii) : option (nat * nat) :=
  match find (Regex.matches_at s r) (seq 0 (S (length s))) with
  | Some i =>
      match Regex.ends s r i with
      | j :: _ => Some (i, j)
      | [] => None
      end
  | None => None
  end.

Definition replace (r : Regex.regex) (replacement str : string) : string :=
  let s := list_ascii_of_string str in
  match search r s with
  | Some (i, j) =>
      string_of_list_ascii
        (take i s ++ list_ascii_of_string replacement ++ drop j s)
  | None => str
  end.

(** [/node_modules$/] *)
Definition node_modules_regex : Regex.regex :=
  Regex.Seq (Regex.word (list_ascii_of_string "node_modules")) Regex.Eol.

Definition no_package_json_msg : string :=
  "Cannot find a `package.json` file.".

Section FindPkgPath.
(** [fs.existsSync] *)
Variable existsSync : string -> bool.

(** The loop over [module.paths], with the value [pkgPath] holds when
    the loop is entered. *)
Fixpoint find_loop (paths : list string) (pkgPath : option string)
  : option string :=
  match paths with
  | [] => pkgPath
  | path :: rest =>
      let pkgPath' := replace node_modules_regex "package.json" path in
      if existsSync pkgPath' then Some pkgPath'
      else find_loop rest (Some pkgPath')
  end.

Definition findPkgPath (module_paths : list string) : Error + string :=
  match find_loop module_paths None with
  | Some pkgPath =>
      if String.eqb pkgPath "" then inl (Thrown no_package_json_msg)
      else inr pkgPath
  | None => inl (Thrown no_package_json_msg)
  end.
End FindPkgPath.

End NodejsUtil.

(** ** Predicates and sample inputs used by the statements below *)

(** What the lazy [parameters] token of a parameter group must satisfy
    to read the group's state at resolution time. *)
Definition reads_current_parameters
  (tok : ParameterGroup.Token ParameterGroup.Parameters) : Prop :=
  forall this : ParameterGroup.ParameterGroup,
    ParameterGroup.Token_resolve tok this = ParameterGroup.parameters this
    /\ (forall k v, k ≠ "__proto__" ->
          ParameterGroup.Token_resolve tok
            (ParameterGroup.setParameter k (Some v) this)
          = <[k := v]> (ParameterGroup.Token_resolve tok this))
    /\ (forall k,
          ParameterGroup.Token_resolve tok
            (ParameterGroup.removeParameter k this)
          = delete k (ParameterGroup.Token_resolve tok this)).

Definition sample_group : ParameterGroup.ParameterGroup :=
  {| ParameterGroup.node := ["Stack"; "Params"];
     ParameterGroup.description := "Parameter group for mysql5.7";
     ParameterGroup.parameters := ∅ |}.

Definition sample_group_props : ParameterGroup.ParameterGroupProps :=
  {| ParameterGroup.family := "aurora5.6";
     ParameterGroup.props_description := None;
     ParameterGroup.props_parameters :=
       Some [("max_connections", Some "100")] |}.

(** A token encoding for the samples. *)
Definition sample_cfnToken (p : Core.Path) (attr : string) : string :=
  "${Token[" +:+ String.concat "/" p +:+ "." +:+ attr +:+ "]}".

(** A computation that never throws the error [e]. *)
Definition never_throws {A : Type} (e : Core.Error) (m : Core.M A) : Prop :=
  forall t, fst (m t) ≠ inl e.



Definition sample_instance_import : Instance.DatabaseInstanceImportProps :=
  {| Instance.import_instanceIdentifier := "db-1";
     Instance.import_endpointAddress := "db.example.internal";
     Instance.import_port := "3306";
     Instance.import_securityGroupId := "sg-0123" |}.

Definition sample_vpc : Instance.IVpcNetwork unit :=
  {| Instance.vpc_subnets := fun _ =>
       [ {| Instance.subnetId := "subnet-a";
            Instance.availabilityZone := "eu-west-1a" |};
         {| Instance.subnetId := "subnet-b";
            Instance.availabilityZone := "eu-west-1b" |} ] |}.

Definition sample_instance_props (e : Instance.DatabaseInstanceEngine)
  : Instance.DatabaseInstanceProps unit :=
  {| Instance.engine := e;
     Instance.multiAz := None;
     Instance.storageType := None;
     Instance.allocatedStorage := None;
     Instance.iops := None;
     Instance.masterUsername := None;
     Instance.masterUserPassword := None;
     Instance.generateMasterUserPassword := None;
     Instance.vpc := sample_vpc;
     Instance.vpcPlacement := None;
     Instance.databaseName := None;
     Instance.db_port := None;
     Instance.optionGroup := None;
     Instance.characterSetName := None;
     Instance.backupRetentionPeriod := None;
     Instance.preferredBackupWindow := None;
     Instance.preferredMaintenanceWindow := None;
     Instance.monitoringInterval := None;
     Instance.deletionProtection := None;
     Instance.snapshotIdentifier := None;
     Instance.databaseCluster :=
       Some {| Instance.clusterIdentifier := "cluster-1" |};
     Instance.sourceDatabaseInstance := None;
     Instance.processorFeatures := None |}.

(** A stand-in for [Token.isUnresolved] and for [CidrBlock]: every pair
    of blocks is taken to overlap. *)
Definition sample_isUnresolved (s : string) : bool :=
  String.prefix "${Token[" s.

Definition sample_CidrBlock_new (s : string) : Core.Error + string := inr s.

Definition sample_containsCidr (a b : string) : bool := true.

Definition sample_vpn_props (vpcCidr : string)
  : ClientVpnEndpoint.ClientVpnEndpointProps unit :=
  {| ClientVpnEndpoint.cidr := "10.100.0.0/16";
     ClientVpnEndpoint.clientCertificate :=
       Some "arn:aws:acm:eu-west-1:123456789012:certificate/client";
     ClientVpnEndpoint.userBasedAuthentication := None;
     ClientVpnEndpoint.logging := None;
     ClientVpnEndpoint.logGroup := None;
     ClientVpnEndpoint.logStream := None;
     ClientVpnEndpoint.clientConnectionHandler := None;
     ClientVpnEndpoint.securityGroups := None;
     ClientVpnEndpoint.selfServicePortal := None;
     ClientVpnEndpoint.serverCertificate :=
       "arn:aws:acm:eu-west-1:123456789012:certificate/server";
     ClientVpnEndpoint.dnsServers := None;
     ClientVpnEndpoint.vpcSubnets := None;
     ClientVpnEndpoint.authorizeAllUsersToVpcCidr := None;
     ClientVpnEndpoint.vpc :=
       {| ClientVpnEndpoint.vpcId := "vpc-1";
          ClientVpnEndpoint.vpcCidrBlock := vpcCidr;
          ClientVpnEndpoint.selectSubnets := fun _ => ["subnet-a"; "subnet-b"]
       |} |}.

Definition sample_directory : Archive.Directory :=
  [ {| Archive.file := "index.js";
       Archive.file_data := "exports.handler = async () => 42;";
       Archive.file_mode := 420 |};
    {| Archive.file := "package.json";
       Archive.file_data := "{}";
       Archive.file_mode := 420 |} ].

(** Two tokens whose resolvers return each other. *)
Definition sample_cycle : Resolve.Registry :=
  <[0 := fun _ => inr (Resolve.VToken 1)]>
    (<[1 := fun _ => inr (Resolve.VToken 0)]> ∅).

Definition sample_context : Resolve.Context :=
  {| Resolve.context_unit := "Stack"; Resolve.context_node := "Stack/Database" |}.

Definition sample_plain_value : Resolve.Value :=
  Resolve.VMap
    [("Engine", Resolve.VPrim (Resolve.PStr "mysql"));
     ("Iops", Resolve.VPrim (Resolve.PNum 1000));
     ("VPCSecurityGroups",
       Resolve.VSeq [Resolve.VPrim (Resolve.PStr "sg-0123")])].

(** Every code unit of [s] at a position in [[i, j)] satisfies [p]. *)
Definition run_ok (s : list ascii) (p : ascii -> bool) (i j : nat) : Prop :=
  forall k, i <= k < j -> exists c, s !! k = Some c /\ p c = true.

Definition ident_char (c : ascii) : bool :=
  ReplicationTask.is_letter c || ReplicationTask.is_digit c
  || ReplicationTask.is_hyphen c.

(** The identifier constraints, position by position. *)
Definition identifier_shape (s : list ascii) : Prop :=
  1 <= length s <= 255
  /\ run_ok s ident_char 0 (length s)
  /\ (forall c, s !! 0 = Some c ->
        ReplicationTask.is_hyphen c || ReplicationTask.is_digit c = false)
  /\ (forall c, s !! (length s - 1) = Some c ->
        ReplicationTask.is_hyphen c = false)
  /\ (forall k c1 c2, s !! k = Some c1 -> s !! S k = Some c2 ->
        ReplicationTask.is_hyphen c1 && ReplicationTask.is_hyphen c2 = false).

Definition sample_task_props (identifier : option string)
  : ReplicationTask.ReplicationTaskProps :=
  {| ReplicationTask.cdcStart := None;
     ReplicationTask.cdcStop := None;
     ReplicationTask.migrationType := ReplicationTask.FULL_LOAD;
     ReplicationTask.replicationInstanceArn :=
       "arn:aws:dms:eu-west-1:123456789012:rep:instance";
     ReplicationTask.replicationTaskIdentifier := identifier;
     ReplicationTask.sourceEndpointArn :=
       "arn:aws:dms:eu-west-1:123456789012:endpoint:source";
     ReplicationTask.tableMappings := "{}";
     ReplicationTask.targetEndpointArn :=
       "arn:aws:dms:eu-west-1:123456789012:endpoint:target" |}.








Definition sample_parameter_group_import
  : ParameterGroup.ParameterGroupImportProps :=
  {| ParameterGroup.import_parameterGroupName := "default.aurora5.6" |}.

Definition sample_cluster_import : Cluster.DatabaseClusterImportProps :=
  {| Cluster.import_port := "3306";
     Cluster.import_securityGroupId := "sg-0123";
     Cluster.import_clusterIdentifier := "cluster-1";
     Cluster.import_instanceIdentifiers := ["cluster-1-instance1"];
     Cluster.import_clusterEndpointAddress := "cluster.example.internal";
     Cluster.import_readerEndpointAddress := "reader.example.internal";
     Cluster.import_instanceEndpointAddresses := ["i1.example.internal"] |}.

(** [setParameter] applied to the entries of a props object, in order. *)
Definition set_all (l : list (string * option string))
  (g : ParameterGroup.ParameterGroup) : ParameterGroup.ParameterGroup :=
  fold_left (fun g kv => ParameterGroup.setParameter (fst kv) (snd kv) g) l g.

(** No node of the tree lies at or below the path [p]. *)
Definition fresh_under (t : Core.Tree) (p : Core.Path) : Prop :=
  forall q, Core.has_node t (p ++ q) = false.

(** The condition under which the instance generates a master secret. *)
Definition wants_secret {V : Type} (props : Instance.DatabaseInstanceProps V)
  : bool :=
  Core.truthy_bool (Instance.generateMasterUserPassword V props)
  || (negb (Core.truthy_string (Instance.masterUserPassword V props))
      && (negb (Core.truthy_string (Instance.snapshotIdentifier V props))
          || negb (Core.defined (Instance.sourceDatabaseInstance V props)))).

(** The nodes a database instance at [this] attaches to the tree. *)
Definition instance_children {V : Type}
  (props : Instance.DatabaseInstanceProps V) (this : Core.Path)
  : list (Core.Path * Core.NodeKind) :=
  [(this, Core.KConstruct);
   (this ++ ["SubnetGroup"], Core.KResource "AWS::RDS::DBSubnetGroup");
   (this ++ ["SecurityGroup"], Core.KConstruct)]
  ++ (if wants_secret props
      then [(this ++ ["Secret"], Core.KConstruct);
            (this ++ ["Secret"; "Resource"], Core.KConstruct)]
      else [])
  ++ (if Core.truthy_number (Instance.monitoringInterval V props)
      then [(this ++ ["MonitoringRole"], Core.KConstruct)]
      else [])
  ++ [(this ++ ["Resource"], Core.KResource "AWS::RDS::DBInstance")]
  ++ (if wants_secret props
      then [(this ++ ["SecretAttachement"],
              Core.KResource "AWS::SecretsManager::SecretTargetAttachment")]
      else []).

(** Some property of [processorFeatures] holds [undefined]. *)
Definition undefined_feature {V : Type}
  (props : Instance.DatabaseInstanceProps V) : bool :=
  match Instance.processorFeatures V props with
  | Some features => existsb (fun e => negb (Core.defined (snd e))) features
  | None => false
  end.

(** The nodes a database instance at [this] has attached when the props
    of its Cfn resource are evaluated. *)
Definition instance_early_children {V : Type}
  (props : Instance.DatabaseInstanceProps V) (this : Core.Path)
  : list (Core.Path * Core.NodeKind) :=
  [(this, Core.KConstruct);
   (this ++ ["SubnetGroup"], Core.KResource "AWS::RDS::DBSubnetGroup");
   (this ++ ["SecurityGroup"], Core.KConstruct)]
  ++ (if wants_secret props
      then [(this ++ ["Secret"], Core.KConstruct);
            (this ++ ["Secret"; "Resource"], Core.KConstruct)]
      else [])
  ++ (if Core.truthy_number (Instance.monitoringInterval V props)
      then [(this ++ ["MonitoringRole"], Core.KConstruct)]
      else []).

(** The props with [processorFeatures] set. *)
Definition with_processorFeatures {V : Type}
  (features : Instance.ProcessorFeatures)
  (props : Instance.DatabaseInstanceProps V)
  : Instance.DatabaseInstanceProps V :=
  {| Instance.engine := Instance.engine V props;
     Instance.multiAz := Instance.multiAz V props;
     Instance.storageType := Instance.storageType V props;
     Instance.allocatedStorage := Instance.allocatedStorage V props;
     Instance.iops := Instance.iops V props;
     Instance.masterUsername := Instance.masterUsername V props;
     Instance.masterUserPassword := Instance.masterUserPassword V props;
     Instance.generateMasterUserPassword :=
       Instance.generateMasterUserPassword V props;
     Instance.vpc := Instance.vpc V props;
     Instance.vpcPlacement := Instance.vpcPlacement V props;
     Instance.databaseName := Instance.databaseName V props;
     Instance.db_port := Instance.db_port V props;
     Instance.optionGroup := Instance.optionGroup V props;
     Instance.characterSetName := Instance.characterSetName V props;
     Instance.backupRetentionPeriod := Instance.backupRetentionPeriod V props;
     Instance.preferredBackupWindow := Instance.preferredBackupWindow V props;
     Instance.preferredMaintenanceWindow :=
       Instance.preferredMaintenanceWindow V props;
     Instance.monitoringInterval := Instance.monitoringInterval V props;
     Instance.deletionProtection := Instance.deletionProtection V props;
     Instance.snapshotIdentifier := Instance.snapshotIdentifier V props;
     Instance.databaseCluster := Instance.databaseCluster V props;
     Instance.sourceDatabaseInstance :=
       Instance.sourceDatabaseInstance V props;
     Instance.processorFeatures := Some features |}.

(** The guard on availability zones. *)
Definition too_few_zones {V : Type} (props : Instance.DatabaseInstanceProps V)
  : bool :=
  default true (Instance.multiAz V props)
  && (size (list_to_set
              (map Instance.availabilityZone
                 (Instance.vpc_subnets V (Instance.vpc V props)
                    (Instance.vpcPlacement V props))) : gset string) <? 2).

(** Sample props of a standalone instance. *)
Definition single_zone_vpc : Instance.IVpcNetwork unit :=
  {| Instance.vpc_subnets := fun _ =>
       [ {| Instance.subnetId := "subnet-a";
            Instance.availabilityZone := "eu-west-1a" |};
         {| Instance.subnetId := "subnet-b";
            Instance.availabilityZone := "eu-west-1a" |} ] |}.

Definition sample_standalone_props (v : Instance.IVpcNetwork unit)
  (password : option string) : Instance.DatabaseInstanceProps unit :=
  {| Instance.engine := Instance.Mysql;
     Instance.multiAz := None;
     Instance.storageType := None;
     Instance.allocatedStorage := None;
     Instance.iops := None;
     Instance.masterUsername := Some "admin";
     Instance.masterUserPassword := password;
     Instance.generateMasterUserPassword := None;
     Instance.vpc := v;
     Instance.vpcPlacement := None;
     Instance.databaseName := None;
     Instance.db_port := None;
     Instance.optionGroup := None;
     Instance.characterSetName := None;
     Instance.backupRetentionPeriod := None;
     Instance.preferredBackupWindow := None;
     Instance.preferredMaintenanceWindow := None;
     Instance.monitoringInterval := None;
     Instance.deletionProtection := None;
     Instance.snapshotIdentifier := None;
     Instance.databaseCluster := None;
     Instance.sourceDatabaseInstance := None;
     Instance.processorFeatures := None |}.

(** The nodes a database cluster at [this] attaches before it checks the
    number of instances. *)
Definition cluster_children {V : Type}
  (props : DatabaseCluster.DatabaseClusterProps V) (this : Core.Path)
  : list (Core.Path * Core.NodeKind) :=
  [(this, Core.KConstruct);
   (this ++ ["Subnets"], Core.KResource "AWS::RDS::DBSubnetGroup")]
  ++ (match DatabaseCluster.securityGroup V
              (DatabaseCluster.instanceProps V props) with
      | Some _ => []
      | None => [(this ++ ["SecurityGroup"], Core.KConstruct)]
      end)
  ++ (if Core.truthy_string
           (DatabaseCluster.password (DatabaseCluster.masterUser V props))
      then []
      else [(this ++ ["Secret"], Core.KConstruct);
            (this ++ ["Secret"; "Resource"], Core.KConstruct)])
  ++ [(this ++ ["Resource"], Core.KResource "AWS::RDS::DBCluster")].

(** The instance numbered [k] of a cluster at [this]. *)
Definition cluster_instance {V : Type}
  (props : DatabaseCluster.DatabaseClusterProps V) (this : Core.Path)
  (k : nat) : DatabaseCluster.ClusterInstance :=
  {| DatabaseCluster.instance_path := this ++ ["Instance" +:+ pretty k];
     DatabaseCluster.dbInstanceIdentifier :=
       DatabaseCluster.instanceIdentifier_for V props k |}.

Definition instance_node (this : Core.Path) (k : nat)
  : Core.Path * Core.NodeKind :=
  (this ++ ["Instance" +:+ pretty k], Core.KResource "AWS::RDS::DBInstance").

Definition cluster_subnets {V : Type}
  (props : DatabaseCluster.DatabaseClusterProps V) : list Instance.Subnet :=
  Instance.vpc_subnets V
    (DatabaseCluster.vpc V (DatabaseCluster.instanceProps V props))
    (DatabaseCluster.vpcPlacement V (DatabaseCluster.instanceProps V props)).

Definition one_subnet_vpc : Instance.IVpcNetwork unit :=
  {| Instance.vpc_subnets := fun _ =>
       [ {| Instance.subnetId := "subnet-a";
            Instance.availabilityZone := "eu-west-1a" |} ] |}.

Definition sample_cluster_props (v : Instance.IVpcNetwork unit)
  (n : option Z) (password : option string)
  : DatabaseCluster.DatabaseClusterProps unit :=
  {| DatabaseCluster.engine := "aurora";
     DatabaseCluster.instances := n;
     DatabaseCluster.instanceProps :=
       {| DatabaseCluster.instanceType := "t2.small";
          DatabaseCluster.vpc := v;
          DatabaseCluster.vpcPlacement := None;
          DatabaseCluster.securityGroup := None |};
     DatabaseCluster.masterUser :=
       {| DatabaseCluster.username := "admin";
          DatabaseCluster.password := password |};
     DatabaseCluster.clusterIdentifier := Some "db";
     DatabaseCluster.instanceIdentifierBase := None |}.

(** The attachment of the generated secret, the last child of a cluster. *)
Definition cluster_attachment {V : Type}
  (props : DatabaseCluster.DatabaseClusterProps V) (this : Core.Path)
  : list (Core.Path * Core.NodeKind) :=
  if Core.truthy_string
       (DatabaseCluster.password (DatabaseCluster.masterUser V props))
  then []
  else [(this ++ ["SecretAttachement"],
          Core.KResource "AWS::SecretsManager::SecretTargetAttachment")].

(** The number of instances a cluster asks for. *)
Definition cluster_instance_count {V : Type}
  (props : DatabaseCluster.DatabaseClusterProps V) : Z :=
  default 2%Z (DatabaseCluster.instances V props).

(** The length rule of an identifier: non-empty, and at most [maxlen]
    characters when a bound is given. *)
Definition length_ok (maxlen : option nat) (n : nat) : bool :=
  (1 <=? n) && match maxlen with Some m => n <=? m | None => true end.

(** The rule the DMS identifier expressions encode, checked character by
    character: letters, digits and hyphens only, a first character outside
    [bad_first], no trailing hyphen, no two consecutive hyphens. *)
Definition identifier_check (bad_first : ascii -> bool) (maxlen : option nat)
  (str : string) : bool :=
  let s := list_ascii_of_string str in
  length_ok maxlen (length s)
  && forallb ident_char s
  && match head s with
     | Some c => negb (bad_first c)
     | None => true
     end
  && match last s with
     | Some c => negb (ReplicationTask.is_hyphen c)
     | None => true
     end
  && ReplicationTask.no_double_hyphen s.

(** Identifiers of certificates and of replication instances. *)
Definition certificate_identifier_ok : string -> bool :=
  identifier_check ReplicationTask.is_hyphen None.

Definition instance_identifier_ok : string -> bool :=
  identifier_check
    (fun c => ReplicationTask.is_hyphen c || ReplicationTask.is_digit c)
    (Some 63).

(** The nodes a replication instance at [this] attaches to the tree. *)
Definition replication_instance_children {S : Type}
  (props : ReplicationInstance.ReplicationInstanceProps S) (this : Core.Path)
  : list (Core.Path * Core.NodeKind) :=
  [(this, Core.KConstruct)]
  ++ (match ReplicationInstance.subnetGroup S props with
      | Some _ => []
      | None =>
          [(this ++ ["SubnetGroup"], Core.KConstruct);
           (this ++ ["SubnetGroup"; "Resource"],
             Core.KResource "AWS::DMS::ReplicationSubnetGroup")]
      end)
  ++ (match ReplicationInstance.securityGroups S props with
      | Some _ => []
      | None => [(this ++ ["SecurityGroup"], Core.KConstruct)]
      end)
  ++ [(this ++ ["Resource"], Core.KResource "AWS::DMS::ReplicationInstance")].

Definition sample_replication_instance_props (multiAz : option bool)
  (zone identifier : option string) (group : option string)
  : ReplicationInstance.ReplicationInstanceProps unit :=
  {| ReplicationInstance.availabilityZone := zone;
     ReplicationInstance.mutliAz := multiAz;
     ReplicationInstance.publiclyAccessible := None;
     ReplicationInstance.instanceIdentifier := identifier;
     ReplicationInstance.vpc :=
       {| ClientVpnEndpoint.vpcId := "vpc-1";
          ClientVpnEndpoint.vpcCidrBlock := "10.0.0.0/16";
          ClientVpnEndpoint.selectSubnets := fun _ => ["subnet-a"; "subnet-b"] |};
     ReplicationInstance.vpcSubnets := None;
     ReplicationInstance.subnetGroup := group;
     ReplicationInstance.securityGroups := None |}.

(** The outcome of the CIDR check of the client VPN endpoint: the error it
    raises, if any. *)
Definition cidr_check {C S : Type} (isUnresolved : string -> bool)
  (CidrBlock_new : string -> Core.Error + C) (containsCidr : C -> C -> bool)
  (props : ClientVpnEndpoint.ClientVpnEndpointProps S) : option Core.Error :=
  if isUnresolved
       (ClientVpnEndpoint.vpcCidrBlock S (ClientVpnEndpoint.vpc S props))
  then None
  else match CidrBlock_new (ClientVpnEndpoint.cidr S props) with
       | inl e => Some e
       | inr c =>
           match CidrBlock_new
                   (ClientVpnEndpoint.vpcCidrBlock S
                      (ClientVpnEndpoint.vpc S props)) with
           | inl e => Some e
           | inr v =>
               if containsCidr v c
               then Some (Core.Thrown ClientVpnEndpoint.overlap_msg)
               else None
           end
       end.

Definition too_many_dns {S : Type}
  (props : ClientVpnEndpoint.ClientVpnEndpointProps S) : bool :=
  match ClientVpnEndpoint.dnsServers S props with
  | Some l => 2 <? length l
  | None => false
  end.

Definition logging_conflict {S : Type}
  (props : ClientVpnEndpoint.ClientVpnEndpointProps S) : bool :=
  bool_decide (ClientVpnEndpoint.logging S props = Some false)
  && (Core.defined (ClientVpnEndpoint.logGroup S props)
      || Core.defined (ClientVpnEndpoint.logStream S props)).

(** The nodes a client VPN endpoint at [this] attaches before it renders
    the authentication options. *)
Definition vpn_early_children {S : Type}
  (props : ClientVpnEndpoint.ClientVpnEndpointProps S) (this : Core.Path)
  : list (Core.Path * Core.NodeKind) :=
  [(this, Core.KConstruct)]
  ++ (if default true (ClientVpnEndpoint.logging S props)
      then match ClientVpnEndpoint.logGroup S props with
           | Some _ => []
           | None => [(this ++ ["LogGroup"], Core.KConstruct)]
           end
      else [])
  ++ (match ClientVpnEndpoint.securityGroups S props with
      | Some _ => []
      | None => [(this ++ ["SecurityGroup"], Core.KConstruct)]
      end).

Definition wants_portal {S : Type}
  (props : ClientVpnEndpoint.ClientVpnEndpointProps S) : bool :=
  Core.defined (ClientVpnEndpoint.userBasedAuthentication S props)
  && default true (ClientVpnEndpoint.selfServicePortal S props).

Definition association_path (this : Core.Path) (k : nat) : Core.Path :=
  this ++ ["Association" +:+ pretty k].

Definition association_node (this : Core.Path) (k : nat)
  : Core.Path * Core.NodeKind :=
  (association_path this k,
   Core.KResource "AWS::EC2::ClientVpnTargetNetworkAssociation").

Definition vpn_subnets {S : Type}
  (props : ClientVpnEndpoint.ClientVpnEndpointProps S) : list string :=
  ClientVpnEndpoint.selectSubnets S (ClientVpnEndpoint.vpc S props)
    (ClientVpnEndpoint.vpcSubnets S props).

(** The nodes attached up to the endpoint resource and the portal output. *)
Definition vpn_before_associations {S : Type}
  (cfnToken : Core.Path -> string -> string)
  (props : ClientVpnEndpoint.ClientVpnEndpointProps S) (this : Core.Path)
  : list (Core.Path * Core.NodeKind) :=
  vpn_early_children props this
  ++ [(this ++ ["Resource"], Core.KResource "AWS::EC2::ClientVpnEndpoint")]
  ++ (if wants_portal props
      then [(this ++ ["SelfServicePortalUrl"],
              Core.KOutput
                ("https://self-service.clientvpn.amazonaws.com/endpoints/"
                 +:+ cfnToken (this ++ ["Resource"]) "Ref"))]
      else []).

(** All the nodes of a client VPN endpoint at [this]. *)
Definition vpn_children {S : Type}
  (cfnToken : Core.Path -> string -> string)
  (props : ClientVpnEndpoint.ClientVpnEndpointProps S) (this : Core.Path)
  : list (Core.Path * Core.NodeKind) :=
  vpn_before_associations cfnToken props this
  ++ map (association_node this) (seq 0 (length (vpn_subnets props)))
  ++ (if default true (ClientVpnEndpoint.authorizeAllUsersToVpcCidr S props)
      then [(this ++ ["AuthorizeAll"], Core.KConstruct)]
      else []).

(** The text a repeated [+= 1] appends. *)
Fixpoint ones (n : nat) : string :=
  match n with
  | 0 => ""
  | S n' => ones n' +:+ "1"
  end.

(** [String(Object.prototype[name])] of a sample name. *)
Definition sample_inherited_text (name : string) : string :=
  "function " +:+ name +:+ "() { [native code] }".

(** The candidate [findPkgPath] derives from one entry of [module.paths]. *)
Definition candidate (path : string) : string :=
  NodejsUtil.replace NodejsUtil.node_modules_regex "package.json" path.

(** [props.instance || props.cluster] of the rotation construct. *)
Definition rotation_target {V : Type} (props : Rotation.RotationSingleUserProps V)
  : option Rotation.Target :=
  match Rotation.instance V props with
  | Some i => Some (Rotation.TargetInstance i)
  | None => option_map Rotation.TargetCluster (Rotation.cluster V props)
  end.

(** The rotation application: the one given, else the one of the engine. *)
Definition rotation_location {V : Type}
  (props : Rotation.RotationSingleUserProps V) (target : Rotation.Target)
  : Core.Error + Rotation.ServerlessApplicationLocation :=
  match Rotation.serverlessApplicationLocation V props with
  | Some l => inr l
  | None => Rotation.getApplicationLocation (Rotation.target_engine target)
  end.

Definition sample_rotation_props (i : option Instance.DatabaseInstance)
  (days : option Z) : Rotation.RotationSingleUserProps unit :=
  {| Rotation.automaticallyAfterDays := days;
     Rotation.serverlessApplicationLocation := None;
     Rotation.instance := i;
     Rotation.cluster := None;
     Rotation.vpc := sample_vpc;
     Rotation.vpcPlacement := None |}.

(** A sample instance that owns a generated secret. *)
Definition sample_instance_with_secret : Instance.DatabaseInstance :=
  {| Instance.node := ["Stack"; "Database"];
     Instance.instanceIdentifier := "${Token[Stack/Database/Resource.Ref]}";
     Instance.instanceEndpoint :=
       {| Instance.hostname := "db.example.internal";
          Instance.port := "3306" |};
     Instance.securityGroupId := "sg-0123";
     Instance.connections :=
       {| Instance.securityGroups := [["Stack"; "Database"; "SecurityGroup"]];
          Instance.defaultPortRange := "3306" |};
     Instance.instance_engine := Instance.Postgres;
     Instance.secret := Some "arn:aws:secretsmanager:eu-west-1:1:secret:db";
     Instance.monitoringRole := None |}.

(** * Properties *)

(** ** Parameter groups *)
Section ParameterGroupFacts.
Import Core ParameterGroup.

Lemma setParameter_parameters_some key v this :
  parameters (setParameter key (Some v) this)
  = assign key v (parameters this).
Proof. reflexivity. Qed.

Lemma setParameter_parameters_none key this :
  parameters (setParameter key None this) = delete key (parameters this).
Proof.
  unfold setParameter, has_key; simpl.
  case_bool_decide as Hk; [reflexivity|].
  symmetry. apply delete_id.
  destruct (parameters this !! key) eqn:E; [|reflexivity].
  exfalso. apply Hk. eauto.
Qed.

Lemma assign_ordinary key v (ps : Parameters) :
  key ≠ "__proto__" -> assign key v ps = <[key := v]> ps.
Proof.
  intros Hne. unfold assign.
  destruct (String.eqb_spec key "__proto__"); [contradiction|reflexivity].
Qed.

Lemma keys_length_zero (ps : Parameters) :
  length (map fst (map_to_list ps)) = 0 <-> ps = ∅.
Proof.
  rewrite length_map. split.
  - intros H. apply map_to_list_empty_iff. now apply nil_length_inv.
  - intros ->. now rewrite map_to_list_empty.
Qed.

Lemma reads_current_parameters_closure :
  reads_current_parameters (fun this => parameters this).
Proof.
  intros this. unfold Token_resolve. split; [reflexivity|]. split.
  - intros k v Hk. rewrite setParameter_parameters_some.
    now apply assign_ordinary.
  - intros k. unfold removeParameter. apply setParameter_parameters_none.
Qed.

Lemma ParameterGroup_new_inv scope id props t base t' :
  ParameterGroup_new scope id props t = (inr base, t') ->
  has_node t (scope ++ [id]) = false
  /\ node base = scope ++ [id]
  /\ t' = t ++ [(scope ++ [id], KConstruct)].
Proof.
  unfold ParameterGroup_new, Construct_new, addChild, mbind, M_bind, mret,
    M_ret.
  destruct (has_node t (scope ++ [id])) eqn:E; [discriminate|].
  intros H. injection H as Hb Ht. subst t'. split; [reflexivity|].
  split; [|reflexivity]. subst base.
  generalize (default [] (props_parameters props)).
  set (d := if truthy_string _ then _ else _). clearbody d.
  set (g0 := {| node := scope ++ [id]; description := d;
                parameters := ∅ |}).
  assert (Hg : node g0 = scope ++ [id]) by reflexivity.
  clearbody g0. intros l. revert g0 Hg.
  induction l as [|kv l IH]; intros g0 Hg; simpl; [exact Hg|].
  apply IH. exact Hg.
Qed.
End ParameterGroupFacts.

(** C3: [ParameterGroup.validate()] is total: it returns the one-element
    list with the message asking for a parameter when the group's
    parameters map is empty, and the empty list as soon as the map binds
    some key. *)
Theorem validate_empty_or_silent (this : ParameterGroup.ParameterGroup) :
  (ParameterGroup.parameters this = ∅ ->
   ParameterGroup.validate this
   = ["At least one parameter required, call setParameter()."])
  /\ (forall k v, ParameterGroup.parameters this !! k = Some v ->
      ParameterGroup.validate this = []).
Proof.
  unfold ParameterGroup.validate. split.
  - intros He. apply keys_length_zero in He. now rewrite He.
  - intros k v Hk.
    destruct (length _) eqn:E; [|reflexivity].
    apply keys_length_zero in E. rewrite E in Hk.
    now rewrite lookup_empty in Hk.
Qed.

Lemma validate_empty_or_silent_witness :
  ParameterGroup.validate sample_group
  = ["At least one parameter required, call setParameter()."]
  /\ ParameterGroup.validate
       (ParameterGroup.setParameter "max_connections" (Some "100") sample_group)
     = [].
Proof.
  split.
  - apply (proj1 (validate_empty_or_silent sample_group)). reflexivity.
  - apply (proj2 (validate_empty_or_silent _) "max_connections" "100").
    apply lookup_insert_eq.
Defined.

(** C1 (amended): the lazy [parameters] token of a [ClusterParameterGroup]
    or [InstanceParameterGroup] resolves to the owning group's parameters
    map as it stands when the token is resolved.  After [setParameter(k, v)]
    with a defined [v] it resolves to the earlier value with [k] bound to
    [v], after [removeParameter(k)] to the earlier value without [k]. *)
Theorem lazy_parameters_follow_group
  (cfnToken : Core.Path -> string -> string) (scope : Core.Path) (id : string)
  (props : ParameterGroup.ParameterGroupProps) (t : Core.Tree) :
  (forall cpg t',
     ParameterGroup.ClusterParameterGroup_new cfnToken scope id props t
     = (inr cpg, t') ->
     reads_current_parameters (ParameterGroup.cpg_parameters cpg))
  /\ (forall ipg t',
     ParameterGroup.InstanceParameterGroup_new cfnToken scope id props t
     = (inr ipg, t') ->
     reads_current_parameters (ParameterGroup.ipg_parameters ipg)).
Proof.
  split; intros g t';
    unfold ParameterGroup.ClusterParameterGroup_new,
      ParameterGroup.InstanceParameterGroup_new, mbind, Core.M_bind;
    destruct (ParameterGroup.ParameterGroup_new scope id props t)
      as [[e|base] t1]; try discriminate;
    unfold Core.CfnResource_new, Core.addChild;
    destruct (Core.has_node t1 _); try discriminate;
    intros H; injection H as Hg _; subst g; simpl;
    apply reads_current_parameters_closure.
Qed.

Lemma lazy_parameters_follow_group_witness :
  match ParameterGroup.ClusterParameterGroup_new sample_cfnToken
          ["Stack"] "Params" sample_group_props [] with
  | (inr cpg, _) =>
      reads_current_parameters (ParameterGroup.cpg_parameters cpg)
  | (inl _, _) => False
  end.
Proof.
  destruct (ParameterGroup.ClusterParameterGroup_new sample_cfnToken
              ["Stack"] "Params" sample_group_props []) as [[e|cpg] t'] eqn:E.
  - vm_compute in E. discriminate E.
  - exact (proj1 (lazy_parameters_follow_group sample_cfnToken ["Stack"]
                    "Params" sample_group_props []) cpg t' E).
Defined.

(** C1, as stated, fails: two resolutions of the lazy [parameters] token
    separated by a [setParameter] call yield different values. *)
Lemma lazy_parameters_differ_across_setParameter :
  match ParameterGroup.ClusterParameterGroup_new sample_cfnToken
          ["Stack"] "Params" sample_group_props [] with
  | (inr cpg, _) =>
      let tok := ParameterGroup.cpg_parameters cpg in
      let this := ParameterGroup.cpg_base cpg in
      ParameterGroup.Token_resolve tok this
      ≠ ParameterGroup.Token_resolve tok
          (ParameterGroup.setParameter "autocommit" (Some "1") this)
  | (inl _, _) => False
  end.
Proof.
  cbn. unfold ParameterGroup.Token_resolve. cbn.
  intros H.
  apply (f_equal (fun m : gmap string string => m !! "autocommit")) in H.
  vm_compute in H. discriminate H.
Qed.

(** ** The construct tree *)
Section TreeFacts.
Import Core.

Lemma has_node_snoc t p k q :
  has_node (t ++ [(p, k)]) q = has_node t q || path_eqb p q.
Proof.
  unfold has_node. rewrite existsb_app. simpl. now rewrite orb_false_r.
Qed.




Lemma outputs_snoc t p k :
  outputs (t ++ [(p, k)])
  = outputs t ++ match k with KOutput v => [(p, v)] | _ => [] end.
Proof.
  unfold outputs. rewrite flat_map_app. simpl.
  destruct k; now rewrite ?app_nil_r.
Qed.

Lemma addChild_ok parent id k t :
  has_node t (parent ++ [id]) = false ->
  addChild parent id k t = (inr (parent ++ [id]), t ++ [(parent ++ [id], k)]).
Proof. unfold addChild. now intros ->. Qed.


Lemma addChild_inv parent id k t p t' :
  addChild parent id k t = (inr p, t') ->
  has_node t (parent ++ [id]) = false
  /\ p = parent ++ [id] /\ t' = t ++ [(parent ++ [id], k)].
Proof.
  unfold addChild. destruct (has_node t _); [discriminate|].
  intros H. injection H as <- <-. auto.
Qed.

Lemma bind_inv {A B} (m : M A) (f : A -> M B) t b t' :
  (m ≫= f) t = (inr b, t') ->
  exists a t1, m t = (inr a, t1) /\ f a t1 = (inr b, t').
Proof.
  unfold mbind, M_bind. destruct (m t) as [[e|a] t1]; [discriminate|].
  eauto.
Qed.



(** Combinators for [never_throws]. *)
Lemma never_ret {A} e (a : A) : never_throws e (mret a).
Proof. intros t. discriminate. Qed.

Lemma never_bind {A B} e (m : M A) (f : A -> M B) :
  never_throws e m -> (forall a, never_throws e (f a)) ->
  never_throws e (m ≫= f).
Proof.
  intros Hm Hf t. unfold mbind, M_bind.
  specialize (Hm t). destruct (m t) as [[e'|a] t1]; simpl in *.
  - intros [= ->]. now apply Hm.
  - apply Hf.
Qed.

Lemma never_throw {A} e e' : e' ≠ e -> never_throws e (@throw A e').
Proof. intros Hne t. simpl. congruence. Qed.

Lemma never_addChild msg parent id k :
  never_throws (Thrown msg) (addChild parent id k).
Proof.
  intros t. unfold addChild. destruct (has_node t _); discriminate.
Qed.

Lemma never_lift {A} e (r : Error + A) :
  r ≠ inl e -> never_throws e (lift r).
Proof. intros Hne t. exact Hne. Qed.
End TreeFacts.

Lemma bind_ok {A B} (m : Core.M A) (f : A -> Core.M B) t a t1 :
  m t = (inr a, t1) -> (m ≫= f) t = f a t1.
Proof. unfold mbind, Core.M_bind. now intros ->. Qed.

Lemma bind_err {A B} (m : Core.M A) (f : A -> Core.M B) t e t1 :
  m t = (inl e, t1) -> (m ≫= f) t = (inl e, t1).
Proof. unfold mbind, Core.M_bind. now intros ->. Qed.

Lemma Construct_new_ok scope id t :
  Core.has_node t (scope ++ [id]) = false ->
  Core.Construct_new scope id t
  = (inr (scope ++ [id]), t ++ [(scope ++ [id], Core.KConstruct)]).
Proof. apply addChild_ok. Qed.

Lemma CfnResource_new_ok scope id ty t :
  Core.has_node t (scope ++ [id]) = false ->
  Core.CfnResource_new scope id ty t
  = (inr (scope ++ [id]), t ++ [(scope ++ [id], Core.KResource ty)]).
Proof. apply addChild_ok. Qed.

Lemma CfnOutput_new_ok scope id v t :
  Core.has_node t (scope ++ [id]) = false ->
  Core.CfnOutput_new scope id v t
  = (inr {| Core.output_path := scope ++ [id]; Core.output_value := v |},
     t ++ [(scope ++ [id], Core.KOutput v)]).
Proof.
  intros H. unfold Core.CfnOutput_new.
  now rewrite (bind_ok _ _ _ _ _ (addChild_ok _ _ _ _ H)).
Qed.

(** ** Fresh paths *)
Section FreshFacts.
Import Core.

Lemma has_node_app t l p : has_node (t ++ l) p = has_node t p || has_node l p.
Proof. unfold has_node. apply existsb_app. Qed.

Lemma path_eqb_app p l1 l2 : path_eqb (p ++ l1) (p ++ l2) = path_eqb l1 l2.
Proof.
  unfold path_eqb. destruct (decide (l1 = l2)) as [->|Hne].
  - now rewrite !bool_decide_eq_true_2.
  - rewrite !bool_decide_eq_false_2; [reflexivity|exact Hne|].
    intros H. now apply app_inv_head in H.
Qed.

Lemma path_eqb_self_app p l : path_eqb p (p ++ l) = path_eqb [] l.
Proof.
  rewrite <- (app_nil_r p) at 1. apply path_eqb_app.
Qed.

Lemma has_node_cons n t p :
  has_node (n :: t) p = path_eqb (fst n) p || has_node t p.
Proof. reflexivity. Qed.

Lemma fresh_under_app_false t p l q :
  fresh_under t p -> has_node l (p ++ q) = false ->
  has_node (t ++ l) (p ++ q) = false.
Proof. intros Hf Hl. now rewrite has_node_app, Hf, Hl. Qed.

Lemma fresh_under_nil p : fresh_under [] p.
Proof. intros q. reflexivity. Qed.

Lemma fresh_under_self t p : fresh_under t p -> has_node t p = false.
Proof. intros H. specialize (H []). now rewrite app_nil_r in H. Qed.
End FreshFacts.

(** Normalises the tree and the path of a node test and decides it. *)
Ltac fresh_node Hf :=
  repeat rewrite <- app_assoc; simpl app;
  repeat rewrite has_node_app;
  repeat rewrite has_node_cons; simpl fst;
  repeat rewrite Hf;
  repeat rewrite path_eqb_app;
  repeat rewrite path_eqb_self_app;
  reflexivity.

Section ImportFacts.
Import Core.

Lemma child_fresh_after_parent t this k child :
  fresh_under t this ->
  has_node (t ++ [(this, k)]) (this ++ [child]) = false.
Proof.
  intros Hf. rewrite has_node_snoc, Hf, path_eqb_self_app. reflexivity.
Qed.

Lemma ImportedParameterGroup_new_ok scope id P t :
  has_node t (scope ++ [id]) = false ->
  ParameterGroup.ImportedParameterGroup_new scope id P t
  = (inr {| ParameterGroup.imported_node := scope ++ [id];
            ParameterGroup.imported_props := P;
            ParameterGroup.parameterGroupName :=
              ParameterGroup.import_parameterGroupName P |},
     t ++ [(scope ++ [id], KConstruct)]).
Proof.
  intros H. unfold ParameterGroup.ImportedParameterGroup_new.
  now rewrite (bind_ok _ _ _ _ _ (Construct_new_ok _ _ _ H)).
Qed.

Lemma ImportedDatabaseInstance_new_ok scope id P t :
  fresh_under t (scope ++ [id]) ->
  exists obj,
    Instance.ImportedDatabaseInstance_new scope id P t
    = (inr obj, t ++ [(scope ++ [id], KConstruct);
                      (scope ++ [id; "SecurityGroup"], KConstruct)])
    /\ Instance.imported_props obj = P.
Proof.
  intros Hf. unfold Instance.ImportedDatabaseInstance_new.
  rewrite (bind_ok _ _ _ _ _
             (Construct_new_ok _ _ _ (fresh_under_self _ _ Hf))).
  rewrite (bind_ok _ _ _ _ _
             (Construct_new_ok _ _ _ (child_fresh_after_parent _ _ _ _ Hf))).
  eexists.
  split; [cbn [mret M_ret]; rewrite <- !app_assoc; reflexivity|reflexivity].
Qed.

Lemma ImportedDatabaseCluster_new_ok scope name P t :
  fresh_under t (scope ++ [name]) ->
  exists obj,
    Cluster.ImportedDatabaseCluster_new scope name P t
    = (inr obj, t ++ [(scope ++ [name], KConstruct);
                      (scope ++ [name; "SecurityGroup"], KConstruct)])
    /\ Cluster.imported_props obj = P.
Proof.
  intros Hf. unfold Cluster.ImportedDatabaseCluster_new.
  rewrite (bind_ok _ _ _ _ _
             (Construct_new_ok _ _ _ (fresh_under_self _ _ Hf))).
  rewrite (bind_ok _ _ _ _ _
             (Construct_new_ok _ _ _ (child_fresh_after_parent _ _ _ _ Hf))).
  eexists.
  split; [cbn [mret M_ret]; rewrite <- !app_assoc; reflexivity|reflexivity].
Qed.

Lemma outputs_constructs t l :
  Forall (fun n => snd n = KConstruct) l -> outputs (t ++ l) = outputs t.
Proof.
  intros H. unfold outputs. rewrite flat_map_app.
  induction H as [|[p k] l Hk _ IH]; [apply app_nil_r|].
  simpl in Hk. subst k. exact IH.
Qed.
End ImportFacts.

(** C9: import followed by export is the identity on the import props.
    In a scope where its id is free (with nothing below it), an
    [ImportedParameterGroup], [ImportedDatabaseInstance] or
    [ImportedDatabaseCluster] is constructed from any props [P]; its
    [export()] then returns exactly [P] and leaves the tree as it is, and
    the construction declares no output.  The same holds whenever one of
    the constructors returns. *)
Theorem import_export_identity :
  (forall scope id P t,
     Core.has_node t (scope ++ [id]) = false ->
     exists obj t',
       ParameterGroup.ImportedParameterGroup_new scope id P t = (inr obj, t')
       /\ ParameterGroup.ImportedParameterGroup_export obj t' = (inr P, t')
       /\ Core.outputs t' = Core.outputs t)
  /\ (forall scope id P t,
     fresh_under t (scope ++ [id]) ->
     exists obj t',
       Instance.ImportedDatabaseInstance_new scope id P t = (inr obj, t')
       /\ Instance.ImportedDatabaseInstance_export obj t' = (inr P, t')
       /\ Core.outputs t' = Core.outputs t)
  /\ (forall scope name P t,
     fresh_under t (scope ++ [name]) ->
     exists obj t',
       Cluster.ImportedDatabaseCluster_new scope name P t = (inr obj, t')
       /\ Cluster.ImportedDatabaseCluster_export obj t' = (inr P, t')
       /\ Core.outputs t' = Core.outputs t)
  /\ (forall scope id P t obj t',
     ParameterGroup.ImportedParameterGroup_new scope id P t = (inr obj, t') ->
     ParameterGroup.ImportedParameterGroup_export obj t' = (inr P, t')
     /\ Core.outputs t' = Core.outputs t)
  /\ (forall scope id P t obj t',
     Instance.ImportedDatabaseInstance_new scope id P t = (inr obj, t') ->
     Instance.ImportedDatabaseInstance_export obj t' = (inr P, t')
     /\ Core.outputs t' = Core.outputs t)
  /\ (forall scope name P t obj t',
     Cluster.ImportedDatabaseCluster_new scope name P t = (inr obj, t') ->
     Cluster.ImportedDatabaseCluster_export obj t' = (inr P, t')
     /\ Core.outputs t' = Core.outputs t).
Proof.
  split; [|split; [|split; [|split; [|split]]]].
  - intros scope id P t Hfresh. eexists _, _.
    split; [apply (ImportedParameterGroup_new_ok _ _ _ _ Hfresh)|].
    split; [reflexivity|].
    apply outputs_constructs. repeat constructor.
  - intros scope id P t Hf.
    destruct (ImportedDatabaseInstance_new_ok scope id P t Hf)
      as (obj & Hnew & HP).
    eexists obj, _. split; [exact Hnew|]. split.
    + unfold Instance.ImportedDatabaseInstance_export. now rewrite HP.
    + apply outputs_constructs. repeat constructor.
  - intros scope name P t Hf.
    destruct (ImportedDatabaseCluster_new_ok scope name P t Hf)
      as (obj & Hnew & HP).
    eexists obj, _. split; [exact Hnew|]. split.
    + unfold Cluster.ImportedDatabaseCluster_export. now rewrite HP.
    + apply outputs_constructs. repeat constructor.
  - intros scope id P t obj t' H.
    unfold ParameterGroup.ImportedParameterGroup_new in H.
    apply bind_inv in H as (p & t1 & H1 & H2).
    apply addChild_inv in H1 as (_ & -> & ->).
    injection H2 as <- <-. split; [reflexivity|].
    now rewrite outputs_snoc, app_nil_r.
  - intros scope id P t obj t' H.
    unfold Instance.ImportedDatabaseInstance_new in H.
    apply bind_inv in H as (p & t1 & H1 & H2).
    apply bind_inv in H2 as (q & t2 & H2 & H3).
    apply addChild_inv in H1 as (_ & -> & ->).
    apply addChild_inv in H2 as (_ & -> & ->).
    injection H3 as <- <-. split; [reflexivity|].
    now rewrite !outputs_snoc, !app_nil_r.
  - intros scope name P t obj t' H.
    unfold Cluster.ImportedDatabaseCluster_new in H.
    apply bind_inv in H as (p & t1 & H1 & H2).
    apply bind_inv in H2 as (q & t2 & H2 & H3).
    apply addChild_inv in H1 as (_ & -> & ->).
    apply addChild_inv in H2 as (_ & -> & ->).
    injection H3 as <- <-. split; [reflexivity|].
    now rewrite !outputs_snoc, !app_nil_r.
Qed.

Lemma import_export_identity_witness :
  (exists obj t',
     ParameterGroup.ImportedParameterGroup_new ["Stack2"] "Params"
       sample_parameter_group_import [] = (inr obj, t')
     /\ ParameterGroup.ImportedParameterGroup_export obj t'
        = (inr sample_parameter_group_import, t')
     /\ Core.outputs t' = [])
  /\ (exists obj t',
     Instance.ImportedDatabaseInstance_new ["Stack2"] "Database"
       sample_instance_import [] = (inr obj, t')
     /\ Instance.ImportedDatabaseInstance_export obj t'
        = (inr sample_instance_import, t')
     /\ Core.outputs t' = [])
  /\ (exists obj t',
     Cluster.ImportedDatabaseCluster_new ["Stack2"] "Cluster"
       sample_cluster_import [] = (inr obj, t')
     /\ Cluster.ImportedDatabaseCluster_export obj t'
        = (inr sample_cluster_import, t')
     /\ Core.outputs t' = []).
Proof.
  destruct import_export_identity as (H1 & H2 & H3 & _).
  split; [|split].
  - exact (H1 ["Stack2"] "Params" sample_parameter_group_import []
             eq_refl).
  - exact (H2 ["Stack2"] "Database" sample_instance_import []
             (fresh_under_nil _)).
  - exact (H3 ["Stack2"] "Cluster" sample_cluster_import []
             (fresh_under_nil _)).
Defined.

(** ** Export *)
Section ExportFacts.
Import Core.
Variable cfnToken : Path -> string -> string.





Context {VpcPlacementStrategy Connections : Type}.
Local Abbreviation CB :=
  (ClusterBase.ClusterBase VpcPlacementStrategy Connections).






End ExportFacts.

(** ** The reference tracker *)
Section TrackerFacts.
Import Tracker.
Variable unit_of : Core.Path -> string.





End TrackerFacts.




(** ** Database instances *)
Lemma aurora_engines (e : Instance.DatabaseInstanceEngine) :
  Regex.test Instance.aurora_regex (Instance.engine_value e)
  = match e with
    | Instance.Aurora | Instance.AuroraMysql | Instance.AuroraPostgresql => true
    | _ => false
    end.
Proof. destruct e; vm_compute; reflexivity. Qed.

Lemma cluster_messages_differ :
  Instance.cannot_specify_with_cluster_msg ≠ Instance.cannot_specify_cluster_msg.
Proof. discriminate. Qed.

(** C8: with [databaseCluster] defined (and the construct's id accepted by
    the base constructor), the [DatabaseInstance] constructor throws
    "Cannot specify `databaseCluster` when engine is not aurora." exactly
    when the engine string matches [/aurora/]. *)
Theorem databaseCluster_guard_iff_aurora
  (cfnToken : Core.Path -> string -> string) (V : Type)
  (scope : Core.Path) (id : string)
  (props : Instance.DatabaseInstanceProps V) (t : Core.Tree)
  (c : Instance.IDatabaseCluster) :
  Instance.databaseCluster V props = Some c ->
  Core.has_node t (scope ++ [id]) = false ->
  fst (Instance.DatabaseInstance_new cfnToken V scope id props t)
  = inl (Core.Thrown Instance.cannot_specify_cluster_msg)
  <-> Regex.test Instance.aurora_regex
        (Instance.engine_value (Instance.engine V props)) = true.
Proof.
  intros Hc Hfresh.
  unfold Instance.DatabaseInstance_new, Core.Construct_new, mbind, Core.M_bind.
  rewrite (addChild_ok _ _ _ _ Hfresh), Hc. cbn [Core.defined andb].
  destruct (Regex.test _ _).
  - split; reflexivity.
  - rewrite orb_true_r. cbn [Core.throw fst]. split; [|discriminate].
    intros H. exfalso. apply cluster_messages_differ. congruence.
Qed.

Lemma databaseCluster_guard_iff_aurora_witness :
  (fst (Instance.DatabaseInstance_new sample_cfnToken unit ["Stack"] "Db"
          (sample_instance_props Instance.AuroraMysql) [])
   = inl (Core.Thrown Instance.cannot_specify_cluster_msg)
   <-> Regex.test Instance.aurora_regex
         (Instance.engine_value Instance.AuroraMysql) = true)
  /\ (fst (Instance.DatabaseInstance_new sample_cfnToken unit ["Stack"] "Db"
          (sample_instance_props Instance.Postgres) [])
   = inl (Core.Thrown Instance.cannot_specify_cluster_msg)
   <-> Regex.test Instance.aurora_regex
         (Instance.engine_value Instance.Postgres) = true).
Proof.
  split.
  - apply (databaseCluster_guard_iff_aurora sample_cfnToken unit ["Stack"] "Db"
             (sample_instance_props Instance.AuroraMysql) []
             {| Instance.clusterIdentifier := "cluster-1" |});
      reflexivity.
  - apply (databaseCluster_guard_iff_aurora sample_cfnToken unit ["Stack"] "Db"
             (sample_instance_props Instance.Postgres) []
             {| Instance.clusterIdentifier := "cluster-1" |});
      reflexivity.
Defined.

(** ** The client VPN endpoint *)
Ltac never_step :=
  match goal with
  | |- never_throws _ (mret _) => apply never_ret
  | |- never_throws _ (_ ≫= _) => apply never_bind; [|intros ?]
  | |- never_throws _ (Core.throw _) => apply never_throw; discriminate
  | |- never_throws _ (Core.Construct_new _ _) => apply never_addChild
  | |- never_throws _ (Core.CfnResource_new _ _ _) => apply never_addChild
  | |- never_throws _ (Core.CfnOutput_new _ _ _) => unfold Core.CfnOutput_new
  | |- never_throws _ (Core.addChild _ _ _) => apply never_addChild
  | |- never_throws _ (if ?b then _ else _) => destruct b
  | |- never_throws _ (match ?o with Some _ => _ | None => _ end) =>
      destruct o
  end.

Lemma never_associate msg this subnetIds idx :
  never_throws (Core.Thrown msg)
    (ClientVpnEndpoint.associate this idx subnetIds).
Proof.
  revert idx. induction subnetIds as [|s rest IH]; intros idx; simpl.
  - apply never_ret.
  - repeat never_step. apply IH.
Qed.

Lemma renderAuthenticationOptions_no_overlap cert uba :
  ClientVpnEndpoint.renderAuthenticationOptions cert uba
  ≠ inl (Core.Thrown ClientVpnEndpoint.overlap_msg).
Proof.
  unfold ClientVpnEndpoint.renderAuthenticationOptions.
  destruct (_ && _); [discriminate|].
  destruct (length _ =? 0); discriminate.
Qed.

(** C10: when [props.vpc.vpcCidrBlock] is an unresolved token the
    [ClientVpnEndpoint] constructor skips the CIDR overlap check: it never
    throws "The client CIDR cannot overlap with the local CIDR of the VPC",
    and what it does is independent of [CidrBlock] and [containsCidr]. *)
Theorem unresolved_vpc_cidr_skips_overlap_check
  (cfnToken : Core.Path -> string -> string) (isUnresolved : string -> bool)
  (CidrBlock : Type) (CidrBlock_new : string -> Core.Error + CidrBlock)
  (containsCidr : CidrBlock -> CidrBlock -> bool) (SubnetSelection : Type)
  (scope : Core.Path) (id : string)
  (props : ClientVpnEndpoint.ClientVpnEndpointProps SubnetSelection) :
  isUnresolved
    (ClientVpnEndpoint.vpcCidrBlock _ (ClientVpnEndpoint.vpc _ props)) = true ->
  (forall t,
     fst (ClientVpnEndpoint.ClientVpnEndpoint_new cfnToken isUnresolved
            CidrBlock CidrBlock_new containsCidr SubnetSelection
            scope id props t)
     ≠ inl (Core.Thrown ClientVpnEndpoint.overlap_msg))
  /\ (forall (CidrBlock' : Type)
        (CidrBlock_new' : string -> Core.Error + CidrBlock')
        (containsCidr' : CidrBlock' -> CidrBlock' -> bool) t,
     ClientVpnEndpoint.ClientVpnEndpoint_new cfnToken isUnresolved
       CidrBlock CidrBlock_new containsCidr SubnetSelection scope id props t
     = ClientVpnEndpoint.ClientVpnEndpoint_new cfnToken isUnresolved
         CidrBlock' CidrBlock_new' containsCidr' SubnetSelection
         scope id props t).
Proof.
  intros Hu. split.
  - change (never_throws (Core.Thrown ClientVpnEndpoint.overlap_msg)
              (ClientVpnEndpoint.ClientVpnEndpoint_new cfnToken isUnresolved
                 CidrBlock CidrBlock_new containsCidr SubnetSelection
                 scope id props)).
    unfold ClientVpnEndpoint.ClientVpnEndpoint_new. rewrite Hu.
    cbn [negb].
    repeat never_step;
      try apply never_associate;
      try (apply never_lift, renderAuthenticationOptions_no_overlap).
  - intros C' new' contains' t.
    unfold ClientVpnEndpoint.ClientVpnEndpoint_new. rewrite Hu. reflexivity.
Qed.

Lemma unresolved_vpc_cidr_skips_overlap_check_witness :
  fst (ClientVpnEndpoint.ClientVpnEndpoint_new sample_cfnToken
         sample_isUnresolved string sample_CidrBlock_new sample_containsCidr
         unit ["Stack"] "Vpn"
         (sample_vpn_props "${Token[Stack/Vpc/Resource.CidrBlock]}") [])
  ≠ inl (Core.Thrown ClientVpnEndpoint.overlap_msg).
Proof.
  apply (proj1 (unresolved_vpc_cidr_skips_overlap_check sample_cfnToken
                  sample_isUnresolved string sample_CidrBlock_new
                  sample_containsCidr unit ["Stack"] "Vpn"
                  (sample_vpn_props "${Token[Stack/Vpc/Resource.CidrBlock]}")
                  eq_refl)).
Defined.

(** With a concrete VPC CIDR the check does run: the same stand-ins make
    the constructor throw the overlap error. *)
Example concrete_vpc_cidr_is_checked :
  fst (ClientVpnEndpoint.ClientVpnEndpoint_new sample_cfnToken
         sample_isUnresolved string sample_CidrBlock_new sample_containsCidr
         unit ["Stack"] "Vpn" (sample_vpn_props "10.0.0.0/16") [])
  = inl (Core.Thrown ClientVpnEndpoint.overlap_msg).
Proof. reflexivity. Qed.

(** ** The archiver *)
Section ArchiveFacts.
Import Archive.

Lemma complete_reads_permutation sched pending appended :
  complete_reads sched pending appended
  ≡ₚ appended ++ map entry_of pending.
Proof.
  revert pending appended.
  induction sched as [|k sched IH]; intros pending appended; simpl.
  - reflexivity.
  - destruct (pending !! (k mod length pending)) as [f|] eqn:E.
    + rewrite IH, <- app_assoc. apply Permutation_app_head.
      change ([entry_of f] ++ map entry_of (delete (k mod length pending) pending))
        with (map entry_of (f :: delete (k mod length pending) pending)).
      symmetry. apply Permutation_map. now apply delete_Permutation.
    + destruct pending as [|f0 pending'].
      * simpl. now rewrite app_nil_r.
      * apply lookup_ge_None in E.
        pose proof (Nat.mod_upper_bound k (length (f0 :: pending'))) as Hb.
        simpl in *. lia.
Qed.

Lemma zipDirectory_permutation sched directory :
  zipDirectory sched directory ≡ₚ map entry_of directory.
Proof. apply complete_reads_permutation. Qed.

(** Every entry carries the pinned date. *)
Lemma zipDirectory_dates sched directory :
  Forall (fun e => entry_date e = pinned_date) (zipDirectory sched directory).
Proof.
  rewrite zipDirectory_permutation.
  apply Forall_forall. intros e He.
  apply list_elem_of_In, in_map_iff in He as (f & <- & _). reflexivity.
Qed.

(** With the same completion order two runs write the same archive, and
    so the same hash. *)
Lemma archive_hash_same_order zip_bytes sha256_hex sched directory :
  archive_hash zip_bytes sha256_hex sched directory
  = contentHash sha256_hex (zip_bytes (zipDirectory sched directory)).
Proof. reflexivity. Qed.
(** Whenever the first two files differ, completing the second read
    first changes the archive. *)
Lemma zipDirectory_two_orders f g rest :
  entry_of f ≠ entry_of g ->
  zipDirectory [0] (f :: g :: rest) ≠ zipDirectory [1] (f :: g :: rest).
Proof.
  intros Hne. unfold zipDirectory. cbn [complete_reads].
  assert (H1 : 1 mod length (f :: g :: rest) = 1)
    by (apply Nat.mod_small; simpl; lia).
  rewrite Nat.Div0.mod_0_l, H1.
  intros H. apply Hne.
  exact (f_equal (fun l => match l with e :: _ => e | [] => entry_of f end) H).
Qed.
End ArchiveFacts.

(** C2: two runs of [zipDirectory] over the same directory contents in
    which the file reads complete in different orders write the same
    entries, all dated 1980-01-01T00:00:00.000Z, but in different orders:
    the archives are not identical. *)
Theorem zipDirectory_order_follows_read_completion :
  Archive.zipDirectory [0] sample_directory
  ≠ Archive.zipDirectory [1] sample_directory
  /\ Archive.zipDirectory [0] sample_directory
     ≡ₚ Archive.zipDirectory [1] sample_directory
  /\ map Archive.entry_name (Archive.zipDirectory [0] sample_directory)
     = ["index.js"; "package.json"]
  /\ map Archive.entry_name (Archive.zipDirectory [1] sample_directory)
     = ["package.json"; "index.js"].
Proof.
  split; [|split; [|split]].
  - vm_compute. discriminate.
  - now rewrite !zipDirectory_permutation.
  - reflexivity.
  - reflexivity.
Qed.

(** ** Resolution *)
Section ResolveFacts.
Import Resolve.
Variable reg : Registry.
Variable ctx : Context.

Lemma resolve_prim d p : resolve d reg ctx (VPrim p) = inr (VPrim p).
Proof. destruct d; reflexivity. Qed.

Lemma resolve_seq d items :
  resolve d reg ctx (VSeq items)
  = match mapM (resolve d reg ctx) items with
    | inl e => inl e
    | inr items' => inr (VSeq items')
    end.
Proof. destruct d; reflexivity. Qed.

Lemma resolve_map d entries :
  resolve d reg ctx (VMap entries)
  = match mapM (fun kv => let '(k, x) := kv in
                          match resolve d reg ctx x with
                          | inl e => inl e
                          | inr x' => inr (k, x')
                          end) entries with
    | inl e => inl e
    | inr entries' => inr (VMap entries')
    end.
Proof. destruct d; reflexivity. Qed.

Lemma resolve_vtoken d h :
  resolve d reg ctx (VToken h) = resolve_token d reg ctx h.
Proof. destruct d; reflexivity. Qed.

Lemma resolve_template d parts :
  resolve d reg ctx (VTemplate parts)
  = match mapM (fun p => match p with
                         | inl s => inr (VPrim (PStr s))
                         | inr h => resolve_token d reg ctx h
                         end) parts with
    | inl e => inl e
    | inr fragments => inr (splice fragments)
    end.
Proof. destruct d; reflexivity. Qed.

Lemma mapM_id {A} (f : A -> Result A) l :
  Forall (fun x => f x = inr x) l -> mapM f l = inr l.
Proof.
  induction 1 as [|x l Hx _ IH]; simpl; [reflexivity|].
  now rewrite Hx, IH.
Qed.

Lemma mapM_Forall {A B} (f : A -> Result B) (Q : B -> Prop) l l' :
  Forall (fun x => forall y, f x = inr y -> Q y) l ->
  mapM f l = inr l' -> Forall Q l'.
Proof.
  intros H. revert l'. induction H as [|x l Hx _ IH]; intros l'; simpl.
  - intros [= <-]. constructor.
  - destruct (f x) as [e|y] eqn:Ef; [discriminate|].
    destruct (mapM f l) as [e|ys]; [discriminate|].
    intros [= <-]. constructor; auto.
Qed.

Lemma token_free_splice fragments :
  Forall (fun v => token_free v = true) fragments ->
  token_free (splice fragments) = true.
Proof.
  intros H. unfold splice. destruct (mapM _ fragments); [|reflexivity].
  simpl. rewrite andb_true_r, andb_true_r.
  apply forallb_forall. intros v Hv.
  rewrite Forall_forall in H. now apply H, list_elem_of_In.
Qed.

Lemma resolve_plain_given_tokens d :
  (forall h v', resolve_token d reg ctx h = inr v' -> token_free v' = true) ->
  forall v v', resolve d reg ctx v = inr v' -> token_free v' = true.
Proof.
  intros Htok v. induction v as [p|items IH|entries IH|h|parts]
    using Value_ind'; intros v'.
  - rewrite resolve_prim. now intros [= <-].
  - rewrite resolve_seq.
    destruct (mapM _ items) as [e|items'] eqn:E; [discriminate|].
    intros [= <-]. simpl. apply forallb_forall. intros x Hx.
    apply (mapM_Forall _ (fun y => token_free y = true)) in E.
    + rewrite Forall_forall in E. now apply E, list_elem_of_In.
    + exact IH.
  - rewrite resolve_map.
    destruct (mapM _ entries) as [e|entries'] eqn:E; [discriminate|].
    intros [= <-]. simpl. apply forallb_forall. intros x Hx.
    apply (mapM_Forall _ (fun kv => token_free (snd kv) = true)) in E.
    + rewrite Forall_forall in E. now apply E, list_elem_of_In.
    + eapply Forall_impl; [exact IH|].
      intros [k x0] Hk [k' y]. simpl in *.
      destruct (resolve d reg ctx x0) as [e|x1] eqn:Ex; [discriminate|].
      intros [= <- <-]. now apply Hk.
  - rewrite resolve_vtoken. apply Htok.
  - rewrite resolve_template.
    destruct (mapM _ parts) as [e|fragments] eqn:E; [discriminate|].
    intros [= <-]. apply token_free_splice.
    apply (mapM_Forall _ (fun y => token_free y = true)) in E; [exact E|].
    apply Forall_forall. intros [s|h] _ y.
    + now intros [= <-].
    + apply Htok.
Qed.

Lemma resolve_token_plain d :
  forall h v', resolve_token d reg ctx h = inr v' -> token_free v' = true.
Proof.
  induction d as [|d IHd]; intros h v'; simpl; [discriminate|].
  destruct (reg !! h) as [r|]; [|discriminate].
  destruct (r ctx) as [msg|v1]; [discriminate|].
  apply resolve_plain_given_tokens, IHd.
Qed.

(** A successful resolution leaves no token behind. *)
Lemma resolve_plain d v v' :
  resolve d reg ctx v = inr v' -> token_free v' = true.
Proof. apply resolve_plain_given_tokens, resolve_token_plain. Qed.

(** A set of tokens closed under "the resolver returns the token". *)
Lemma resolve_cycle_runaway (chain : Handle -> Prop) :
  (forall h, chain h ->
     exists r h', reg !! h = Some r /\ r ctx = inr (VToken h') /\ chain h') ->
  forall d h, chain h -> resolve d reg ctx (VToken h) = inl RunawayToken.
Proof.
  intros Hc d. induction d as [|d IHd]; intros h Hh.
  - reflexivity.
  - rewrite resolve_vtoken. simpl.
    destruct (Hc h Hh) as (r & h' & -> & -> & Hh').
    now apply IHd.
Qed.
(** A chain of tokens longer than the depth bound, cyclic or not. *)
Lemma resolve_chain_runaway d :
  forall f : nat -> Handle,
    (forall i, i < d ->
       exists r, reg !! f i = Some r /\ r ctx = inr (VToken (f (S i)))) ->
    resolve d reg ctx (VToken (f 0)) = inl RunawayToken.
Proof.
  induction d as [|d IHd]; intros f Hf.
  - reflexivity.
  - rewrite resolve_vtoken. simpl.
    destruct (Hf 0) as (r & -> & ->); [lia|].
    apply (IHd (fun i => f (S i))). intros i Hi. apply Hf. lia.
Qed.
End ResolveFacts.

(** C6: resolution is the identity on token-free values, whatever the
    depth bound, the registered tokens and the context; in particular on
    every primitive. *)
Theorem resolve_identity_on_token_free
  (max_depth : nat) (reg : Resolve.Registry) (ctx : Resolve.Context)
  (v : Resolve.Value) :
  Resolve.token_free v = true ->
  Resolve.resolve max_depth reg ctx v = inr v.
Proof.
  induction v as [p|items IH|entries IH|h|parts] using Resolve.Value_ind';
    simpl.
  - intros _. apply resolve_prim.
  - intros Hf. rewrite resolve_seq, mapM_id; [reflexivity|].
    rewrite forallb_forall in Hf. rewrite Forall_forall in IH |- *.
    intros x Hx. apply IH; [exact Hx|]. now apply Hf, list_elem_of_In.
  - intros Hf. rewrite resolve_map, mapM_id; [reflexivity|].
    rewrite forallb_forall in Hf. rewrite Forall_forall in IH |- *.
    intros [k x] Hx.
    assert (Hkx : Resolve.token_free x = true)
      by now apply (Hf (k, x)), list_elem_of_In.
    pose proof (IH _ Hx Hkx) as E. simpl in E. now rewrite E.
  - discriminate.
  - discriminate.
Qed.

Lemma resolve_identity_on_token_free_witness :
  Resolve.resolve 8 sample_cycle sample_context sample_plain_value
  = inr sample_plain_value.
Proof.
  apply (resolve_identity_on_token_free 8 sample_cycle sample_context
           sample_plain_value).
  reflexivity.
Defined.

(** C7: resolution terminates on every input, with an error or with a
    value that holds no token; whenever a set of tokens is closed under
    "the resolver returns another token of the set" (a token that returns
    itself, or a longer cycle), resolving any of them fails with the
    runaway error, for every depth bound; and so does any chain of tokens
    that is longer than the bound. *)
Theorem resolve_terminates_and_detects_cycles
  (max_depth : nat) (reg : Resolve.Registry) (ctx : Resolve.Context) :
  (forall v,
     (exists e, Resolve.resolve max_depth reg ctx v = inl e)
     \/ (exists v', Resolve.resolve max_depth reg ctx v = inr v'
                    /\ Resolve.token_free v' = true))
  /\ (forall chain : Resolve.Handle -> Prop,
       (forall h, chain h ->
          exists r h', reg !! h = Some r
                       /\ r ctx = inr (Resolve.VToken h') /\ chain h') ->
       forall h, chain h ->
         Resolve.resolve max_depth reg ctx (Resolve.VToken h)
         = inl Resolve.RunawayToken)
  /\ (forall f : nat -> Resolve.Handle,
       (forall i, i < max_depth ->
          exists r, reg !! f i = Some r
                    /\ r ctx = inr (Resolve.VToken (f (S i)))) ->
       Resolve.resolve max_depth reg ctx (Resolve.VToken (f 0))
       = inl Resolve.RunawayToken).
Proof.
  split; [|split].
  - intros v. destruct (Resolve.resolve max_depth reg ctx v) as [e|v'] eqn:E.
    + left. eauto.
    + right. exists v'. split; [reflexivity|].
      eapply resolve_plain. exact E.
  - intros chain Hc h Hh. now apply (resolve_cycle_runaway reg ctx chain).
  - apply resolve_chain_runaway.
Qed.

Lemma resolve_terminates_and_detects_cycles_witness :
  Resolve.resolve 200 sample_cycle sample_context (Resolve.VToken 0)
  = inl Resolve.RunawayToken.
Proof.
  apply (proj1 (proj2 (resolve_terminates_and_detects_cycles 200 sample_cycle
                         sample_context)) (fun h => h = 0 \/ h = 1)).
  - intros h [-> | ->].
    + exists (fun _ => inr (Resolve.VToken 1)), 1.
      split; [reflexivity|]. split; [reflexivity|]. now right.
    + exists (fun _ => inr (Resolve.VToken 0)), 0.
      split; [reflexivity|]. split; [reflexivity|]. now left.
  - now left.
Defined.

(** ** Regular expressions *)
Section RegexFacts.
Import Regex.
Variable s : list ascii.

Lemma in_step_char p i j :
  In j (step_char s p i)
  <-> j = S i /\ exists c, s !! i = Some c /\ p c = true.
Proof.
  unfold step_char. destruct (s !! i) as [c|] eqn:E.
  - destruct (p c) eqn:Ep; simpl.
    + split.
      * intros [<-|[]]. eauto.
      * intros [-> _]. now left.
    + split; [intros []|]. intros (_ & c' & [= <-] & H). congruence.
  - simpl. split; [intros []|]. intros (_ & c' & H & _). discriminate.
Qed.

Lemma in_iter_rep p lo hi i j :
  In j (iter_rep (step_char s p) lo hi i)
  <-> i + lo <= j <= i + hi /\ run_ok s p i j.
Proof.
  revert lo i. induction hi as [|hi IH]; intros lo i; simpl.
  - rewrite app_nil_r. destruct (lo =? 0) eqn:E.
    + apply Nat.eqb_eq in E. subst lo. simpl. split.
      * intros [<-|[]]. split; [lia|]. intros k Hk. lia.
      * intros [H _]. left. lia.
    + apply Nat.eqb_neq in E. simpl. split; [intros []|].
      intros [H _]. lia.
  - rewrite in_app_iff, in_flat_map. split.
    + intros [H | (x & Hx & Hj)].
      * destruct (lo =? 0) eqn:E; simpl in H; [|contradiction].
        destruct H as [<-|[]]. apply Nat.eqb_eq in E.
        split; [lia|]. intros k Hk. lia.
      * apply in_step_char in Hx as (-> & c & Hc & Hp).
        apply IH in Hj as (Hr & Hok).
        split; [lia|]. intros k Hk.
        destruct (Nat.eq_dec k i) as [->|Hne]; [eauto|].
        apply Hok. lia.
    + intros [Hr Hok]. destruct (Nat.eq_dec j i) as [->|Hne].
      * left. assert (lo = 0) as -> by lia. simpl. now left.
      * right. exists (S i). split.
        -- apply in_step_char. split; [reflexivity|]. apply Hok. lia.
        -- apply IH. split; [lia|]. intros k Hk. apply Hok. lia.
Qed.

Lemma in_iter_star p fuel i j :
  In j (iter_star (step_char s p) fuel i)
  <-> i <= j <= i + fuel /\ run_ok s p i j.
Proof.
  revert i. induction fuel as [|fuel IH]; intros i; simpl.
  - split.
    + intros [<-|[]]. split; [lia|]. intros k Hk. lia.
    + intros [H _]. left. lia.
  - rewrite in_flat_map. split.
    + intros [<- | (x & Hx & Hj)].
      * split; [lia|]. intros k Hk. lia.
      * apply in_step_char in Hx as (-> & c & Hc & Hp).
        rewrite (proj2 (Nat.ltb_lt i (S i))) in Hj by lia.
        apply IH in Hj as (Hr & Hok).
        split; [lia|]. intros k Hk.
        destruct (Nat.eq_dec k i) as [->|Hne]; [eauto|].
        apply Hok. lia.
    + intros [Hr Hok]. destruct (Nat.eq_dec j i) as [->|Hne].
      * now left.
      * right. exists (S i). split.
        -- apply in_step_char. split; [reflexivity|]. apply Hok. lia.
        -- rewrite (proj2 (Nat.ltb_lt i (S i))) by lia.
           apply IH. split; [lia|]. intros k Hk. apply Hok. lia.
Qed.

Lemma in_ends_seq r1 r2 i j :
  In j (ends s (Seq r1 r2) i)
  <-> exists k, In k (ends s r1 i) /\ In j (ends s r2 k).
Proof. simpl. apply in_flat_map. Qed.

Lemma in_ends_bol i j : In j (ends s Bol i) <-> j = i /\ i = 0.
Proof.
  simpl. destruct (i =? 0) eqn:E.
  - apply Nat.eqb_eq in E. simpl. intuition.
  - apply Nat.eqb_neq in E. simpl. intuition.
Qed.

Lemma in_ends_eol i j : In j (ends s Eol i) <-> j = i /\ i = length s.
Proof.
  simpl. destruct (i =? length s) eqn:E.
  - apply Nat.eqb_eq in E. simpl. intuition.
  - apply Nat.eqb_neq in E. simpl. intuition.
Qed.

Lemma in_ends_neg_ahead r i j :
  In j (ends s (NegAhead r) i) <-> j = i /\ forall k, ~ In k (ends s r i).
Proof.
  simpl. destruct (ends s r i) as [|x l]; simpl.
  - intuition.
  - split; [intros []|]. intros [_ H]. apply (H x). now left.
Qed.

Lemma in_ends_neg_behind r i j :
  In j (ends s (NegBehind r) i)
  <-> j = i /\ forall k, k <= i -> ~ In i (ends s r k).
Proof.
  cbn [ends].
  destruct (existsb (fun k => existsb (Nat.eqb i) (ends s r k))
              (seq 0 (S i))) eqn:E.
  - split; [intros []|]. intros [_ H].
    apply existsb_exists in E as (k & Hk & Hi).
    apply existsb_exists in Hi as (x & Hx & Hxi).
    apply Nat.eqb_eq in Hxi. subst x.
    apply in_seq in Hk. apply (H k); [lia|exact Hx].
  - simpl. split.
    + intros [<-|[]]. split; [reflexivity|]. intros k Hk Hin.
      apply not_true_iff_false in E. apply E.
      apply existsb_exists. exists k. split; [apply in_seq; lia|].
      apply existsb_exists. exists i. split; [exact Hin|].
      apply Nat.eqb_refl.
    + intros [-> _]. now left.
Qed.

Lemma matches_at_iff r i :
  matches_at s r i = true <-> exists j, In j (ends s r i).
Proof.
  unfold matches_at. destruct (ends s r i) as [|x l].
  - split; [discriminate|]. intros [j []].
  - split; [|reflexivity]. intros _. exists x. now left.
Qed.
End RegexFacts.

Lemma test_iff r str :
  Regex.test r str = true
  <-> exists i j, i <= length (list_ascii_of_string str)
                  /\ In j (Regex.ends (list_ascii_of_string str) r i).
Proof.
  unfold Regex.test. rewrite existsb_exists. split.
  - intros (i & Hi & Hm). apply matches_at_iff in Hm as [j Hj].
    apply in_seq in Hi. exists i, j. split; [lia|exact Hj].
  - intros (i & j & Hi & Hj). exists i. split; [apply in_seq; lia|].
    apply matches_at_iff. eauto.
Qed.

(** ** Replication task identifiers *)
Section IdentifierFacts.
Import Regex ReplicationTask.
Local Open Scope char_scope.

Ltac all_ascii c :=
  destruct c as [[] [] [] [] [] [] [] []]; vm_compute; try reflexivity;
  try discriminate.

Lemma class_ident c :
  in_class [("A", "Z"); ("a", "z"); ("0", "9"); ("-", "-")] c
  = ident_char c.
Proof. all_ascii c. Qed.

Lemma class_first c :
  in_class [("-", "-"); ("0", "9")] c = is_hyphen c || is_digit c.
Proof. all_ascii c. Qed.

Lemma eqb_hyphen c : Ascii.eqb "-" c = is_hyphen c.
Proof. all_ascii c. Qed.

Lemma ident_char_not_terminator c :
  ident_char c = true -> negb (line_terminator c) = true.
Proof. all_ascii c. Qed.

Variable s : list ascii.

Lemma in_ends_class rs i j :
  In j (ends s (Class rs) i)
  <-> j = S i /\ exists c, s !! i = Some c /\ in_class rs c = true.
Proof. apply in_step_char. Qed.

Lemma in_ends_lit c i j :
  In j (ends s (Lit c) i)
  <-> j = S i /\ exists c', s !! i = Some c' /\ Ascii.eqb c c' = true.
Proof. apply in_step_char. Qed.

Lemma in_ends_rep_class rs lo hi i j :
  In j (ends s (Rep (Class rs) lo hi) i)
  <-> i + lo <= j <= i + hi /\ run_ok s (in_class rs) i j.
Proof. exact (in_iter_rep s (in_class rs) lo hi i j). Qed.

Lemma in_ends_star_any i j :
  In j (ends s (Star AnyChar) i)
  <-> i <= j <= i + length s
      /\ run_ok s (fun c => negb (line_terminator c)) i j.
Proof.
  exact (in_iter_star s (fun c => negb (line_terminator c)) (length s) i j).
Qed.

Lemma run_ok_weaken (p q : ascii -> bool) i j j' :
  (forall c, p c = true -> q c = true) -> j' <= j ->
  run_ok s p i j -> run_ok s q i j'.
Proof.
  intros Hpq Hj H k Hk. destruct (H k) as (c & Hc & Hp); [lia|]. eauto.
Qed.

Lemma in_double_hyphen j :
  In j (ends s (Seq (Star AnyChar) (Seq (Lit "-") (Lit "-"))) 0)
  <-> exists k c1 c2,
        j = S (S k) /\ run_ok s (fun c => negb (line_terminator c)) 0 k
        /\ s !! k = Some c1 /\ s !! S k = Some c2
        /\ is_hyphen c1 = true /\ is_hyphen c2 = true.
Proof.
  rewrite in_ends_seq. split.
  - intros (k & Hk & Hj). apply in_ends_star_any in Hk as (_ & Hrun).
    apply in_ends_seq in Hj as (k1 & Hk1 & Hj).
    apply in_ends_lit in Hk1 as (-> & c1 & Hc1 & He1).
    apply in_ends_lit in Hj as (-> & c2 & Hc2 & He2).
    rewrite eqb_hyphen in He1, He2. exists k, c1, c2. auto 10.
  - intros (k & c1 & c2 & -> & Hrun & Hc1 & Hc2 & He1 & He2).
    exists k. split.
    + apply in_ends_star_any. split; [|exact Hrun].
      apply lookup_lt_Some in Hc1. lia.
    + apply in_ends_seq. exists (S k).
      split; apply in_ends_lit; (split; [reflexivity|]);
        [exists c1|exists c2]; rewrite eqb_hyphen; auto.
Qed.

Lemma identifier_regex_shape :
  (exists i j, i <= length s /\ In j (ends s IDENTIFIER_REGEX i))
  <-> identifier_shape s.
Proof.
  unfold IDENTIFIER_REGEX. split.
  - intros (i & j & _ & H).
    apply in_ends_seq in H as (k1 & H1 & H).
    apply in_ends_bol in H1 as (-> & ->).
    apply in_ends_seq in H as (k2 & H2 & H).
    apply in_ends_neg_ahead in H2 as (-> & Hfirst).
    apply in_ends_seq in H as (k3 & H3 & H).
    apply in_ends_neg_ahead in H3 as (-> & Hdouble).
    apply in_ends_seq in H as (k4 & H4 & H).
    apply in_ends_rep_class in H4 as (Hlen & Hrun).
    apply in_ends_seq in H as (k5 & H5 & H).
    apply in_ends_neg_behind in H5 as (-> & Hlast).
    apply in_ends_eol in H as (-> & ->).
    assert (Hrun' : run_ok s ident_char 0 (length s)).
    { eapply run_ok_weaken; [|reflexivity|exact Hrun].
      intros c. now rewrite class_ident. }
    split; [lia|]. split; [exact Hrun'|]. split; [|split].
    + intros c Hc. destruct (is_hyphen c || is_digit c) eqn:E; [|reflexivity].
      exfalso. apply (Hfirst 1). apply in_ends_class.
      split; [reflexivity|]. exists c. now rewrite class_first.
    + intros c Hc. destruct (is_hyphen c) eqn:E; [|reflexivity].
      exfalso. apply (Hlast (length s - 1)); [lia|].
      apply in_ends_lit. split; [lia|]. exists c. now rewrite eqb_hyphen.
    + intros k c1 c2 Hc1 Hc2.
      destruct (is_hyphen c1 && is_hyphen c2) eqn:E; [|reflexivity].
      apply andb_true_iff in E as [E1 E2].
      exfalso. apply (Hdouble (S (S k))). apply in_double_hyphen.
      exists k, c1, c2. split; [reflexivity|]. split; [|auto].
      eapply run_ok_weaken; [exact ident_char_not_terminator| |exact Hrun'].
      apply lookup_lt_Some in Hc1. lia.
  - intros (Hlen & Hrun & Hfirst & Hlast & Hdouble).
    exists 0, (length s). split; [lia|].
    apply in_ends_seq. exists 0. split; [now apply in_ends_bol|].
    apply in_ends_seq. exists 0. split.
    { apply in_ends_neg_ahead. split; [reflexivity|]. intros k Hk.
      apply in_ends_class in Hk as (_ & c & Hc & Hp).
      rewrite class_first, (Hfirst c Hc) in Hp. discriminate. }
    apply in_ends_seq. exists 0. split.
    { apply in_ends_neg_ahead. split; [reflexivity|]. intros k Hk.
      apply in_double_hyphen in Hk
        as (k0 & c1 & c2 & _ & _ & Hc1 & Hc2 & E1 & E2).
      specialize (Hdouble k0 c1 c2 Hc1 Hc2).
      rewrite E1, E2 in Hdouble. discriminate. }
    apply in_ends_seq. exists (length s). split.
    { apply in_ends_rep_class. split; [lia|].
      eapply run_ok_weaken; [|reflexivity|exact Hrun].
      intros c. now rewrite class_ident. }
    apply in_ends_seq. exists (length s). split; [|now apply in_ends_eol].
    apply in_ends_neg_behind. split; [reflexivity|]. intros k Hk Hin.
    apply in_ends_lit in Hin as (Hk' & c & Hc & He).
    assert (k = length s - 1) as -> by lia.
    rewrite eqb_hyphen, (Hlast c Hc) in He. discriminate.
Qed.

Lemma no_double_hyphen_iff (l : list ascii) :
  no_double_hyphen l = true
  <-> forall k c1 c2, l !! k = Some c1 -> l !! S k = Some c2 ->
                      is_hyphen c1 && is_hyphen c2 = false.
Proof.
  induction l as [|a l IH]; [split; [intros _ k c1 c2 H|]; easy|].
  destruct l as [|b l].
  - split; [|reflexivity]. intros _ [|k] c1 c2 H1 H2; discriminate.
  - change (no_double_hyphen (a :: b :: l))
      with (negb (is_hyphen a && is_hyphen b) && no_double_hyphen (b :: l)).
    rewrite andb_true_iff, negb_true_iff, IH. split.
    + intros [Hab Hrest] [|k] c1 c2 H1 H2.
      * simpl in H1, H2. injection H1 as <-. injection H2 as <-. exact Hab.
      * apply (Hrest k c1 c2); assumption.
    + intros H. split.
      * apply (H 0 a b); reflexivity.
      * intros k c1 c2 H1 H2. apply (H (S k) c1 c2); assumption.
Qed.

Lemma forallb_run_ok (p : ascii -> bool) :
  forallb p s = true <-> run_ok s p 0 (length s).
Proof.
  rewrite forallb_forall. split.
  - intros H k Hk. destruct (lookup_lt_is_Some_2 s k) as [c Hc]; [lia|].
    exists c. split; [exact Hc|]. apply H.
    apply list_elem_of_In, list_elem_of_lookup. eauto.
  - intros H c Hc.
    apply list_elem_of_In, list_elem_of_lookup in Hc as [k Hk].
    destruct (H k) as (c' & Hc' & Hp).
    + apply lookup_lt_Some in Hk. lia.
    + congruence.
Qed.
End IdentifierFacts.

(** The regular expression accepts exactly the identifiers that meet the
    documented constraints. *)
Lemma IDENTIFIER_REGEX_spec (str : string) :
  Regex.test ReplicationTask.IDENTIFIER_REGEX str
  = ReplicationTask.identifier_ok str.
Proof.
  apply eq_true_iff_eq. rewrite test_iff, identifier_regex_shape.
  unfold ReplicationTask.identifier_ok, identifier_shape.
  set (s := list_ascii_of_string str).
  rewrite !andb_true_iff, Nat.leb_le, Nat.leb_le.
  rewrite (forallb_run_ok s ident_char), no_double_hyphen_iff.
  rewrite head_lookup, last_lookup, Nat.sub_1_r.
  split.
  - intros (Hlen & Hrun & Hfirst & Hlast & Hdouble).
    repeat split; try lia; try assumption.
    + destruct (s !! 0) as [c|]; [|reflexivity].
      now rewrite (Hfirst c eq_refl).
    + destruct (s !! pred (length s)) as [c|]; [|reflexivity].
      now rewrite (Hlast c eq_refl).
  - intros (((((H1 & H2) & Hrun) & Hfirst) & Hlast) & Hdouble).
    repeat split; try lia; try assumption.
    + intros c Hc. rewrite Hc in Hfirst. now apply negb_true_iff.
    + intros c Hc. rewrite Hc in Hlast. now apply negb_true_iff.
Qed.

(** For a non-empty identifier the constructor enforces the constraints:
    it throws before the Cfn resource is created exactly when the
    identifier violates them. *)
Lemma ReplicationTask_new_checks_nonempty_identifier
  (cfnToken : Core.Path -> string -> string) (scope : Core.Path) (id : string)
  (props : ReplicationTask.ReplicationTaskProps) (t : Core.Tree)
  (identifier : string) :
  ReplicationTask.replicationTaskIdentifier props = Some identifier ->
  identifier ≠ "" ->
  Core.has_node t (scope ++ [id]) = false ->
  (ReplicationTask.identifier_ok identifier = false ->
   ReplicationTask.ReplicationTask_new cfnToken scope id props t
   = (inl (Core.Thrown ReplicationTask.identifier_msg),
      t ++ [(scope ++ [id], Core.KConstruct)]))
  /\ (ReplicationTask.identifier_ok identifier = true ->
      fst (ReplicationTask.ReplicationTask_new cfnToken scope id props t)
      ≠ inl (Core.Thrown ReplicationTask.identifier_msg)).
Proof.
  intros Hid Hne Hfresh.
  unfold ReplicationTask.ReplicationTask_new, Core.Construct_new, mbind,
    Core.M_bind.
  rewrite (addChild_ok _ _ _ _ Hfresh), Hid.
  change (default "" (Some identifier)) with identifier.
  rewrite IDENTIFIER_REGEX_spec. unfold Core.truthy_string.
  assert (String.eqb identifier "" = false) as ->
    by now apply String.eqb_neq.
  split; intros ->; simpl.
  - reflexivity.
  - unfold Core.CfnResource_new, Core.addChild, mbind, Core.M_bind.
    match goal with
    | |- context [if ?b then _ else _] => destruct b
    end; simpl; discriminate.
Qed.

Example ReplicationTask_new_rejects_double_hyphen :
  ReplicationTask.ReplicationTask_new sample_cfnToken ["Stack"] "Task"
    (sample_task_props (Some "my--task")) []
  = (inl (Core.Thrown ReplicationTask.identifier_msg),
     [(["Stack"; "Task"], Core.KConstruct)]).
Proof.
  apply (ReplicationTask_new_checks_nonempty_identifier sample_cfnToken
           ["Stack"] "Task" (sample_task_props (Some "my--task")) []
           "my--task"); [reflexivity|discriminate|reflexivity|].
  vm_compute. reflexivity.
Qed.

(** C4: the empty identifier violates the documented constraints (1-255
    characters), and the regular expression rejects it, yet the
    constructor does not throw: the truthiness guard skips the test and
    the Cfn resource is created. *)
Theorem ReplicationTask_new_accepts_empty_identifier :
  ReplicationTask.identifier_ok "" = false
  /\ Regex.test ReplicationTask.IDENTIFIER_REGEX "" = false
  /\ ReplicationTask.ReplicationTask_new sample_cfnToken ["Stack"] "Task"
       (sample_task_props (Some "")) []
     = (inr {| ReplicationTask.node := ["Stack"; "Task"];
               ReplicationTask.replicationTaskArn :=
                 "${Token[Stack/Task/Resource.Ref]}" |},
        [(["Stack"; "Task"], Core.KConstruct);
         (["Stack"; "Task"; "Resource"],
           Core.KResource "AWS::DMS::ReplicationTask")]).
Proof. repeat split. Qed.

(** * Further properties of the sources *)

(** ** Parameter groups: the parameter map *)
Section ParameterMapFacts.
Import Core ParameterGroup.

Lemma setParameter_node key v this :
  node (setParameter key v this) = node this.
Proof. reflexivity. Qed.

Lemma setParameter_description key v this :
  description (setParameter key v this) = description this.
Proof. reflexivity. Qed.

Lemma setParameter_parameters key v this :
  parameters (setParameter key v this)
  = match v with
    | Some x => assign key x (parameters this)
    | None => delete key (parameters this)
    end.
Proof.
  destruct v; [apply setParameter_parameters_some|].
  apply setParameter_parameters_none.
Qed.

Lemma ParameterGroup_eq (g1 g2 : ParameterGroup) :
  node g1 = node g2 -> description g1 = description g2 ->
  parameters g1 = parameters g2 -> g1 = g2.
Proof. destruct g1, g2; simpl; intros; subst; reflexivity. Qed.

Lemma assign_lookup_ne key v (ps : Parameters) k :
  k ≠ key -> assign key v ps !! k = ps !! k.
Proof.
  intros Hne. unfold assign. destruct (String.eqb key "__proto__");
    [reflexivity|]. now apply lookup_insert_ne.
Qed.

Lemma setParameter_lookup_ne key v this k :
  k ≠ key -> parameters (setParameter key v this) !! k = parameters this !! k.
Proof.
  intros Hne. rewrite setParameter_parameters. destruct v.
  - now apply assign_lookup_ne.
  - now apply lookup_delete_ne.
Qed.

Lemma setParameter_lookup_eq key v this :
  parameters (setParameter key v this) !! key
  = match v with
    | Some x => if String.eqb key "__proto__" then parameters this !! key
                else Some x
    | None => None
    end.
Proof.
  rewrite setParameter_parameters. destruct v.
  - unfold assign. destruct (String.eqb key "__proto__"); [reflexivity|].
    apply lookup_insert_eq.
  - apply lookup_delete_eq.
Qed.

Lemma set_all_node l g : node (set_all l g) = node g.
Proof. revert g. induction l as [|kv l IH]; intros g; simpl; [|rewrite IH]; reflexivity. Qed.

Lemma set_all_description l g : description (set_all l g) = description g.
Proof. revert g. induction l as [|kv l IH]; intros g; simpl; [|rewrite IH]; reflexivity. Qed.

Lemma set_all_lookup_absent l g k :
  k ∉ map fst l -> parameters (set_all l g) !! k = parameters g !! k.
Proof.
  revert g. induction l as [|[k0 o0] l IH]; intros g Hk; simpl; [reflexivity|].
  simpl in Hk. apply not_elem_of_cons in Hk as [Hne Hk].
  rewrite IH by exact Hk. now apply setParameter_lookup_ne.
Qed.

Lemma set_all_lookup_present l g k o :
  NoDup (map fst l) -> (k, o) ∈ l ->
  parameters (set_all l g) !! k
  = match o with
    | Some x => if String.eqb k "__proto__" then parameters g !! k else Some x
    | None => None
    end.
Proof.
  revert g. induction l as [|[k0 o0] l IH]; intros g Hnd Hin; simpl.
  - now apply elem_of_nil in Hin.
  - simpl in Hnd. apply NoDup_cons in Hnd as [Hk0 Hnd].
    apply elem_of_cons in Hin as [[= -> ->]|Hin].
    + rewrite set_all_lookup_absent by exact Hk0.
      apply setParameter_lookup_eq.
    + assert (Hne : k ≠ k0).
      { intros ->. apply Hk0. apply list_elem_of_fmap.
        exists (k0, o). split; [reflexivity|exact Hin]. }
      rewrite (IH _ Hnd Hin). destruct o as [x|]; [|reflexivity].
      destruct (String.eqb k "__proto__"); [|reflexivity].
      now apply setParameter_lookup_ne.
Qed.

Lemma ParameterGroup_new_result scope id props t base t' :
  ParameterGroup_new scope id props t = (inr base, t') ->
  base = set_all (default [] (props_parameters props))
           {| node := scope ++ [id];
              description :=
                if truthy_string (props_description props)
                then default "" (props_description props)
                else "Parameter group for " +:+ family props;
              parameters := ∅ |}.
Proof.
  unfold ParameterGroup_new, Construct_new, addChild, mbind, M_bind, mret,
    M_ret.
  destruct (has_node t (scope ++ [id])); [discriminate|].
  intros H. injection H as <- _. reflexivity.
Qed.
End ParameterMapFacts.

(** X1: [removeParameter] undoes [setParameter] on the same key, calls
    on different keys commute, a call leaves every other key as it was
    and never binds [__proto__]; on a map that does not bind [__proto__]
    the last [setParameter] on a key wins. *)
Theorem setParameter_algebra (this : ParameterGroup.ParameterGroup) :
  (forall k v,
     ParameterGroup.parameters
       (ParameterGroup.removeParameter k (ParameterGroup.setParameter k v this))
     = delete k (ParameterGroup.parameters this))
  /\ (forall k1 k2 v1 v2, k1 ≠ k2 ->
        ParameterGroup.setParameter k1 v1
          (ParameterGroup.setParameter k2 v2 this)
        = ParameterGroup.setParameter k2 v2
            (ParameterGroup.setParameter k1 v1 this))
  /\ (forall k v k', k' ≠ k ->
        ParameterGroup.parameters (ParameterGroup.setParameter k v this) !! k'
        = ParameterGroup.parameters this !! k')
  /\ (ParameterGroup.parameters this !! "__proto__" = None ->
      (forall k v,
         ParameterGroup.parameters (ParameterGroup.setParameter k v this)
         !! "__proto__" = None)
      /\ (forall k v1 v2,
            ParameterGroup.setParameter k (Some v2)
              (ParameterGroup.setParameter k v1 this)
            = ParameterGroup.setParameter k (Some v2) this)).
Proof.
  split; [|split; [|split]].
  - intros k v. unfold ParameterGroup.removeParameter.
    rewrite !setParameter_parameters. destruct v as [x|].
    + unfold ParameterGroup.assign.
      destruct (String.eqb k "__proto__"); [reflexivity|].
      apply delete_insert_eq.
    + apply map_eq. intros i. destruct (decide (i = k)) as [->|Hne].
      * now rewrite !lookup_delete_eq.
      * now rewrite !lookup_delete_ne by congruence.
  - intros k1 k2 v1 v2 Hne. apply ParameterGroup_eq; try reflexivity.
    apply map_eq. intros i.
    destruct (decide (i = k1)) as [->|H1].
    + rewrite (setParameter_lookup_ne k2) by exact Hne.
      rewrite !setParameter_lookup_eq.
      now rewrite (setParameter_lookup_ne k2) by exact Hne.
    + rewrite (setParameter_lookup_ne k1) by exact H1.
      destruct (decide (i = k2)) as [->|H2].
      * rewrite !setParameter_lookup_eq.
        now rewrite (setParameter_lookup_ne k1) by exact H1.
      * now rewrite !setParameter_lookup_ne by assumption.
  - intros k v k' Hne. now apply setParameter_lookup_ne.
  - intros Hp. split.
    + intros k v. destruct (decide ("__proto__" = k)) as [<-|Hne].
      * rewrite setParameter_lookup_eq. destruct v; [|reflexivity].
        simpl. exact Hp.
      * rewrite setParameter_lookup_ne by exact Hne. exact Hp.
    + intros k v1 v2. apply ParameterGroup_eq; try reflexivity.
      apply map_eq. intros i. destruct (decide (i = k)) as [->|Hne].
      * rewrite !setParameter_lookup_eq.
        destruct (String.eqb k "__proto__") eqn:E; [|reflexivity].
        apply String.eqb_eq in E. subst k.
        destruct v1; simpl; rewrite ?Hp; reflexivity.
      * now rewrite !setParameter_lookup_ne by exact Hne.
Qed.

Lemma setParameter_algebra_witness :
  ParameterGroup.setParameter "autocommit" (Some "1")
    (ParameterGroup.setParameter "max_connections" (Some "100") sample_group)
  = ParameterGroup.setParameter "max_connections" (Some "100")
      (ParameterGroup.setParameter "autocommit" (Some "1") sample_group)
  /\ ParameterGroup.setParameter "autocommit" (Some "0")
       (ParameterGroup.setParameter "autocommit" (Some "1") sample_group)
     = ParameterGroup.setParameter "autocommit" (Some "0") sample_group.
Proof.
  split.
  - apply (proj1 (proj2 (setParameter_algebra sample_group))). discriminate.
  - apply (proj2 (proj2 (proj2 (setParameter_algebra sample_group)))).
    reflexivity.
Defined.

(** X2: in a scope where its id is free, a parameter group is built from
    any props whose parameter entries have distinct keys.  It binds exactly
    the keys given a defined value (other than [__proto__]), each to that
    value.  Its description is the one given when that is a non-empty
    string, and "Parameter group for " followed by the family when none
    or the empty string is given, so it is never empty. *)
Theorem ParameterGroup_new_parameters scope id props t :
  Core.has_node t (scope ++ [id]) = false ->
  NoDup (map fst (default [] (ParameterGroup.props_parameters props))) ->
  exists base,
    ParameterGroup.ParameterGroup_new scope id props t
    = (inr base, t ++ [(scope ++ [id], Core.KConstruct)])
    /\ (forall k v,
          ParameterGroup.parameters base !! k = Some v
          <-> (k, Some v) ∈ default [] (ParameterGroup.props_parameters props)
              /\ k ≠ "__proto__")
    /\ ParameterGroup.description base ≠ ""
    /\ (forall d, ParameterGroup.props_description props = Some d -> d ≠ "" ->
                  ParameterGroup.description base = d)
    /\ (ParameterGroup.props_description props = None
        \/ ParameterGroup.props_description props = Some "" ->
        ParameterGroup.description base
        = "Parameter group for " +:+ ParameterGroup.family props).
Proof.
  intros Hfresh Hnd.
  destruct (ParameterGroup.ParameterGroup_new scope id props t)
    as [[e|base] t'] eqn:Hnew.
  { exfalso. unfold ParameterGroup.ParameterGroup_new in Hnew.
    rewrite (bind_ok _ _ _ _ _ (Construct_new_ok _ _ _ Hfresh)) in Hnew.
    discriminate Hnew. }
  assert (Ht : t' = t ++ [(scope ++ [id], Core.KConstruct)]).
  { unfold ParameterGroup.ParameterGroup_new in Hnew.
    rewrite (bind_ok _ _ _ _ _ (Construct_new_ok _ _ _ Hfresh)) in Hnew.
    now injection Hnew as _ <-. }
  subst t'. exists base. split; [reflexivity|].
  apply ParameterGroup_new_result in Hnew. subst base.
  set (l := default [] (ParameterGroup.props_parameters props)) in *.
  split; [|split; [|split]].
  - intros k v. split.
    + intros Hk.
      destruct (decide (k ∈ map fst l)) as [Hin|Hnin].
      * apply list_elem_of_fmap in Hin as ([k0 o] & -> & Hin). simpl in Hk.
        rewrite (set_all_lookup_present _ _ _ _ Hnd Hin) in Hk.
        destruct o as [x|]; [|discriminate].
        destruct (String.eqb_spec k0 "__proto__") as [->|Hne].
        -- simpl in Hk. rewrite lookup_empty in Hk. discriminate.
        -- injection Hk as ->. auto.
      * rewrite (set_all_lookup_absent _ _ _ Hnin) in Hk. simpl in Hk.
        rewrite lookup_empty in Hk. discriminate.
    + intros [Hin Hne].
      rewrite (set_all_lookup_present _ _ _ _ Hnd Hin).
      destruct (String.eqb_spec k "__proto__"); [contradiction|reflexivity].
  - rewrite set_all_description. simpl.
    destruct (ParameterGroup.props_description props) as [d|]; simpl.
    + destruct (String.eqb_spec d ""); simpl; [discriminate|assumption].
    + discriminate.
  - intros d Hd Hne. rewrite set_all_description. simpl. rewrite Hd. simpl.
    destruct (String.eqb_spec d ""); [contradiction|reflexivity].
  - intros [Hd|Hd]; rewrite set_all_description; simpl; now rewrite Hd.
Qed.

Lemma ParameterGroup_new_parameters_witness :
  exists base,
    ParameterGroup.ParameterGroup_new ["Stack"] "Params"
      sample_group_props []
    = (inr base, [(["Stack"; "Params"], Core.KConstruct)])
    /\ ParameterGroup.parameters base !! "max_connections" = Some "100"
    /\ ParameterGroup.description base = "Parameter group for aurora5.6".
Proof.
  assert (Hnd : NoDup (map fst (default []
                 (ParameterGroup.props_parameters sample_group_props)))).
  { simpl. apply NoDup_singleton. }
  destruct (ParameterGroup_new_parameters ["Stack"] "Params"
              sample_group_props [] eq_refl Hnd)
    as (base & Hnew & Hl & _ & _ & Hd).
  exists base. split; [exact Hnew|]. split.
  - apply Hl. split; [|discriminate].
    simpl. apply list_elem_of_singleton. reflexivity.
  - apply Hd. now left.
Defined.

(** X3: a freshly built parameter group passes [validate()] exactly when
    its props give some parameter a defined value (under a key other
    than [__proto__]); built without parameters it reports the error. *)
Theorem ParameterGroup_new_validate scope id props t base t' :
  ParameterGroup.ParameterGroup_new scope id props t = (inr base, t') ->
  NoDup (map fst (default [] (ParameterGroup.props_parameters props))) ->
  (ParameterGroup.validate base = []
   <-> exists k v,
         (k, Some v) ∈ default [] (ParameterGroup.props_parameters props)
         /\ k ≠ "__proto__")
  /\ (ParameterGroup.props_parameters props = None ->
      ParameterGroup.validate base
      = ["At least one parameter required, call setParameter()."]).
Proof.
  intros Hnew Hnd.
  apply ParameterGroup_new_result in Hnew. subst base.
  set (l := default [] (ParameterGroup.props_parameters props)) in *.
  set (g0 := {| ParameterGroup.node := scope ++ [id] |}).
  assert (Hlook : forall k v,
            ParameterGroup.parameters (set_all l g0) !! k = Some v
            <-> (k, Some v) ∈ l /\ k ≠ "__proto__").
  { intros k v. split.
    - intros Hk. destruct (decide (k ∈ map fst l)) as [Hin|Hnin].
      + apply list_elem_of_fmap in Hin as ([k0 o] & -> & Hin). simpl in Hk.
        rewrite (set_all_lookup_present _ _ _ _ Hnd Hin) in Hk.
        destruct o as [x|]; [|discriminate].
        destruct (String.eqb_spec k0 "__proto__") as [->|Hne].
        * simpl in Hk. rewrite lookup_empty in Hk. discriminate.
        * injection Hk as ->. auto.
      + rewrite (set_all_lookup_absent _ _ _ Hnin) in Hk. simpl in Hk.
        rewrite lookup_empty in Hk. discriminate.
    - intros [Hin Hne].
      rewrite (set_all_lookup_present _ _ _ _ Hnd Hin).
      destruct (String.eqb_spec k "__proto__"); [contradiction|reflexivity]. }
  split.
  - unfold ParameterGroup.validate.
    destruct (length _ =? 0) eqn:E.
    + apply Nat.eqb_eq, keys_length_zero in E. split; [discriminate|].
      intros (k & v & Hin). apply Hlook in Hin. rewrite E in Hin.
      rewrite lookup_empty in Hin. discriminate.
    + split; [intros _|reflexivity].
      apply Nat.eqb_neq in E.
      destruct (map_choose_or_empty (ParameterGroup.parameters (set_all l g0)))
        as [(k & v & Hk)|He].
      * exists k, v. now apply Hlook.
      * exfalso. apply E. now apply keys_length_zero.
  - intros Hnone. subst l. rewrite Hnone. reflexivity.
Qed.

Lemma ParameterGroup_new_validate_witness :
  match ParameterGroup.ParameterGroup_new ["Stack"] "Params"
          sample_group_props [] with
  | (inr base, _) => ParameterGroup.validate base = []
  | (inl _, _) => False
  end.
Proof.
  destruct (ParameterGroup.ParameterGroup_new ["Stack"] "Params"
              sample_group_props []) as [[e|base] t'] eqn:E.
  - vm_compute in E. discriminate E.
  - assert (Hnd : NoDup (map fst (default []
                   (ParameterGroup.props_parameters sample_group_props)))).
    { simpl. apply NoDup_singleton. }
    apply (proj1 (ParameterGroup_new_validate ["Stack"] "Params"
                    sample_group_props [] base t' E Hnd)).
    exists "max_connections", "100". split; [|discriminate].
    simpl. apply list_elem_of_singleton. reflexivity.
Defined.

(** ** Database instances: the constructor *)

(** X4: a [DatabaseInstance] can never be constructed with
    [databaseCluster]: when the base constructor accepts the id, the
    constructor throws the first error for an aurora engine and the second
    one for every other engine (the required [vpc] prop alone trips the
    second guard), leaving only the construct node in the tree. *)
Theorem DatabaseInstance_new_with_cluster_always_throws
  (cfnToken : Core.Path -> string -> string) (V : Type)
  (scope : Core.Path) (id : string)
  (props : Instance.DatabaseInstanceProps V) (t : Core.Tree)
  (c : Instance.IDatabaseCluster) :
  Instance.databaseCluster V props = Some c ->
  Instance.DatabaseInstance_new cfnToken V scope id props t
  = if Core.has_node t (scope ++ [id])
    then (inl (Core.DuplicateId (scope ++ [id])), t)
    else (inl (Core.Thrown
                 (if Regex.test Instance.aurora_regex
                       (Instance.engine_value (Instance.engine V props))
                  then Instance.cannot_specify_cluster_msg
                  else Instance.cannot_specify_with_cluster_msg)),
          t ++ [(scope ++ [id], Core.KConstruct)]).
Proof.
  intros Hc.
  unfold Instance.DatabaseInstance_new, Core.Construct_new, mbind, Core.M_bind.
  unfold Core.addChild at 1.
  destruct (Core.has_node t (scope ++ [id])); [reflexivity|].
  rewrite Hc. cbn [Core.defined andb].
  destruct (Regex.test _ _); [reflexivity|].
  now rewrite orb_true_r.
Qed.

Lemma DatabaseInstance_new_with_cluster_always_throws_witness :
  Instance.DatabaseInstance_new sample_cfnToken unit ["Stack"] "Db"
    (sample_instance_props Instance.Postgres) []
  = (inl (Core.Thrown Instance.cannot_specify_with_cluster_msg),
     [(["Stack"; "Db"], Core.KConstruct)]).
Proof.
  apply (DatabaseInstance_new_with_cluster_always_throws sample_cfnToken unit
           ["Stack"] "Db" (sample_instance_props Instance.Postgres) []
           {| Instance.clusterIdentifier := "cluster-1" |}).
  reflexivity.
Defined.

Section InstanceFacts.
Import Core.
Variable cfnToken : Path -> string -> string.
Variable V : Type.

Lemma DatabaseSecret_new_inv scope id t arn t' :
  Instance.DatabaseSecret_new cfnToken scope id t = (inr arn, t') ->
  t' = t ++ [(scope ++ [id], KConstruct);
             (scope ++ [id; "Resource"], KConstruct)].
Proof.
  unfold Instance.DatabaseSecret_new, Construct_new. intros H.
  apply bind_inv in H as (p & t1 & H1 & H).
  apply bind_inv in H as (q & t2 & H2 & H).
  apply addChild_inv in H1 as (_ & -> & ->).
  apply addChild_inv in H2 as (_ & -> & ->).
  injection H as _ <-. now rewrite <- !app_assoc.
Qed.

Lemma never_DatabaseSecret_new msg scope id :
  never_throws (Thrown msg) (Instance.DatabaseSecret_new cfnToken scope id).
Proof. unfold Instance.DatabaseSecret_new. repeat never_step. Qed.

Lemma featuresList_spec (features : Instance.ProcessorFeatures) :
  Instance.featuresList features
  = if existsb (fun e => negb (defined (snd e))) features
    then inl (Thrown Instance.undefined_to_string_msg)
    else inr (map (fun e => (fst e, pretty (default 0%Z (snd e)))) features).
Proof.
  induction features as [|[name [v|]] rest IH]; [reflexivity| |reflexivity].
  cbn [Instance.featuresList existsb snd defined negb orb map fst default].
  rewrite IH.
  now destruct (existsb (fun e => negb (defined (snd e))) rest).
Qed.

(** Rendering the processor features throws exactly when a property
    holds [undefined]. *)
Lemma rendered_features_spec (props : Instance.DatabaseInstanceProps V) :
  match Instance.processorFeatures V props with
  | Some features => Instance.renderProcessorFeatures features
  | None => inr None
  end
  = if undefined_feature props
    then inl (Thrown Instance.undefined_to_string_msg)
    else inr (match Instance.processorFeatures V props with
              | Some (entry :: rest) =>
                  Some (map (fun e => (fst e, pretty (default 0%Z (snd e))))
                          (entry :: rest))
              | _ => None
              end).
Proof.
  unfold undefined_feature, Instance.renderProcessorFeatures.
  destruct (Instance.processorFeatures V props) as [features|];
    [|reflexivity].
  rewrite featuresList_spec.
  destruct (existsb (fun e => negb (defined (snd e))) features);
    [reflexivity|].
  destruct features; reflexivity.
Qed.

Lemma type_error_is_not_multi_az :
  Instance.undefined_to_string_msg ≠ Instance.multi_az_msg.
Proof. discriminate. Qed.

(** Past the guards on [databaseCluster] the constructor throws two
    errors of its own: the multi-AZ one and the [TypeError] of
    [renderProcessorFeatures]. *)
Lemma DatabaseInstance_new_guards scope id
  (props : Instance.DatabaseInstanceProps V) t msg :
  Instance.databaseCluster V props = None ->
  has_node t (scope ++ [id]) = false ->
  fst (Instance.DatabaseInstance_new cfnToken V scope id props t)
  = inl (Thrown msg) ->
  (too_few_zones props = true /\ msg = Instance.multi_az_msg)
  \/ (too_few_zones props = false /\ undefined_feature props = true
      /\ msg = Instance.undefined_to_string_msg).
Proof.
  intros Hc Hfresh.
  unfold Instance.DatabaseInstance_new, Construct_new, mbind at 1, M_bind at 1.
  rewrite (addChild_ok _ _ _ _ Hfresh), Hc. cbn [defined andb].
  fold (too_few_zones props).
  destruct (too_few_zones props).
  - cbn [throw fst]. intros [= <-]. auto.
  - rewrite rendered_features_spec. intros H. right.
    split; [reflexivity|].
    destruct (undefined_feature props);
      [split; [reflexivity|];
       destruct (decide (msg = Instance.undefined_to_string_msg))
         as [->|Hne]; [reflexivity|]|];
      exfalso; revert H;
      match goal with
      | |- fst (?m ?t) = _ -> False =>
          assert (Hn : never_throws (Thrown msg) m)
      end;
      try (repeat never_step;
           first [apply never_DatabaseSecret_new
                 |apply never_lift; congruence]);
      try apply Hn.
Qed.
End InstanceFacts.

Lemma DatabaseSecret_new_ok cfnToken scope id t :
  Core.has_node t (scope ++ [id]) = false ->
  Core.has_node t (scope ++ [id; "Resource"]) = false ->
  Instance.DatabaseSecret_new cfnToken scope id t
  = (inr (cfnToken (scope ++ [id; "Resource"]) "Ref"),
     t ++ [(scope ++ [id], Core.KConstruct);
           (scope ++ [id; "Resource"], Core.KConstruct)]).
Proof.
  intros H1 H2. unfold Instance.DatabaseSecret_new.
  rewrite (bind_ok _ _ _ _ _ (Construct_new_ok _ _ _ H1)).
  assert (H3 : Core.has_node (t ++ [(scope ++ [id], Core.KConstruct)])
                 ((scope ++ [id]) ++ ["Resource"]) = false).
  { rewrite <- app_assoc. simpl app. rewrite has_node_snoc, H2.
    rewrite <- (app_nil_r (scope ++ [id])) at 1.
    rewrite <- !app_assoc. rewrite path_eqb_app.
    unfold Core.path_eqb. rewrite bool_decide_eq_false_2; [reflexivity|].
    intros E. apply (f_equal length) in E. discriminate E. }
  rewrite (bind_ok _ _ _ _ _ (Construct_new_ok _ _ _ H3)).
  cbn [mret Core.M_ret]. now rewrite <- !app_assoc.
Qed.

Section InstanceSuccess.
Import Core.
Variable cfnToken : Path -> string -> string.
Variable V : Type.

(** The constructor up to the evaluation of the props of the Cfn
    resource. *)
Lemma DatabaseInstance_new_early scope id
  (props : Instance.DatabaseInstanceProps V) t :
  Instance.databaseCluster V props = None ->
  fresh_under t (scope ++ [id]) ->
  too_few_zones props = false ->
  Instance.DatabaseInstance_new cfnToken V scope id props t
  = if undefined_feature props
    then (inl (Thrown Instance.undefined_to_string_msg),
          t ++ instance_early_children props (scope ++ [id]))
    else
      (inr {| Instance.node := scope ++ [id];
              Instance.instanceIdentifier :=
                cfnToken (scope ++ [id; "Resource"]) "Ref";
              Instance.instanceEndpoint :=
                {| Instance.hostname :=
                     cfnToken (scope ++ [id; "Resource"]) "Endpoint.Address";
                   Instance.port :=
                     cfnToken (scope ++ [id; "Resource"]) "Endpoint.Port" |};
              Instance.securityGroupId :=
                cfnToken (scope ++ [id; "SecurityGroup"]) "GroupId";
              Instance.connections :=
                {| Instance.securityGroups := [scope ++ [id; "SecurityGroup"]];
                   Instance.defaultPortRange :=
                     cfnToken (scope ++ [id; "Resource"]) "Endpoint.Port" |};
              Instance.instance_engine := Instance.engine V props;
              Instance.secret :=
                if wants_secret props
                then Some (cfnToken (scope ++ [id; "Secret"; "Resource"])
                             "Ref")
                else None;
              Instance.monitoringRole :=
                if truthy_number (Instance.monitoringInterval V props)
                then Some (scope ++ [id; "MonitoringRole"])
                else None |},
       t ++ instance_children props (scope ++ [id])).
Proof.
  intros Hc Hf Hz. set (this := scope ++ [id]) in *.
  unfold Instance.DatabaseInstance_new.
  rewrite (bind_ok _ _ _ _ _ (Construct_new_ok _ _ _ (fresh_under_self _ _ Hf))).
  fold this. rewrite Hc. cbn [defined andb].
  fold (too_few_zones props). rewrite Hz.
  erewrite bind_ok; [|apply CfnResource_new_ok; fresh_node Hf].
  erewrite bind_ok; [|apply Construct_new_ok; fresh_node Hf].
  fold (wants_secret props). rewrite rendered_features_spec.
  unfold instance_children, instance_early_children.
  destruct (wants_secret props);
    destruct (truthy_number (Instance.monitoringInterval V props)).
  all: try (erewrite bind_ok;
            [|erewrite bind_ok;
              [reflexivity|apply DatabaseSecret_new_ok; fresh_node Hf]]).
  all: try (erewrite bind_ok; [|reflexivity]).
  all: try (erewrite bind_ok;
            [|erewrite bind_ok;
              [reflexivity|apply Construct_new_ok; fresh_node Hf]]).
  all: try (erewrite bind_ok; [|reflexivity]).
  all: destruct (undefined_feature props);
    [erewrite bind_err; [|reflexivity]; now rewrite <- ?app_assoc|].
  all: (erewrite bind_ok; [|reflexivity]).
  all: (erewrite bind_ok; [|apply CfnResource_new_ok; fresh_node Hf]).
  all: cbn [defined].
  all: try (erewrite bind_ok;
            [|erewrite bind_ok;
              [reflexivity|apply CfnResource_new_ok; fresh_node Hf]]).
  all: try (erewrite bind_ok; [|reflexivity]).
  all: cbn [mret M_ret]; unfold this; now rewrite <- ?app_assoc.
Qed.

Lemma DatabaseInstance_new_ok scope id
  (props : Instance.DatabaseInstanceProps V) t :
  Instance.databaseCluster V props = None ->
  fresh_under t (scope ++ [id]) ->
  too_few_zones props = false ->
  undefined_feature props = false ->
  exists inst,
    Instance.DatabaseInstance_new cfnToken V scope id props t
    = (inr inst, t ++ instance_children props (scope ++ [id]))
    /\ Instance.node inst = scope ++ [id]
    /\ Instance.instance_engine inst = Instance.engine V props
    /\ Instance.secret inst
       = (if wants_secret props
          then Some (cfnToken (scope ++ [id; "Secret"; "Resource"]) "Ref")
          else None).
Proof.
  intros Hc Hf Hz Hu.
  rewrite (DatabaseInstance_new_early scope id props t Hc Hf Hz), Hu.
  eexists. split; [reflexivity|]. repeat split.
Qed.

Lemma DatabaseInstance_new_type_error scope id
  (props : Instance.DatabaseInstanceProps V) t :
  Instance.databaseCluster V props = None ->
  fresh_under t (scope ++ [id]) ->
  too_few_zones props = false ->
  undefined_feature props = true ->
  Instance.DatabaseInstance_new cfnToken V scope id props t
  = (inl (Thrown Instance.undefined_to_string_msg),
     t ++ instance_early_children props (scope ++ [id])).
Proof.
  intros Hc Hf Hz Hu.
  now rewrite (DatabaseInstance_new_early scope id props t Hc Hf Hz), Hu.
Qed.

Lemma wants_secret_iff (props : Instance.DatabaseInstanceProps V) :
  wants_secret props = true
  <-> Instance.generateMasterUserPassword V props = Some true
      \/ (truthy_string (Instance.masterUserPassword V props) = false
          /\ ~ (truthy_string (Instance.snapshotIdentifier V props) = true
                /\ is_Some (Instance.sourceDatabaseInstance V props))).
Proof.
  unfold wants_secret.
  rewrite orb_true_iff, andb_true_iff, orb_true_iff, !negb_true_iff.
  assert (Hg : truthy_bool (Instance.generateMasterUserPassword V props) = true
               <-> Instance.generateMasterUserPassword V props = Some true).
  { destruct (Instance.generateMasterUserPassword V props) as [[]|]; simpl;
      intuition congruence. }
  assert (Hs : defined (Instance.sourceDatabaseInstance V props) = false
               <-> ~ is_Some (Instance.sourceDatabaseInstance V props)).
  { destruct (Instance.sourceDatabaseInstance V props) as [r|]; simpl; split.
    - discriminate.
    - intros H. exfalso. apply H. eauto.
    - intros _ [x Hx]. discriminate Hx.
    - reflexivity. }
  rewrite Hg, Hs.
  destruct (truthy_string (Instance.snapshotIdentifier V props));
    intuition congruence.
Qed.
End InstanceSuccess.

Lemma too_few_zones_iff {V : Type} (props : Instance.DatabaseInstanceProps V) :
  too_few_zones props = true
  <-> Instance.multiAz V props ≠ Some false
      /\ size (list_to_set
                 (map Instance.availabilityZone
                    (Instance.vpc_subnets V (Instance.vpc V props)
                       (Instance.vpcPlacement V props))) : gset string) < 2.
Proof.
  unfold too_few_zones. rewrite andb_true_iff, Nat.ltb_lt.
  destruct (Instance.multiAz V props) as [[]|]; simpl; intuition congruence.
Qed.

Lemma DatabaseInstance_new_too_few_zones
  (cfnToken : Core.Path -> string -> string) (V : Type)
  (scope : Core.Path) (id : string)
  (props : Instance.DatabaseInstanceProps V) (t : Core.Tree) :
  Instance.databaseCluster V props = None ->
  Core.has_node t (scope ++ [id]) = false ->
  too_few_zones props = true ->
  Instance.DatabaseInstance_new cfnToken V scope id props t
  = (inl (Core.Thrown Instance.multi_az_msg),
     t ++ [(scope ++ [id], Core.KConstruct)]).
Proof.
  intros Hc Hfresh Hz.
  unfold Instance.DatabaseInstance_new, Core.Construct_new.
  rewrite (bind_ok _ _ _ _ _ (addChild_ok _ _ _ _ Hfresh)), Hc.
  cbn [Core.defined andb]. fold (too_few_zones props). now rewrite Hz.
Qed.

(** X5: without [databaseCluster] the [DatabaseInstance] constructor
    throws two errors of its own.  The multi-AZ error is thrown exactly
    when [multiAz] is not [false] (it defaults to [true]) and the selected
    subnets span fewer than two availability zones; it leaves only the
    construct node.  The [TypeError] of [renderProcessorFeatures], which
    calls [toString] on every property of [processorFeatures], is thrown
    exactly when the zones suffice and a property holds [undefined]; it is
    raised while the props of the Cfn resource are evaluated, so the
    subnet group, the security group, the secret and the monitoring role
    are already attached, and the instance resource is not. *)
Theorem DatabaseInstance_new_multi_az
  (cfnToken : Core.Path -> string -> string) (V : Type)
  (scope : Core.Path) (id : string)
  (props : Instance.DatabaseInstanceProps V) (t : Core.Tree) :
  Instance.databaseCluster V props = None ->
  fresh_under t (scope ++ [id]) ->
  (forall msg,
     fst (Instance.DatabaseInstance_new cfnToken V scope id props t)
     = inl (Core.Thrown msg) ->
     msg = Instance.multi_az_msg \/ msg = Instance.undefined_to_string_msg)
  /\ (fst (Instance.DatabaseInstance_new cfnToken V scope id props t)
      = inl (Core.Thrown Instance.multi_az_msg)
      <-> Instance.multiAz V props ≠ Some false
          /\ size (list_to_set
                     (map Instance.availabilityZone
                        (Instance.vpc_subnets V (Instance.vpc V props)
                           (Instance.vpcPlacement V props))) : gset string)
             < 2)
  /\ (too_few_zones props = true ->
      Instance.DatabaseInstance_new cfnToken V scope id props t
      = (inl (Core.Thrown Instance.multi_az_msg),
         t ++ [(scope ++ [id], Core.KConstruct)]))
  /\ (fst (Instance.DatabaseInstance_new cfnToken V scope id props t)
      = inl (Core.Thrown Instance.undefined_to_string_msg)
      <-> too_few_zones props = false
          /\ exists features name,
               Instance.processorFeatures V props = Some features
               /\ (name, None) ∈ features)
  /\ (too_few_zones props = false -> undefined_feature props = true ->
      Instance.DatabaseInstance_new cfnToken V scope id props t
      = (inl (Core.Thrown Instance.undefined_to_string_msg),
         t ++ instance_early_children props (scope ++ [id]))).
Proof.
  intros Hc Hf. pose proof (fresh_under_self _ _ Hf) as Hfresh.
  assert (Hu : undefined_feature props = true
               <-> exists features name,
                     Instance.processorFeatures V props = Some features
                     /\ (name, None) ∈ features).
  { unfold undefined_feature.
    destruct (Instance.processorFeatures V props) as [features|].
    - rewrite existsb_exists. split.
      + intros ([name [v|]] & Hin & Hv); [discriminate Hv|].
        exists features, name. split; [reflexivity|].
        now apply list_elem_of_In.
      + intros (f & name & [= <-] & Hin). exists (name, None).
        split; [now apply list_elem_of_In|reflexivity].
    - split; [discriminate|]. intros (f & name & Hf' & _). discriminate. }
  split; [|split; [|split; [|split]]].
  - intros msg H.
    destruct (DatabaseInstance_new_guards cfnToken V scope id props t msg
                Hc Hfresh H) as [[_ ->]|(_ & _ & ->)]; auto.
  - rewrite <- too_few_zones_iff. split.
    + intros H.
      destruct (DatabaseInstance_new_guards cfnToken V scope id props t _
                  Hc Hfresh H) as [[Hz _]|(_ & _ & E)]; [exact Hz|].
      now destruct type_error_is_not_multi_az.
    + intros Hz.
      now rewrite (DatabaseInstance_new_too_few_zones cfnToken V scope id
                     props t Hc Hfresh Hz).
  - now apply DatabaseInstance_new_too_few_zones.
  - rewrite <- Hu. split.
    + intros H.
      destruct (DatabaseInstance_new_guards cfnToken V scope id props t _
                  Hc Hfresh H) as [[_ E]|(Hz & Hu' & _)]; [|auto].
      now destruct type_error_is_not_multi_az.
    + intros [Hz Hu'].
      now rewrite (DatabaseInstance_new_type_error cfnToken V scope id
                     props t Hc Hf Hz Hu').
  - now apply DatabaseInstance_new_type_error.
Qed.

Lemma DatabaseInstance_new_multi_az_witness :
  fst (Instance.DatabaseInstance_new sample_cfnToken unit ["Stack"] "Db"
         (sample_standalone_props single_zone_vpc None) [])
  = inl (Core.Thrown Instance.multi_az_msg)
  /\ Instance.DatabaseInstance_new sample_cfnToken unit ["Stack"] "Db"
       (with_processorFeatures
          [("coreCount", Some 4%Z); ("threadsPerCore", None)]
          (sample_standalone_props sample_vpc None)) []
     = (inl (Core.Thrown "Cannot read property 'toString' of undefined"),
        [(["Stack"; "Db"], Core.KConstruct);
         (["Stack"; "Db"; "SubnetGroup"],
           Core.KResource "AWS::RDS::DBSubnetGroup");
         (["Stack"; "Db"; "SecurityGroup"], Core.KConstruct);
         (["Stack"; "Db"; "Secret"], Core.KConstruct);
         (["Stack"; "Db"; "Secret"; "Resource"], Core.KConstruct)]).
Proof.
  split.
  - apply (proj1 (proj2 (DatabaseInstance_new_multi_az sample_cfnToken unit
                           ["Stack"] "Db"
                           (sample_standalone_props single_zone_vpc None) []
                           eq_refl (fresh_under_nil _)))).
    split; [discriminate|]. vm_compute. lia.
  - apply (proj2 (proj2 (proj2 (proj2
             (DatabaseInstance_new_multi_az sample_cfnToken unit
                ["Stack"] "Db"
                (with_processorFeatures
                   [("coreCount", Some 4%Z); ("threadsPerCore", None)]
                   (sample_standalone_props sample_vpc None)) []
                eq_refl (fresh_under_nil _)))))); reflexivity.
Defined.

(** X6: a standalone [DatabaseInstance] whose subtree is free, whose
    zones suffice and whose [processorFeatures] hold no [undefined] is
    constructed.  It attaches exactly the subnet group, the security
    group, the instance resource, the monitoring role when
    [monitoringInterval] is set, and the secret with its attachment
    exactly when [generateMasterUserPassword] is set, or no master
    password is given and the props do not give both a snapshot identifier
    and a source instance.  It declares no output.  Conversely a
    successful construction means that the zones sufficed and that no
    processor feature held [undefined]. *)
Theorem DatabaseInstance_new_standalone
  (cfnToken : Core.Path -> string -> string) (V : Type)
  (scope : Core.Path) (id : string)
  (props : Instance.DatabaseInstanceProps V) (t : Core.Tree) :
  Instance.databaseCluster V props = None ->
  fresh_under t (scope ++ [id]) ->
  (too_few_zones props = false -> undefined_feature props = false ->
   exists inst,
     Instance.DatabaseInstance_new cfnToken V scope id props t
     = (inr inst, t ++ instance_children props (scope ++ [id]))
     /\ Instance.node inst = scope ++ [id]
     /\ Instance.instance_engine inst = Instance.engine V props
     /\ Instance.secret inst
        = (if wants_secret props
           then Some (cfnToken (scope ++ [id; "Secret"; "Resource"]) "Ref")
           else None)
     /\ Core.outputs (t ++ instance_children props (scope ++ [id]))
        = Core.outputs t)
  /\ (wants_secret props = true
      <-> Instance.generateMasterUserPassword V props = Some true
          \/ (Core.truthy_string (Instance.masterUserPassword V props) = false
              /\ ~ (Core.truthy_string (Instance.snapshotIdentifier V props)
                    = true
                    /\ is_Some (Instance.sourceDatabaseInstance V props))))
  /\ (forall inst t',
        Instance.DatabaseInstance_new cfnToken V scope id props t
        = (inr inst, t') ->
        too_few_zones props = false /\ undefined_feature props = false).
Proof.
  intros Hc Hf. split; [|split].
  - intros Hz Hu.
    destruct (DatabaseInstance_new_ok cfnToken V scope id props t Hc Hf Hz Hu)
      as (inst & H1 & H2 & H3 & H4).
    exists inst. repeat split; try assumption.
    unfold Core.outputs, instance_children. rewrite flat_map_app.
    destruct (wants_secret props);
      destruct (Core.truthy_number (Instance.monitoringInterval V props));
      simpl; now rewrite app_nil_r.
  - apply wants_secret_iff.
  - intros inst t' H. destruct (too_few_zones props) eqn:Hz.
    + exfalso.
      rewrite (DatabaseInstance_new_too_few_zones cfnToken V scope id props t
                 Hc (fresh_under_self _ _ Hf) Hz) in H.
      discriminate H.
    + split; [reflexivity|].
      destruct (undefined_feature props) eqn:Hu; [|reflexivity].
      exfalso.
      rewrite (DatabaseInstance_new_type_error cfnToken V scope id props t
                 Hc Hf Hz Hu) in H.
      discriminate H.
Qed.

Lemma DatabaseInstance_new_standalone_witness :
  exists inst,
    Instance.DatabaseInstance_new sample_cfnToken unit ["Stack"] "Db"
      (with_processorFeatures [("coreCount", Some 4%Z)]
         (sample_standalone_props sample_vpc None)) []
    = (inr inst,
       [(["Stack"; "Db"], Core.KConstruct);
        (["Stack"; "Db"; "SubnetGroup"],
          Core.KResource "AWS::RDS::DBSubnetGroup");
        (["Stack"; "Db"; "SecurityGroup"], Core.KConstruct);
        (["Stack"; "Db"; "Secret"], Core.KConstruct);
        (["Stack"; "Db"; "Secret"; "Resource"], Core.KConstruct);
        (["Stack"; "Db"; "Resource"], Core.KResource "AWS::RDS::DBInstance");
        (["Stack"; "Db"; "SecretAttachement"],
          Core.KResource "AWS::SecretsManager::SecretTargetAttachment")]).
Proof.
  destruct (proj1 (DatabaseInstance_new_standalone sample_cfnToken unit
                     ["Stack"] "Db"
                     (with_processorFeatures [("coreCount", Some 4%Z)]
                        (sample_standalone_props sample_vpc None))
                     [] eq_refl (fresh_under_nil _)) eq_refl eq_refl)
    as (inst & H & _).
  exists inst. exact H.
Defined.

(** ** Single user rotation *)
Lemma getApplicationLocation_supported (e : Instance.DatabaseInstanceEngine) :
  exists l, Rotation.getApplicationLocation (Instance.engine_value e) = inr l.
Proof. destruct e; eexists; vm_compute; reflexivity. Qed.

(** X7: [getApplicationLocation] never throws for a member of
    [DatabaseInstanceEngine]: aurora, aurora-mysql and mysql use the MySQL
    rotation application, aurora-postgresql and postgres the PostgreSQL
    one, mariadb the MariaDB one, the oracle editions the Oracle one and
    the sqlserver editions the SQL Server one. *)
Theorem getApplicationLocation_engines (e : Instance.DatabaseInstanceEngine) :
  Rotation.getApplicationLocation (Instance.engine_value e)
  = inr match e with
        | Instance.Aurora | Instance.AuroraMysql | Instance.Mysql =>
            Rotation.MysqlRotationSingleUser
        | Instance.AuroraPostgresql | Instance.Postgres =>
            Rotation.PostgresRotationSingleUser
        | Instance.MariaDb => Rotation.MariaDbRotationSingleUser
        | Instance.OracleEE | Instance.OracleSE2 | Instance.OracleSE1
        | Instance.OracleSE => Rotation.OracleRotationSingleUser
        | Instance.SqlServerEE | Instance.SqlServerSE | Instance.SqlServerEX
        | Instance.SqlServerWeb => Rotation.SqlServerRotationSingleUser
        end.
Proof. destruct e; vm_compute; reflexivity. Qed.

Section RotationFacts.
Import Core.
Variable cfnToken : Path -> string -> string.
Variable V : Type.
Variable uniqueId : Path -> string.
Variable allowDefaultPortFrom : Instance.Connections -> Path -> M unit.

Local Abbreviation rotate :=
  (Rotation.addMasterPasswordRotation V uniqueId allowDefaultPortFrom).

Lemma addMasterPasswordRotation_no_secret
  (this : Instance.DatabaseInstance) vpc placement rid days loc t :
  Instance.secret this = None ->
  has_node t (Instance.node this ++ [rid]) = false ->
  rotate this vpc placement rid days loc t
  = (inl (Thrown Rotation.no_secret_msg),
     t ++ [(Instance.node this ++ [rid], KConstruct)]).
Proof.
  intros Hs Hfresh.
  unfold Rotation.addMasterPasswordRotation, Rotation.RotationSingleUser_new.
  unfold mbind at 1, M_bind at 1.
  rewrite (bind_ok _ _ _ _ _ (Construct_new_ok _ _ _ Hfresh)).
  cbn [Rotation.instance Rotation.cluster defined andb Rotation.target_secret].
  now rewrite Hs.
Qed.

Lemma addMasterPasswordRotation_with_secret
  (this : Instance.DatabaseInstance) vpc placement rid days loc arn msg :
  Instance.secret this = Some arn ->
  (forall c sg, never_throws (Thrown msg) (allowDefaultPortFrom c sg)) ->
  never_throws (Thrown msg) (rotate this vpc placement rid days loc).
Proof.
  intros Hs Hallow.
  unfold Rotation.addMasterPasswordRotation, Rotation.RotationSingleUser_new.
  cbn [Rotation.instance Rotation.cluster defined andb Rotation.target_secret
       Rotation.serverlessApplicationLocation].
  rewrite Hs.
  repeat never_step; try apply Hallow.
  apply never_lift. cbn [Rotation.target_engine].
  destruct (getApplicationLocation_supported (Instance.instance_engine this))
    as [l ->].
  discriminate.
Qed.
End RotationFacts.

(** X8: [addMasterPasswordRotation] on a freshly constructed standalone
    [DatabaseInstance] (free subtree, sufficient zones, no [undefined]
    processor feature).  When the constructor generated no secret, that
    is when [generateMasterUserPassword] is not set and either a master
    password is given or both a snapshot identifier and a source instance
    are given, it throws "There is no secret associated with this
    instance." and leaves only the rotation construct node.  When the
    constructor generated a secret, the rotation construct throws no
    error of its own, whatever the engine. *)
Theorem addMasterPasswordRotation_after_new
  (cfnToken : Core.Path -> string -> string) (V : Type)
  (uniqueId : Core.Path -> string)
  (allowDefaultPortFrom : Instance.Connections -> Core.Path -> Core.M unit)
  (scope : Core.Path) (id : string)
  (props : Instance.DatabaseInstanceProps V) (t : Core.Tree)
  (rid : string) (days : option Z)
  (loc : option Rotation.ServerlessApplicationLocation) :
  Instance.databaseCluster V props = None ->
  fresh_under t (scope ++ [id]) ->
  too_few_zones props = false ->
  undefined_feature props = false ->
  exists inst,
    Instance.DatabaseInstance_new cfnToken V scope id props t
    = (inr inst, t ++ instance_children props (scope ++ [id]))
    /\ (Instance.secret inst = None
        <-> Instance.generateMasterUserPassword V props ≠ Some true
            /\ (Core.truthy_string (Instance.masterUserPassword V props)
                = true
                \/ (Core.truthy_string (Instance.snapshotIdentifier V props)
                    = true
                    /\ is_Some (Instance.sourceDatabaseInstance V props))))
    /\ (Instance.secret inst = None ->
        forall t1,
          Core.has_node t1 (scope ++ [id; rid]) = false ->
          Rotation.addMasterPasswordRotation V uniqueId
            allowDefaultPortFrom inst (Instance.vpc V props)
            (Instance.vpcPlacement V props) rid days loc t1
          = (inl (Core.Thrown Rotation.no_secret_msg),
             t1 ++ [(scope ++ [id; rid], Core.KConstruct)]))
    /\ (Instance.secret inst ≠ None ->
        forall msg,
          (forall c sg,
             never_throws (Core.Thrown msg) (allowDefaultPortFrom c sg)) ->
          never_throws (Core.Thrown msg)
            (Rotation.addMasterPasswordRotation V uniqueId
               allowDefaultPortFrom inst (Instance.vpc V props)
               (Instance.vpcPlacement V props) rid days loc)).
Proof.
  intros Hc Hf Hz Hu.
  destruct (DatabaseInstance_new_ok cfnToken V scope id props t Hc Hf Hz Hu)
    as (inst & H1 & H2 & H3 & H4).
  exists inst. split; [exact H1|]. split; [|split].
  - rewrite H4. pose proof (wants_secret_iff V props) as Hw.
    destruct (wants_secret props).
    + split; [discriminate|]. intros [Hg Hp]. exfalso.
      destruct (proj1 Hw eq_refl) as [Hg'|[Hp' Hs]]; [contradiction|].
      destruct Hp as [Hp|Hs']; [congruence|contradiction].
    + split; [|reflexivity]. intros _.
      assert (Hn : ~ (Instance.generateMasterUserPassword V props = Some true
                      \/ (Core.truthy_string
                            (Instance.masterUserPassword V props) = false
                          /\ ~ (Core.truthy_string
                                  (Instance.snapshotIdentifier V props) = true
                                /\ is_Some
                                     (Instance.sourceDatabaseInstance V props))))).
      { intros H. apply Hw in H. discriminate H. }
      split; [tauto|].
      destruct (Core.truthy_string (Instance.masterUserPassword V props));
        [now left|right].
      destruct (Core.truthy_string (Instance.snapshotIdentifier V props)),
        (Instance.sourceDatabaseInstance V props) as [r|];
        try (split; [reflexivity|eauto]);
        exfalso; apply Hn; right; split; try reflexivity;
        intros [E1 [x E2]]; discriminate.
  - intros Hs t1 Hfresh.
    replace (scope ++ [id; rid]) with (Instance.node inst ++ [rid]) in *
      by (rewrite H2, <- app_assoc; reflexivity).
    now apply addMasterPasswordRotation_no_secret.
  - intros Hs msg Hallow.
    destruct (Instance.secret inst) as [arn|] eqn:E; [|contradiction].
    eapply addMasterPasswordRotation_with_secret; eassumption.
Qed.

Lemma addMasterPasswordRotation_after_new_witness :
  exists inst t1,
    Instance.DatabaseInstance_new sample_cfnToken unit ["Stack"] "Db"
      (sample_standalone_props sample_vpc (Some "s3cret")) [] = (inr inst, t1)
    /\ Rotation.addMasterPasswordRotation unit
         (String.concat "") (fun _ _ => mret tt) inst sample_vpc None
         "Rotation" None None t1
       = (inl (Core.Thrown Rotation.no_secret_msg),
          t1 ++ [(["Stack"; "Db"; "Rotation"], Core.KConstruct)]).
Proof.
  destruct (addMasterPasswordRotation_after_new sample_cfnToken unit
              (String.concat "") (fun _ _ => mret tt) ["Stack"] "Db"
              (sample_standalone_props sample_vpc (Some "s3cret")) []
              "Rotation" None None eq_refl (fresh_under_nil _) eq_refl
              eq_refl)
    as (inst & H1 & Hiff & H2 & _).
  exists inst. eexists. split; [exact H1|].
  apply H2; [|reflexivity].
  apply Hiff. split; [discriminate|]. now left.
Defined.

(** ** Database clusters *)
Section ClusterFacts.
Import Core.
Variable cfnToken : Path -> string -> string.
Variable V : Type.

Lemma has_node_false_iff l p :
  has_node l p = false <-> Forall (fun n => fst n ≠ p) l.
Proof.
  unfold has_node. induction l as [|n l IH]; simpl.
  - split; [constructor|reflexivity].
  - rewrite orb_false_iff, IH, Forall_cons. unfold path_eqb.
    rewrite bool_decide_eq_false. reflexivity.
Qed.

Lemma instance_name_ne_literal this s (q : list string) :
  match q with
  | [] => True
  | [x] => String.get 0 x ≠ Some "I"%char
  | _ => True
  end ->
  this ++ q ≠ this ++ ["Instance" +:+ s].
Proof.
  intros Hq E. apply app_inv_head in E. destruct q as [|x [|y q]].
  - discriminate E.
  - injection E as ->. now apply Hq.
  - discriminate E.
Qed.

Lemma this_ne_child (this : Path) x : this ≠ this ++ [x].
Proof.
  intros E. apply (f_equal length) in E. rewrite length_app in E.
  simpl in E. lia.
Qed.

Lemma cluster_children_no_instance
  (props : DatabaseCluster.DatabaseClusterProps V) this s :
  has_node (cluster_children props this) (this ++ ["Instance" +:+ s]) = false.
Proof.
  apply has_node_false_iff. unfold cluster_children.
  repeat (apply Forall_app; split);
    repeat match goal with
           | |- Forall _ (match ?o with Some _ => _ | None => _ end) =>
               destruct o
           | |- Forall _ (if ?b then _ else _) => destruct b
           | |- Forall _ (_ :: _) => apply Forall_cons; split
           | |- Forall _ [] => apply List.Forall_nil
           end; cbn [fst];
    try (apply instance_name_ne_literal; simpl; discriminate || exact I);
    try apply this_ne_child.
Qed.

Lemma instance_name_inj (a b : nat) :
  "Instance" +:+ pretty a = "Instance" +:+ pretty b -> a = b.
Proof.
  intros E. apply (inj (String.app "Instance")) in E.
  now apply (inj pretty) in E.
Qed.

Lemma addInstances_ok this (props : DatabaseCluster.DatabaseClusterProps V)
  count i tcur :
  (forall k : nat, i < k ->
     has_node tcur (this ++ ["Instance" +:+ pretty k]) = false) ->
  DatabaseCluster.addInstances V this props count i tcur
  = (inr (map (cluster_instance props this) (seq (S i) count)),
     tcur ++ map (instance_node this) (seq (S i) count)).
Proof.
  revert i tcur. induction count as [|count IH]; intros i tcur Hfresh.
  - simpl. now rewrite app_nil_r.
  - cbn [DatabaseCluster.addInstances]. rewrite Nat.add_1_r.
    rewrite (bind_ok _ _ _ _ _
               (CfnResource_new_ok _ _ _ _ (Hfresh (S i) (Nat.lt_succ_diag_r i)))).
    erewrite bind_ok; [|apply IH].
    + cbn [mret M_ret seq map]. now rewrite <- app_assoc.
    + intros k Hk. rewrite has_node_snoc, Hfresh by lia.
      rewrite path_eqb_app. unfold path_eqb.
      rewrite bool_decide_eq_false_2; [reflexivity|].
      intros E. apply (inj (fun x => [x])) in E.
      apply instance_name_inj in E. lia.
Qed.

Lemma instance_nodes_no_literal this l (q : list string) :
  match q with
  | [] => True
  | [x] => String.get 0 x ≠ Some "I"%char
  | _ => True
  end ->
  has_node (map (instance_node this) l) (this ++ q) = false.
Proof.
  intros Hq. apply has_node_false_iff, Forall_forall. intros n Hn.
  apply list_elem_of_In, in_map_iff in Hn as (k & <- & _). simpl.
  intros E. symmetry in E. revert E. now apply instance_name_ne_literal.
Qed.

Lemma DatabaseCluster_new_run scope id
  (props : DatabaseCluster.DatabaseClusterProps V) t :
  fresh_under t (scope ++ [id]) ->
  2 <= length (cluster_subnets props) ->
  if (cluster_instance_count props <? 1)%Z
  then DatabaseCluster.DatabaseCluster_new cfnToken V scope id props t
       = (inl (Thrown DatabaseCluster.at_least_one_instance_msg),
          t ++ cluster_children props (scope ++ [id]))
  else exists c,
    DatabaseCluster.DatabaseCluster_new cfnToken V scope id props t
    = (inr c,
       t ++ cluster_children props (scope ++ [id])
         ++ map (instance_node (scope ++ [id]))
              (seq 1 (Z.to_nat (cluster_instance_count props)))
         ++ cluster_attachment props (scope ++ [id]))
    /\ DatabaseCluster.node c = scope ++ [id]
    /\ DatabaseCluster.cluster_instances c
       = map (cluster_instance props (scope ++ [id]))
           (seq 1 (Z.to_nat (cluster_instance_count props)))
    /\ DatabaseCluster.secret c
       = (if truthy_string
               (DatabaseCluster.password (DatabaseCluster.masterUser V props))
          then None
          else Some (cfnToken (scope ++ [id; "Secret"; "Resource"]) "Ref"))
    /\ DatabaseCluster.instanceIdentifiers c
       = map (fun i => cfnToken (DatabaseCluster.instance_path i) "Ref")
           (DatabaseCluster.cluster_instances c)
    /\ Instance.securityGroups (DatabaseCluster.connections c)
       = [match DatabaseCluster.securityGroup V
                  (DatabaseCluster.instanceProps V props) with
          | Some g => g
          | None => scope ++ [id; "SecurityGroup"]
          end].
Proof.
  intros Hf Hlen. set (this := scope ++ [id]) in *.
  assert (Hinst : forall k : nat, 0 < k ->
            has_node (t ++ cluster_children props this)
              (this ++ ["Instance" +:+ pretty k]) = false).
  { intros k _.
    now rewrite has_node_app, Hf, cluster_children_no_instance. }
  assert (Hatt : has_node
                   ((t ++ cluster_children props this)
                      ++ map (instance_node this)
                           (seq 1 (Z.to_nat (cluster_instance_count props))))
                   (this ++ ["SecretAttachement"]) = false).
  { rewrite !has_node_app, Hf, instance_nodes_no_literal
      by (simpl; discriminate).
    unfold cluster_children.
    destruct (DatabaseCluster.securityGroup V
                (DatabaseCluster.instanceProps V props));
      destruct (truthy_string
                  (DatabaseCluster.password
                     (DatabaseCluster.masterUser V props)));
      fresh_node Hf. }
  unfold DatabaseCluster.DatabaseCluster_new. fold (cluster_subnets props).
  rewrite (bind_ok _ _ _ _ _
             (Construct_new_ok _ _ _ (fresh_under_self _ _ Hf))).
  fold this. fold (cluster_instance_count props).
  apply Nat.ltb_ge in Hlen. rewrite Hlen.
  erewrite bind_ok; [|apply CfnResource_new_ok; fresh_node Hf].
  revert Hinst Hatt. unfold cluster_children, cluster_attachment.
  destruct (DatabaseCluster.securityGroup V
              (DatabaseCluster.instanceProps V props)) as [g|];
    destruct (truthy_string
                (DatabaseCluster.password
                   (DatabaseCluster.masterUser V props)));
    cbn [negb]; intros Hinst Hatt.
  all: try (erewrite bind_ok; [|reflexivity]).
  all: try (erewrite bind_ok; [|apply Construct_new_ok; fresh_node Hf]).
  all: try (erewrite bind_ok; [|reflexivity]).
  all: try (erewrite bind_ok;
            [|erewrite bind_ok;
              [reflexivity|apply DatabaseSecret_new_ok; fresh_node Hf]]).
  all: try (erewrite bind_ok; [|reflexivity]).
  all: (erewrite bind_ok; [|apply CfnResource_new_ok; fresh_node Hf]).
  all: destruct (cluster_instance_count props <? 1)%Z;
    [unfold throw; now rewrite <- ?app_assoc|].
  all: (erewrite bind_ok;
        [|apply addInstances_ok; intros k Hk;
          etransitivity; [|exact (Hinst k Hk)]; f_equal;
          now rewrite <- ?app_assoc]).
  all: cbn [defined].
  all: try (erewrite bind_ok; [|reflexivity]).
  all: try (erewrite bind_ok;
            [|erewrite bind_ok;
              [reflexivity
              |apply CfnResource_new_ok;
               etransitivity; [|exact Hatt]; f_equal;
               now rewrite <- ?app_assoc]]).
  all: eexists; (split; [cbn [mret M_ret];
                         now rewrite ?app_nil_r, <- ?app_assoc|]).
  all: repeat split; cbn; unfold this; now rewrite <- ?app_assoc.
Qed.
End ClusterFacts.

(** X9: the two guards of the [DatabaseCluster] constructor.  With fewer
    than two subnets it throws "Cluster requires at least 2 subnets, got N"
    before any child is created.  The number of instances is only checked
    after the subnet group, the security group, the secret and the
    [AWS::RDS::DBCluster] resource have been attached: a count below one
    throws "At least one instance is required" and leaves those nodes in
    the tree. *)
Theorem DatabaseCluster_new_guards
  (cfnToken : Core.Path -> string -> string) (V : Type)
  (scope : Core.Path) (id : string)
  (props : DatabaseCluster.DatabaseClusterProps V) (t : Core.Tree) :
  fresh_under t (scope ++ [id]) ->
  (length (cluster_subnets props) < 2 ->
   DatabaseCluster.DatabaseCluster_new cfnToken V scope id props t
   = (inl (Core.Thrown ("Cluster requires at least 2 subnets, got "
                        +:+ pretty (length (cluster_subnets props)))),
      t ++ [(scope ++ [id], Core.KConstruct)]))
  /\ (2 <= length (cluster_subnets props) ->
      (cluster_instance_count props < 1)%Z ->
      DatabaseCluster.DatabaseCluster_new cfnToken V scope id props t
      = (inl (Core.Thrown DatabaseCluster.at_least_one_instance_msg),
         t ++ cluster_children props (scope ++ [id]))).
Proof.
  intros Hf. split.
  - intros Hlen. unfold DatabaseCluster.DatabaseCluster_new.
    fold (cluster_subnets props).
    rewrite (bind_ok _ _ _ _ _
               (Construct_new_ok _ _ _ (fresh_under_self _ _ Hf))).
    apply Nat.ltb_lt in Hlen. now rewrite Hlen.
  - intros Hlen Hn.
    pose proof (DatabaseCluster_new_run cfnToken V scope id props t Hf Hlen)
      as H.
    apply Z.ltb_lt in Hn. now rewrite Hn in H.
Qed.

Lemma DatabaseCluster_new_guards_witness :
  DatabaseCluster.DatabaseCluster_new sample_cfnToken unit ["Stack"] "Db"
    (sample_cluster_props one_subnet_vpc None None) []
  = (inl (Core.Thrown "Cluster requires at least 2 subnets, got 1"),
     [(["Stack"; "Db"], Core.KConstruct)])
  /\ DatabaseCluster.DatabaseCluster_new sample_cfnToken unit ["Stack"] "Db"
       (sample_cluster_props sample_vpc (Some 0%Z) None) []
     = (inl (Core.Thrown "At least one instance is required"),
        [(["Stack"; "Db"], Core.KConstruct);
         (["Stack"; "Db"; "Subnets"], Core.KResource "AWS::RDS::DBSubnetGroup");
         (["Stack"; "Db"; "SecurityGroup"], Core.KConstruct);
         (["Stack"; "Db"; "Secret"], Core.KConstruct);
         (["Stack"; "Db"; "Secret"; "Resource"], Core.KConstruct);
         (["Stack"; "Db"; "Resource"], Core.KResource "AWS::RDS::DBCluster")]).
Proof.
  split.
  - apply (DatabaseCluster_new_guards sample_cfnToken unit ["Stack"] "Db"
             (sample_cluster_props one_subnet_vpc None None) []
             (fresh_under_nil _)).
    simpl. lia.
  - apply (DatabaseCluster_new_guards sample_cfnToken unit ["Stack"] "Db"
             (sample_cluster_props sample_vpc (Some 0%Z) None) []
             (fresh_under_nil _)).
    + simpl. lia.
    + reflexivity.
Defined.

(** X10: a [DatabaseCluster] with at least two subnets and an instance
    count of at least one (two when [instances] is omitted) is constructed
    without error.  It creates exactly that many [AWS::RDS::DBInstance]
    children, named Instance1 .. InstanceN in this order after the cluster
    resource, each with the identifier derived from
    [instanceIdentifierBase], else from [clusterIdentifier], else none;
    [instanceIdentifiers] lists their references in the same order.  The
    secret and its attachment exist exactly when no usable master password
    was given, and a security group is created only when none is supplied. *)
Theorem DatabaseCluster_new_instances
  (cfnToken : Core.Path -> string -> string) (V : Type)
  (scope : Core.Path) (id : string)
  (props : DatabaseCluster.DatabaseClusterProps V) (t : Core.Tree) :
  fresh_under t (scope ++ [id]) ->
  2 <= length (cluster_subnets props) ->
  (1 <= cluster_instance_count props)%Z ->
  exists c,
    DatabaseCluster.DatabaseCluster_new cfnToken V scope id props t
    = (inr c,
       t ++ cluster_children props (scope ++ [id])
         ++ map (instance_node (scope ++ [id]))
              (seq 1 (Z.to_nat (cluster_instance_count props)))
         ++ cluster_attachment props (scope ++ [id]))
    /\ DatabaseCluster.cluster_instances c
       = map (cluster_instance props (scope ++ [id]))
           (seq 1 (Z.to_nat (cluster_instance_count props)))
    /\ DatabaseCluster.instanceIdentifiers c
       = map (fun k => cfnToken (scope ++ [id; "Instance" +:+ pretty k]) "Ref")
           (seq 1 (Z.to_nat (cluster_instance_count props)))
    /\ 1 <= length (DatabaseCluster.instanceIdentifiers c)
    /\ DatabaseCluster.secret c
       = (if Core.truthy_string
               (DatabaseCluster.password (DatabaseCluster.masterUser V props))
          then None
          else Some (cfnToken (scope ++ [id; "Secret"; "Resource"]) "Ref")).
Proof.
  intros Hf Hlen Hn.
  pose proof (DatabaseCluster_new_run cfnToken V scope id props t Hf Hlen)
    as H.
  apply Z.ltb_ge in Hn as Hn'. rewrite Hn' in H.
  destruct H as (c & H1 & _ & H3 & H4 & H5 & _).
  assert (Hids : DatabaseCluster.instanceIdentifiers c
                 = map (fun k => cfnToken
                                   (scope ++ [id; "Instance" +:+ pretty k])
                                   "Ref")
                     (seq 1 (Z.to_nat (cluster_instance_count props)))).
  { rewrite H5, H3, map_map. apply map_ext. intros k. simpl.
    now rewrite <- app_assoc. }
  exists c. repeat split; try assumption.
  rewrite Hids, length_map, length_seq. lia.
Qed.

Lemma DatabaseCluster_new_instances_witness :
  exists c,
    DatabaseCluster.DatabaseCluster_new sample_cfnToken unit ["Stack"] "Db"
      (sample_cluster_props sample_vpc None (Some "s3cret")) []
    = (inr c,
       [(["Stack"; "Db"], Core.KConstruct);
        (["Stack"; "Db"; "Subnets"], Core.KResource "AWS::RDS::DBSubnetGroup");
        (["Stack"; "Db"; "SecurityGroup"], Core.KConstruct);
        (["Stack"; "Db"; "Resource"], Core.KResource "AWS::RDS::DBCluster");
        (["Stack"; "Db"; "Instance1"], Core.KResource "AWS::RDS::DBInstance");
        (["Stack"; "Db"; "Instance2"], Core.KResource "AWS::RDS::DBInstance")])
    /\ map DatabaseCluster.dbInstanceIdentifier
         (DatabaseCluster.cluster_instances c)
       = [Some "dbinstance1"; Some "dbinstance2"].
Proof.
  destruct (DatabaseCluster_new_instances sample_cfnToken unit ["Stack"] "Db"
              (sample_cluster_props sample_vpc None (Some "s3cret")) []
              (fresh_under_nil _))
    as (c & H1 & H2 & _).
  - simpl. lia.
  - vm_compute. discriminate.
  - exists c. split; [exact H1|]. rewrite H2. reflexivity.
Defined.

(** ** DMS identifiers: certificates and replication instances *)
Section IdentifierFamily.
Import Regex ReplicationTask.
Local Open Scope char_scope.

Variable s : list ascii.
Variables (first body : regex) (bad_first : ascii -> bool).
Variable maxlen : option nat.
Hypothesis first_ends : forall j,
  In j (ends s first 0)
  <-> j = 1 /\ exists c, s !! 0 = Some c /\ bad_first c = true.
Hypothesis body_ends : forall j,
  In j (ends s body 0)
  <-> length_ok maxlen j = true /\ run_ok s ident_char 0 j.

Lemma length_ok_pos n : length_ok maxlen n = true -> 1 <= n.
Proof.
  unfold length_ok. rewrite andb_true_iff, Nat.leb_le. tauto.
Qed.

Lemma identifier_family_shape :
  (exists i j, i <= length s
     /\ In j (ends s
                (Seq Bol
                (Seq (NegAhead first)
                (Seq (NegAhead (Seq (Star AnyChar) (Seq (Lit "-") (Lit "-"))))
                (Seq body
                (Seq (NegBehind (Lit "-")) Eol))))) i))
  <-> length_ok maxlen (length s) = true
      /\ run_ok s ident_char 0 (length s)
      /\ (forall c, s !! 0 = Some c -> bad_first c = false)
      /\ (forall c, s !! (length s - 1) = Some c -> is_hyphen c = false)
      /\ (forall k c1 c2, s !! k = Some c1 -> s !! S k = Some c2 ->
            is_hyphen c1 && is_hyphen c2 = false).
Proof.
  split.
  - intros (i & j & _ & H).
    apply in_ends_seq in H as (k1 & H1 & H).
    apply in_ends_bol in H1 as (-> & ->).
    apply in_ends_seq in H as (k2 & H2 & H).
    apply in_ends_neg_ahead in H2 as (-> & Hfirst).
    apply in_ends_seq in H as (k3 & H3 & H).
    apply in_ends_neg_ahead in H3 as (-> & Hdouble).
    apply in_ends_seq in H as (k4 & H4 & H).
    apply body_ends in H4 as (Hlen & Hrun).
    apply in_ends_seq in H as (k5 & H5 & H).
    apply in_ends_neg_behind in H5 as (-> & Hlast).
    apply in_ends_eol in H as (-> & ->).
    pose proof (length_ok_pos _ Hlen) as Hpos.
    split; [exact Hlen|]. split; [exact Hrun|]. split; [|split].
    + intros c Hc. destruct (bad_first c) eqn:E; [|reflexivity].
      exfalso. apply (Hfirst 1). apply first_ends. eauto.
    + intros c Hc. destruct (is_hyphen c) eqn:E; [|reflexivity].
      exfalso. apply (Hlast (length s - 1)); [lia|].
      apply in_ends_lit. split; [lia|]. exists c. now rewrite eqb_hyphen.
    + intros k c1 c2 Hc1 Hc2.
      destruct (is_hyphen c1 && is_hyphen c2) eqn:E; [|reflexivity].
      apply andb_true_iff in E as [E1 E2].
      exfalso. apply (Hdouble (S (S k))). apply in_double_hyphen.
      exists k, c1, c2. split; [reflexivity|]. split; [|auto].
      eapply run_ok_weaken; [exact ident_char_not_terminator| |exact Hrun].
      apply lookup_lt_Some in Hc1. lia.
  - intros (Hlen & Hrun & Hfirst & Hlast & Hdouble).
    pose proof (length_ok_pos _ Hlen) as Hpos.
    exists 0, (length s). split; [lia|].
    apply in_ends_seq. exists 0. split; [now apply in_ends_bol|].
    apply in_ends_seq. exists 0. split.
    { apply in_ends_neg_ahead. split; [reflexivity|]. intros k Hk.
      apply first_ends in Hk as (_ & c & Hc & Hp).
      rewrite (Hfirst c Hc) in Hp. discriminate. }
    apply in_ends_seq. exists 0. split.
    { apply in_ends_neg_ahead. split; [reflexivity|]. intros k Hk.
      apply in_double_hyphen in Hk
        as (k0 & c1 & c2 & _ & _ & Hc1 & Hc2 & E1 & E2).
      specialize (Hdouble k0 c1 c2 Hc1 Hc2).
      rewrite E1, E2 in Hdouble. discriminate. }
    apply in_ends_seq. exists (length s). split.
    { apply body_ends. split; assumption. }
    apply in_ends_seq. exists (length s). split; [|now apply in_ends_eol].
    apply in_ends_neg_behind. split; [reflexivity|]. intros k Hk Hin.
    apply in_ends_lit in Hin as (Hk' & c & Hc & He).
    assert (k = length s - 1) as -> by lia.
    rewrite eqb_hyphen, (Hlast c Hc) in He. discriminate.
Qed.
End IdentifierFamily.

Lemma identifier_family_check (first body : Regex.regex)
  (bad_first : ascii -> bool) (maxlen : option nat) (str : string) :
  (forall j,
     In j (Regex.ends (list_ascii_of_string str) first 0)
     <-> j = 1 /\ exists c, list_ascii_of_string str !! 0 = Some c
                            /\ bad_first c = true) ->
  (forall j,
     In j (Regex.ends (list_ascii_of_string str) body 0)
     <-> length_ok maxlen j = true
         /\ run_ok (list_ascii_of_string str) ident_char 0 j) ->
  Regex.test
    (Regex.Seq Regex.Bol
    (Regex.Seq (Regex.NegAhead first)
    (Regex.Seq (Regex.NegAhead
                  (Regex.Seq (Regex.Star Regex.AnyChar)
                     (Regex.Seq (Regex.Lit "-") (Regex.Lit "-"))))
    (Regex.Seq body
    (Regex.Seq (Regex.NegBehind (Regex.Lit "-")) Regex.Eol))))) str
  = identifier_check bad_first maxlen str.
Proof.
  intros Hfirst Hbody. apply eq_true_iff_eq.
  rewrite test_iff,
    (identifier_family_shape _ first body bad_first maxlen Hfirst Hbody).
  unfold identifier_check. set (s := list_ascii_of_string str).
  rewrite !andb_true_iff.
  rewrite (forallb_run_ok s ident_char), no_double_hyphen_iff.
  rewrite head_lookup, last_lookup, Nat.sub_1_r.
  split.
  - intros (Hlen & Hrun & Hf & Hlast & Hdouble).
    repeat split; try assumption.
    + destruct (s !! 0) as [c|]; [|reflexivity].
      now rewrite (Hf c eq_refl).
    + destruct (s !! pred (length s)) as [c|]; [|reflexivity].
      now rewrite (Hlast c eq_refl).
  - intros ((((Hlen & Hrun) & Hf) & Hlast) & Hdouble).
    repeat split; try assumption.
    + intros c Hc. rewrite Hc in Hf. now apply negb_true_iff.
    + intros c Hc. rewrite Hc in Hlast. now apply negb_true_iff.
Qed.

Lemma run_ok_length s p j : run_ok s p 0 j -> j <= length s.
Proof.
  intros H. destruct j as [|j]; [lia|].
  destruct (H j) as (c & Hc & _); [lia|].
  apply lookup_lt_Some in Hc. lia.
Qed.

Lemma Certificate_IDENTIFIER_REGEX_spec (str : string) :
  Regex.test Certificate.IDENTIFIER_REGEX str = certificate_identifier_ok str.
Proof.
  apply identifier_family_check.
  - intros j. rewrite in_ends_lit.
    split; intros (-> & c & Hc & E); (split; [reflexivity|]); exists c;
      (split; [exact Hc|]); now rewrite eqb_hyphen in *.
  - intros j. rewrite in_ends_seq. unfold length_ok. split.
    + intros (k & Hk & Hj). apply in_ends_class in Hk as (-> & c & Hc & E).
      apply (in_iter_star _ _ (length (list_ascii_of_string str)) 1 j)
        in Hj as (Hr & Hrun).
      split; [rewrite andb_true_r; apply Nat.leb_le; lia|].
      intros k Hk. destruct (Nat.eq_dec k 0) as [->|Hne].
      * exists c. now rewrite <- class_ident.
      * destruct (Hrun k) as (c' & Hc' & E'); [lia|].
        exists c'. now rewrite <- class_ident.
    + rewrite andb_true_r, Nat.leb_le. intros (Hpos & Hrun).
      pose proof (run_ok_length _ _ _ Hrun) as Hle.
      exists 1. split.
      * apply in_ends_class. split; [reflexivity|].
        destruct (Hrun 0) as (c & Hc & E); [lia|].
        exists c. now rewrite class_ident.
      * apply (in_iter_star _ _ (length (list_ascii_of_string str)) 1 j).
        split; [lia|]. intros k Hk.
        destruct (Hrun k) as (c & Hc & E); [lia|].
        exists c. now rewrite class_ident.
Qed.

Lemma ReplicationInstance_IDENTIFIER_REGEX_spec (str : string) :
  Regex.test ReplicationInstance.IDENTIFIER_REGEX str
  = instance_identifier_ok str.
Proof.
  apply identifier_family_check.
  - intros j. rewrite in_ends_class.
    split; intros (-> & c & Hc & E); (split; [reflexivity|]); exists c;
      (split; [exact Hc|]); now rewrite class_first in *.
  - intros j. rewrite in_ends_rep_class. unfold length_ok.
    rewrite andb_true_iff, !Nat.leb_le. split.
    + intros (Hr & Hrun). split; [lia|].
      eapply run_ok_weaken; [|reflexivity|exact Hrun].
      intros c. now rewrite class_ident.
    + intros (Hr & Hrun). split; [lia|].
      eapply run_ok_weaken; [|reflexivity|exact Hrun].
      intros c. now rewrite class_ident.
Qed.

Lemma digit_is_ident c :
  ReplicationTask.is_digit c = true ->
  ident_char c = true /\ ReplicationTask.is_hyphen c = false.
Proof.
  unfold ident_char, ReplicationTask.is_digit, ReplicationTask.is_hyphen.
  intros H. rewrite H, orb_true_r. split; [reflexivity|].
  apply andb_true_iff in H as [H1 H2]. apply Nat.leb_le in H1.
  apply Nat.eqb_neq. lia.
Qed.

Lemma leading_digit_like_letter (d : ascii) (rest : string) :
  ReplicationTask.is_digit d = true ->
  certificate_identifier_ok (String d rest)
  = certificate_identifier_ok (String "a" rest).
Proof.
  intros Hd. apply digit_is_ident in Hd as [Hi Hh].
  unfold certificate_identifier_ok, identifier_check.
  cbn [list_ascii_of_string length head forallb].
  rewrite Hi, Hh.
  destruct (list_ascii_of_string rest) as [|c l]; simpl; rewrite ?Hh;
    reflexivity.
Qed.

(** X11: the [Certificate] constructor rejects a non-empty
    [certificateIdentifier] exactly when it violates the rule its regular
    expression encodes: letters, digits and hyphens only, no leading or
    trailing hyphen, no two consecutive hyphens.  The rule has no length
    bound and, unlike the error message ("must begin with a letter"),
    treats a leading digit like a leading letter.  A rejected identifier
    leaves only the construct node; otherwise the [AWS::DMS::Certificate]
    resource is created. *)
Theorem Certificate_new_identifier
  (cfnToken : Core.Path -> string -> string) (scope : Core.Path) (id : string)
  (props : Certificate.CertificateProps) (t : Core.Tree) :
  fresh_under t (scope ++ [id]) ->
  Certificate.Certificate_new cfnToken scope id props t
  = (if Core.truthy_string (Certificate.certificateIdentifier props)
        && negb (certificate_identifier_ok
                   (default "" (Certificate.certificateIdentifier props)))
     then (inl (Core.Thrown Certificate.identifier_msg),
           t ++ [(scope ++ [id], Core.KConstruct)])
     else (inr {| Certificate.node := scope ++ [id];
                  Certificate.certificateArn :=
                    cfnToken (scope ++ [id; "Resource"]) "Ref" |},
           t ++ [(scope ++ [id], Core.KConstruct);
                 (scope ++ [id; "Resource"],
                   Core.KResource "AWS::DMS::Certificate")]))
  /\ (forall d rest, ReplicationTask.is_digit d = true ->
        certificate_identifier_ok (String d rest)
        = certificate_identifier_ok (String "a" rest))
  /\ (forall str, ReplicationTask.identifier_ok str = true ->
        certificate_identifier_ok str = true).
Proof.
  intros Hf. split; [|split].
  - set (this := scope ++ [id]) in *. unfold Certificate.Certificate_new.
    rewrite (bind_ok _ _ _ _ _
               (Construct_new_ok _ _ _ (fresh_under_self _ _ Hf))).
    fold this. rewrite Certificate_IDENTIFIER_REGEX_spec.
    destruct (Core.truthy_string (Certificate.certificateIdentifier props)
              && negb (certificate_identifier_ok
                         (default "" (Certificate.certificateIdentifier props))));
      [reflexivity|].
    erewrite bind_ok; [|apply CfnResource_new_ok; fresh_node Hf].
    cbn [mret Core.M_ret]. unfold this. now rewrite <- !app_assoc.
  - exact leading_digit_like_letter.
  - intros str. unfold ReplicationTask.identifier_ok,
      certificate_identifier_ok, identifier_check, length_ok.
    rewrite !andb_true_iff.
    intros (((((H1 & H2) & H3) & H4) & H5) & H6).
    repeat split; try assumption.
    destruct (head (list_ascii_of_string str)) as [c|]; [|reflexivity].
    apply negb_true_iff, orb_false_iff in H4 as [H4 _].
    now rewrite H4.
Qed.

Lemma Certificate_new_identifier_witness :
  Certificate.Certificate_new sample_cfnToken ["Stack"] "Cert"
    {| Certificate.certificateIdentifier := Some "1st-cert";
       Certificate.certificateFile := Certificate.fromPem "pem" |} []
  = (inr {| Certificate.node := ["Stack"; "Cert"];
            Certificate.certificateArn :=
              sample_cfnToken ["Stack"; "Cert"; "Resource"] "Ref" |},
     [(["Stack"; "Cert"], Core.KConstruct);
      (["Stack"; "Cert"; "Resource"], Core.KResource "AWS::DMS::Certificate")]).
Proof.
  exact (proj1 (Certificate_new_identifier sample_cfnToken ["Stack"] "Cert"
                  {| Certificate.certificateIdentifier := Some "1st-cert";
                     Certificate.certificateFile := Certificate.fromPem "pem" |}
                  [] (fresh_under_nil _))).
Defined.

Lemma SubnetGroup_new_ok (cfnToken : Core.Path -> string -> string)
  (S : Type) (privateSubnets : S) scope id
  (props : ReplicationInstance.SubnetGroupProps S) t :
  Core.has_node t (scope ++ [id]) = false ->
  Core.has_node t (scope ++ [id; "Resource"]) = false ->
  ReplicationInstance.SubnetGroup_new cfnToken S privateSubnets scope id
    props t
  = (inr {| ReplicationInstance.subnetGroup_node := scope ++ [id];
            ReplicationInstance.subnetGroupName :=
              cfnToken (scope ++ [id; "Resource"]) "Ref";
            ReplicationInstance.subnetGroup_subnetIds :=
              ClientVpnEndpoint.selectSubnets S
                (ReplicationInstance.sg_vpc S props)
                (Some (default privateSubnets
                         (ReplicationInstance.sg_vpcSubnets S props))) |},
     t ++ [(scope ++ [id], Core.KConstruct);
           (scope ++ [id; "Resource"],
             Core.KResource "AWS::DMS::ReplicationSubnetGroup")]).
Proof.
  intros H1 H2. unfold ReplicationInstance.SubnetGroup_new.
  rewrite (bind_ok _ _ _ _ _ (Construct_new_ok _ _ _ H1)).
  erewrite bind_ok.
  2:{ apply CfnResource_new_ok. rewrite has_node_snoc, <- app_assoc.
      simpl app. rewrite H2. simpl. apply bool_decide_eq_false_2.
      intros E. apply (f_equal length) in E. rewrite !length_app in E.
      simpl in E. lia. }
  cbn [mret Core.M_ret]. now rewrite <- !app_assoc.
Qed.

(** X12: the [ReplicationInstance] constructor checks [mutliAz] together
    with [availabilityZone] before the identifier, so that error wins when
    both apply.  A non-empty [instanceIdentifier] is rejected exactly when
    it violates the identifier rule (1 to 63 letters, digits and hyphens, no
    leading hyphen or digit, no trailing hyphen, no two consecutive
    hyphens).  Either error leaves only the construct node.  Otherwise the
    construct is created: a [SubnetGroup] child only when no subnet group
    is supplied, a [SecurityGroup] child only when no security groups are
    supplied, and [publiclyAccessible] defaults to false. *)
Theorem ReplicationInstance_new_behaviour
  (cfnToken : Core.Path -> string -> string) (S : Type) (privateSubnets : S)
  (scope : Core.Path) (id : string)
  (props : ReplicationInstance.ReplicationInstanceProps S) (t : Core.Tree) :
  fresh_under t (scope ++ [id]) ->
  ReplicationInstance.ReplicationInstance_new cfnToken S privateSubnets
    scope id props t
  = (if Core.truthy_bool (ReplicationInstance.mutliAz S props)
        && Core.truthy_string (ReplicationInstance.availabilityZone S props)
     then (inl (Core.Thrown ReplicationInstance.availability_zone_msg),
           t ++ [(scope ++ [id], Core.KConstruct)])
     else if Core.truthy_string (ReplicationInstance.instanceIdentifier S props)
             && negb (instance_identifier_ok
                        (default ""
                           (ReplicationInstance.instanceIdentifier S props)))
     then (inl (Core.Thrown ReplicationInstance.identifier_msg),
           t ++ [(scope ++ [id], Core.KConstruct)])
     else (inr {| ReplicationInstance.node := scope ++ [id];
                  ReplicationInstance.replicationInstanceArn :=
                    cfnToken (scope ++ [id; "Resource"]) "Ref";
                  ReplicationInstance.connections :=
                    match ReplicationInstance.securityGroups S props with
                    | Some l => l
                    | None =>
                        [cfnToken (scope ++ [id; "SecurityGroup"]) "GroupId"]
                    end;
                  ReplicationInstance.replicationSubnetGroupIdentifier :=
                    match ReplicationInstance.subnetGroup S props with
                    | Some name => name
                    | None =>
                        cfnToken (scope ++ [id; "SubnetGroup"; "Resource"])
                          "Ref"
                    end;
                  ReplicationInstance.cfn_publiclyAccessible :=
                    default false
                      (ReplicationInstance.publiclyAccessible S props) |},
           t ++ replication_instance_children props (scope ++ [id]))).
Proof.
  intros Hf. set (this := scope ++ [id]) in *.
  unfold ReplicationInstance.ReplicationInstance_new.
  rewrite (bind_ok _ _ _ _ _
             (Construct_new_ok _ _ _ (fresh_under_self _ _ Hf))).
  fold this. rewrite ReplicationInstance_IDENTIFIER_REGEX_spec.
  destruct (Core.truthy_bool (ReplicationInstance.mutliAz S props)
            && Core.truthy_string
                 (ReplicationInstance.availabilityZone S props));
    [reflexivity|].
  destruct (Core.truthy_string (ReplicationInstance.instanceIdentifier S props)
            && negb (instance_identifier_ok
                       (default ""
                          (ReplicationInstance.instanceIdentifier S props))));
    [reflexivity|].
  unfold replication_instance_children.
  destruct (ReplicationInstance.subnetGroup S props) as [name|].
  - erewrite bind_ok; [|reflexivity].
    destruct (ReplicationInstance.securityGroups S props) as [l|].
    + erewrite bind_ok; [|reflexivity].
      erewrite bind_ok; [|apply CfnResource_new_ok; fresh_node Hf].
      cbn [mret Core.M_ret]; unfold this; now rewrite <- ?app_assoc.
    + erewrite bind_ok;
        [|erewrite bind_ok;
          [reflexivity|apply Construct_new_ok; fresh_node Hf]].
      erewrite bind_ok; [|apply CfnResource_new_ok; fresh_node Hf].
      cbn [mret Core.M_ret]; unfold this; now rewrite <- ?app_assoc.
  - erewrite bind_ok;
      [|erewrite bind_ok;
        [reflexivity|apply SubnetGroup_new_ok; fresh_node Hf]].
    cbn [ReplicationInstance.subnetGroupName].
    destruct (ReplicationInstance.securityGroups S props) as [l|].
    + erewrite bind_ok; [|reflexivity].
      erewrite bind_ok; [|apply CfnResource_new_ok; fresh_node Hf].
      cbn [mret Core.M_ret]; unfold this; now rewrite <- ?app_assoc.
    + erewrite bind_ok;
        [|erewrite bind_ok;
          [reflexivity|apply Construct_new_ok; fresh_node Hf]].
      erewrite bind_ok; [|apply CfnResource_new_ok; fresh_node Hf].
      cbn [mret Core.M_ret]; unfold this; now rewrite <- ?app_assoc.
Qed.

Lemma ReplicationInstance_new_behaviour_witness :
  ReplicationInstance.ReplicationInstance_new sample_cfnToken unit tt
    ["Stack"] "Rep"
    (sample_replication_instance_props (Some true) (Some "eu-west-1a")
       (Some "-bad-") None) []
  = (inl (Core.Thrown ReplicationInstance.availability_zone_msg),
     [(["Stack"; "Rep"], Core.KConstruct)])
  /\ ReplicationInstance.ReplicationInstance_new sample_cfnToken unit tt
       ["Stack"] "Rep"
       (sample_replication_instance_props None None (Some "1st") None) []
     = (inl (Core.Thrown ReplicationInstance.identifier_msg),
        [(["Stack"; "Rep"], Core.KConstruct)])
  /\ snd (ReplicationInstance.ReplicationInstance_new sample_cfnToken unit tt
            ["Stack"] "Rep"
            (sample_replication_instance_props None None (Some "rep-1")
               (Some "group")) [])
     = [(["Stack"; "Rep"], Core.KConstruct);
        (["Stack"; "Rep"; "SecurityGroup"], Core.KConstruct);
        (["Stack"; "Rep"; "Resource"],
          Core.KResource "AWS::DMS::ReplicationInstance")].
Proof.
  split; [|split].
  - exact (ReplicationInstance_new_behaviour sample_cfnToken unit tt
             ["Stack"] "Rep"
             (sample_replication_instance_props (Some true)
                (Some "eu-west-1a") (Some "-bad-") None) []
             (fresh_under_nil _)).
  - exact (ReplicationInstance_new_behaviour sample_cfnToken unit tt
             ["Stack"] "Rep"
             (sample_replication_instance_props None None (Some "1st") None)
             [] (fresh_under_nil _)).
  - exact (f_equal snd
             (ReplicationInstance_new_behaviour sample_cfnToken unit tt
                ["Stack"] "Rep"
                (sample_replication_instance_props None None (Some "rep-1")
                   (Some "group")) [] (fresh_under_nil _))).
Defined.

(** ** EKS: imported clusters *)
(** X13: an imported EKS cluster inherits [export()] from [ClusterBase],
    so importing props and exporting the result is not the identity: the
    export declares the three outputs ClusterName, ClusterArn and
    ClusterEndpoint under the imported construct, holding the imported
    values, and returns import-value references to them; only
    [vpcPlacement], [securityGroupId] and [connections] come back as they
    were given. *)
Theorem ImportedCluster_export_declares_outputs
  (cfnToken : Core.Path -> string -> string) (V C : Type)
  (parent : Core.Path) (name : string)
  (P : ClusterBase.ClusterImportProps V C) (t : Core.Tree) :
  fresh_under t (parent ++ [name]) ->
  exists obj,
    ImportedCluster.ImportedCluster_new V C parent name P t
    = (inr obj, t ++ [(parent ++ [name], Core.KConstruct)])
    /\ ClusterBase.export cfnToken V C obj
         (t ++ [(parent ++ [name], Core.KConstruct)])
       = (inr {| ClusterBase.import_clusterName :=
                   cfnToken (parent ++ [name; "ClusterName"])
                     "Fn::ImportValue";
                 ClusterBase.import_clusterArn :=
                   cfnToken (parent ++ [name; "ClusterArn"])
                     "Fn::ImportValue";
                 ClusterBase.import_clusterEndpoint :=
                   cfnToken (parent ++ [name; "ClusterEndpoint"])
                     "Fn::ImportValue";
                 ClusterBase.import_vpcPlacement :=
                   ClusterBase.import_vpcPlacement V C P;
                 ClusterBase.import_securityGroupId :=
                   ClusterBase.import_securityGroupId V C P;
                 ClusterBase.import_connections :=
                   ClusterBase.import_connections V C P |},
          t ++ [(parent ++ [name], Core.KConstruct);
                (parent ++ [name; "ClusterName"],
                  Core.KOutput (ClusterBase.import_clusterName V C P));
                (parent ++ [name; "ClusterArn"],
                  Core.KOutput (ClusterBase.import_clusterArn V C P));
                (parent ++ [name; "ClusterEndpoint"],
                  Core.KOutput (ClusterBase.import_clusterEndpoint V C P))]).
Proof.
  intros Hf. set (this := parent ++ [name]) in *.
  unfold ImportedCluster.ImportedCluster_new.
  rewrite (bind_ok _ _ _ _ _
             (Construct_new_ok _ _ _ (fresh_under_self _ _ Hf))).
  fold this. eexists. split; [reflexivity|].
  unfold ClusterBase.export, ClusterBase.makeOutput.
  cbn [ClusterBase.node ClusterBase.clusterName ClusterBase.clusterArn
       ClusterBase.clusterEndpoint ClusterBase.vpcPlacement
       ClusterBase.securityGroupId ClusterBase.connections].
  erewrite bind_ok;
    [|erewrite bind_ok; [reflexivity|apply CfnOutput_new_ok; fresh_node Hf]].
  erewrite bind_ok;
    [|erewrite bind_ok; [reflexivity|apply CfnOutput_new_ok; fresh_node Hf]].
  erewrite bind_ok;
    [|erewrite bind_ok; [reflexivity|apply CfnOutput_new_ok; fresh_node Hf]].
  cbn [mret Core.M_ret Core.output_path]. unfold this.
  now rewrite <- !app_assoc.
Qed.

Lemma ImportedCluster_export_declares_outputs_witness :
  exists obj,
    ImportedCluster.ImportedCluster_new unit unit ["Stack"] "Imported"
      {| ClusterBase.import_clusterName := "prod";
         ClusterBase.import_clusterArn := "arn:aws:eks:us-west-2:1:cluster/prod";
         ClusterBase.import_clusterEndpoint := "https://prod.example";
         ClusterBase.import_vpcPlacement := tt;
         ClusterBase.import_securityGroupId := "sg-1";
         ClusterBase.import_connections := tt |} []
    = (inr obj, [(["Stack"; "Imported"], Core.KConstruct)])
    /\ Core.outputs
         (snd (ClusterBase.export sample_cfnToken unit unit obj
                 [(["Stack"; "Imported"], Core.KConstruct)]))
       = [(["Stack"; "Imported"; "ClusterName"], "prod");
          (["Stack"; "Imported"; "ClusterArn"],
            "arn:aws:eks:us-west-2:1:cluster/prod");
          (["Stack"; "Imported"; "ClusterEndpoint"], "https://prod.example")].
Proof.
  destruct (ImportedCluster_export_declares_outputs sample_cfnToken unit unit
              ["Stack"] "Imported"
              {| ClusterBase.import_clusterName := "prod";
                 ClusterBase.import_clusterArn :=
                   "arn:aws:eks:us-west-2:1:cluster/prod";
                 ClusterBase.import_clusterEndpoint := "https://prod.example";
                 ClusterBase.import_vpcPlacement := tt;
                 ClusterBase.import_securityGroupId := "sg-1";
                 ClusterBase.import_connections := tt |} []
              (fresh_under_nil _)) as (obj & H1 & H2).
  exists obj. split; [exact H1|].
  simpl app in H2. rewrite H2. reflexivity.
Defined.

(** ** The asset archiver: every completion order *)
Lemma complete_reads_any_order (l pending : list Archive.DirFile) appended :
  l ≡ₚ pending ->
  exists sched,
    Archive.complete_reads sched pending appended
    = appended ++ map Archive.entry_of l.
Proof.
  revert pending appended.
  induction l as [|f l IH]; intros pending appended Hp.
  - apply Permutation_nil in Hp as ->. now exists [].
  - assert (Hin : f ∈ pending) by (rewrite <- Hp; left).
    apply list_elem_of_lookup in Hin as [k Hk].
    pose proof (lookup_lt_Some _ _ _ Hk) as Hlt.
    assert (Hrest : l ≡ₚ delete k pending).
    { apply (Permutation_cons_inv (a := f)).
      rewrite Hp. now apply delete_Permutation. }
    destruct (IH (delete k pending) (appended ++ [Archive.entry_of f]) Hrest)
      as [sched Hs].
    exists (k :: sched). cbn [Archive.complete_reads].
    rewrite (Nat.mod_small _ _ Hlt), Hk, Hs, <- app_assoc. reflexivity.
Qed.

(** X14: whatever order the file reads of [zipDirectory] complete in, the
    archive holds one entry per file of the directory and nothing else,
    each with the file's name, mode and data and the pinned date
    1980-01-01T00:00:00.000Z.  The order of the entries is not fixed by the
    directory: every ordering of the files is written by some completion
    order. *)
Theorem zipDirectory_any_completion_order (directory : Archive.Directory) :
  (forall sched,
     Archive.zipDirectory sched directory ≡ₚ map Archive.entry_of directory
     /\ length (Archive.zipDirectory sched directory) = length directory
     /\ Forall (fun e => Archive.entry_date e = Archive.pinned_date)
          (Archive.zipDirectory sched directory))
  /\ (forall l, l ≡ₚ directory ->
        exists sched,
          Archive.zipDirectory sched directory = map Archive.entry_of l).
Proof.
  split.
  - intros sched. split; [apply zipDirectory_permutation|]. split.
    + now rewrite zipDirectory_permutation, length_map.
    + apply zipDirectory_dates.
  - intros l Hl.
    destruct (complete_reads_any_order l directory [] Hl) as [sched Hs].
    now exists sched.
Qed.

Lemma zipDirectory_any_completion_order_witness :
  exists sched,
    map Archive.entry_name (Archive.zipDirectory sched sample_directory)
    = ["package.json"; "index.js"].
Proof.
  destruct (proj2 (zipDirectory_any_completion_order sample_directory)
              (reverse sample_directory)) as [sched Hs].
  - unfold sample_directory. apply perm_swap.
  - exists sched. rewrite Hs. reflexivity.
Defined.

(** ** The client VPN endpoint: guards and children *)
Lemma prefixed_name_ne_literal (this : Core.Path) (c : ascii)
  (pre s : string) (q : list string) :
  match q with
  | [x] => String.get 0 x ≠ Some c
  | _ => True
  end ->
  this ++ q ≠ this ++ [String c pre +:+ s].
Proof.
  intros Hq E. apply app_inv_head in E. destruct q as [|x [|y q]].
  - discriminate E.
  - injection E as ->. now apply Hq.
  - discriminate E.
Qed.

Section VpnFacts.
Import Core ClientVpnEndpoint.
Variable cfnToken : Path -> string -> string.
Variable isUnresolved : string -> bool.
Variable C : Type.
Variable CidrBlock_new : string -> Error + C.
Variable containsCidr : C -> C -> bool.
Variable S : Type.

Lemma association_name_inj (a b : nat) :
  "Association" +:+ pretty a = "Association" +:+ pretty b -> a = b.
Proof.
  intros E. apply (inj (String.app "Association")) in E.
  now apply (inj pretty) in E.
Qed.

Lemma associate_ok this subnetIds idx tcur :
  (forall k : nat, idx <= k -> has_node tcur (association_path this k) = false) ->
  associate this idx subnetIds tcur
  = (inr (map (association_path this) (seq idx (length subnetIds))),
     tcur ++ map (association_node this) (seq idx (length subnetIds))).
Proof.
  revert idx tcur.
  induction subnetIds as [|x rest IH]; intros idx tcur Hfresh.
  - simpl. now rewrite app_nil_r.
  - cbn [associate].
    rewrite (bind_ok _ _ _ _ _
               (CfnResource_new_ok _ _ _ _ (Hfresh idx (Nat.le_refl idx)))).
    erewrite bind_ok; [|apply IH].
    + cbn [mret M_ret length seq map]. now rewrite <- app_assoc.
    + intros k Hk. unfold association_path in *.
      rewrite has_node_snoc, Hfresh by lia.
      rewrite path_eqb_app. unfold path_eqb.
      rewrite bool_decide_eq_false_2; [reflexivity|].
      intros E. apply (inj (fun x => [x])) in E.
      apply association_name_inj in E. lia.
Qed.

Lemma association_nodes_no_literal this l (q : list string) :
  (forall s, q ≠ ["Association" +:+ s]) ->
  has_node (map (association_node this) l) (this ++ q) = false.
Proof.
  intros Hq. apply has_node_false_iff, Forall_forall. intros n Hn.
  apply list_elem_of_In, in_map_iff in Hn as (k & <- & _). simpl.
  unfold association_path. intros E. apply app_inv_head in E.
  now apply (Hq (pretty k)).
Qed.

Lemma vpn_before_associations_fresh
  (props : ClientVpnEndpointProps S) this s :
  has_node (vpn_before_associations cfnToken props this)
    (this ++ ["Association" +:+ s]) = false.
Proof.
  apply has_node_false_iff.
  unfold vpn_before_associations, vpn_early_children.
  repeat (apply Forall_app; split);
    repeat match goal with
           | |- Forall _ (match ?o with Some _ => _ | None => _ end) =>
               destruct o
           | |- Forall _ (if ?b then _ else _) => destruct b
           | |- Forall _ (_ :: _) => apply Forall_cons; split
           | |- Forall _ [] => apply List.Forall_nil
           end; cbn [fst];
    try (apply (prefixed_name_ne_literal this "A" "ssociation");
         simpl; discriminate || exact I);
    try apply this_ne_child.
Qed.

Lemma cidr_step (props : ClientVpnEndpointProps S) t :
  (if negb (isUnresolved (vpcCidrBlock S (vpc S props)))
   then
     clientCidr ← lift (CidrBlock_new (cidr S props));
     vpcCidr ← lift (CidrBlock_new (vpcCidrBlock S (vpc S props)));
     if containsCidr vpcCidr clientCidr
     then throw (Thrown overlap_msg)
     else mret tt
   else mret tt) t
  = (match cidr_check isUnresolved CidrBlock_new containsCidr props with
     | Some e => inl e
     | None => inr tt
     end, t).
Proof.
  unfold cidr_check, mbind, M_bind, lift.
  destruct (isUnresolved (vpcCidrBlock S (vpc S props))); [reflexivity|].
  cbn [negb].
  destruct (CidrBlock_new (cidr S props)) as [e|c]; [reflexivity|].
  destruct (CidrBlock_new (vpcCidrBlock S (vpc S props))) as [e|v];
    [reflexivity|].
  destruct (containsCidr v c); reflexivity.
Qed.
Lemma path_eqb_singleton_prefixed x c pre s :
  String.get 0 x ≠ Some c -> path_eqb [x] [String c pre +:+ s] = false.
Proof.
  intros H. apply bool_decide_eq_false_2. intros [= ->]. now apply H.
Qed.

Ltac fresh_assoc Hf :=
  unfold association_path;
  repeat rewrite <- app_assoc; simpl app;
  repeat rewrite has_node_app;
  repeat rewrite has_node_cons; simpl fst;
  repeat rewrite Hf;
  repeat rewrite path_eqb_app;
  repeat rewrite path_eqb_self_app;
  repeat (rewrite (path_eqb_singleton_prefixed _ "A" "ssociation")
            by (simpl; discriminate));
  reflexivity.

Ltac fresh_after_assoc Hf :=
  rewrite has_node_app,
    (association_nodes_no_literal _ _ ["AuthorizeAll"])
    by (intros ?; discriminate);
  rewrite orb_false_r; fresh_node Hf.

Lemma ClientVpnEndpoint_new_run scope id (props : ClientVpnEndpointProps S) t :
  fresh_under t (scope ++ [id]) ->
  ClientVpnEndpoint_new cfnToken isUnresolved C CidrBlock_new containsCidr S
    scope id props t
  = match cidr_check isUnresolved CidrBlock_new containsCidr props with
    | Some e => (inl e, t ++ [(scope ++ [id], KConstruct)])
    | None =>
        if too_many_dns props
        then (inl (Thrown dns_msg), t ++ [(scope ++ [id], KConstruct)])
        else if logging_conflict props
        then (inl (Thrown logging_msg), t ++ [(scope ++ [id], KConstruct)])
        else
          match renderAuthenticationOptions (clientCertificate S props)
                  (userBasedAuthentication S props) with
          | inl e => (inl e, t ++ vpn_early_children props (scope ++ [id]))
          | inr _ =>
              (inr {| node := scope ++ [id];
                      endpointId := cfnToken (scope ++ [id; "Resource"]) "Ref";
                      connections :=
                        match securityGroups S props with
                        | Some l => l
                        | None =>
                            [cfnToken (scope ++ [id; "SecurityGroup"])
                               "GroupId"]
                        end;
                      targetNetworksAssociated :=
                        map (association_path (scope ++ [id]))
                          (seq 0 (length (vpn_subnets props))) |},
               t ++ vpn_children cfnToken props (scope ++ [id]))
          end
    end.
Proof.
  intros Hf. set (this := scope ++ [id]) in *.
  unfold ClientVpnEndpoint_new.
  rewrite (bind_ok _ _ _ _ _
             (Construct_new_ok _ _ _ (fresh_under_self _ _ Hf))).
  fold this.
  destruct (cidr_check isUnresolved CidrBlock_new containsCidr props)
    as [e|] eqn:Hc.
  { erewrite bind_err; [reflexivity|]. now rewrite cidr_step, Hc. }
  erewrite bind_ok; [|now rewrite cidr_step, Hc].
  fold (too_many_dns props). destruct (too_many_dns props); [reflexivity|].
  fold (logging_conflict props).
  destruct (logging_conflict props); [reflexivity|].
  unfold vpn_children, vpn_before_associations, vpn_early_children,
    wants_portal.
  fold (vpn_subnets props).
  destruct (default true (logging S props));
    destruct (logGroup S props) as [lg|];
    destruct (securityGroups S props) as [sg|].
  all: try (erewrite bind_ok; [|reflexivity]).
  all: try (erewrite bind_ok;
            [|erewrite bind_ok;
              [reflexivity|apply Construct_new_ok; fresh_node Hf]]).
  all: try (erewrite bind_ok; [|reflexivity]).
  all: try (erewrite bind_ok;
            [|erewrite bind_ok;
              [reflexivity|apply Construct_new_ok; fresh_node Hf]]).
  all: destruct (renderAuthenticationOptions (clientCertificate S props)
                   (userBasedAuthentication S props)) as [e|opts];
    [erewrite bind_err; [|reflexivity]; now rewrite <- ?app_assoc|].
  all: (erewrite bind_ok; [|reflexivity]).
  all: (erewrite bind_ok; [|apply CfnResource_new_ok; fresh_node Hf]).
  all: destruct (defined (userBasedAuthentication S props)
                 && default true (selfServicePortal S props)).
  all: try (erewrite bind_ok; [|reflexivity]).
  all: try (erewrite bind_ok;
            [|erewrite bind_ok;
              [reflexivity|apply CfnOutput_new_ok; fresh_node Hf]]).
  all: (erewrite bind_ok;
        [|apply associate_ok; intros k _; fresh_assoc Hf]).
  all: destruct (default true (authorizeAllUsersToVpcCidr S props)).
  all: try (erewrite bind_ok; [|reflexivity]).
  all: try (erewrite bind_ok;
            [|erewrite bind_ok;
              [reflexivity|apply Construct_new_ok; fresh_after_assoc Hf]]).
  all: cbn [mret M_ret]; unfold this;
    now rewrite ?app_nil_r, <- ?app_assoc.
Qed.
End VpnFacts.

(** X15: the errors of the [ClientVpnEndpoint] constructor in the order the
    code raises them.  An error of the CIDR check (a malformed block or the
    overlap) comes first, then more than two DNS servers, then a log group
    or log stream given with logging disabled; each of these leaves only
    the construct node.  An error of the authentication options is raised
    last, after the default log group and security group have been
    created, and leaves those children in the tree. *)
Theorem ClientVpnEndpoint_new_errors
  (cfnToken : Core.Path -> string -> string) (isUnresolved : string -> bool)
  (C : Type) (CidrBlock_new : string -> Core.Error + C)
  (containsCidr : C -> C -> bool) (S : Type)
  (scope : Core.Path) (id : string)
  (props : ClientVpnEndpoint.ClientVpnEndpointProps S) (t : Core.Tree) :
  fresh_under t (scope ++ [id]) ->
  (forall e,
     cidr_check isUnresolved CidrBlock_new containsCidr props = Some e ->
     ClientVpnEndpoint.ClientVpnEndpoint_new cfnToken isUnresolved C
       CidrBlock_new containsCidr S scope id props t
     = (inl e, t ++ [(scope ++ [id], Core.KConstruct)]))
  /\ (cidr_check isUnresolved CidrBlock_new containsCidr props = None ->
      too_many_dns props = true ->
      ClientVpnEndpoint.ClientVpnEndpoint_new cfnToken isUnresolved C
        CidrBlock_new containsCidr S scope id props t
      = (inl (Core.Thrown ClientVpnEndpoint.dns_msg),
         t ++ [(scope ++ [id], Core.KConstruct)]))
  /\ (cidr_check isUnresolved CidrBlock_new containsCidr props = None ->
      too_many_dns props = false ->
      logging_conflict props = true ->
      ClientVpnEndpoint.ClientVpnEndpoint_new cfnToken isUnresolved C
        CidrBlock_new containsCidr S scope id props t
      = (inl (Core.Thrown ClientVpnEndpoint.logging_msg),
         t ++ [(scope ++ [id], Core.KConstruct)]))
  /\ (forall e,
      cidr_check isUnresolved CidrBlock_new containsCidr props = None ->
      too_many_dns props = false ->
      logging_conflict props = false ->
      ClientVpnEndpoint.renderAuthenticationOptions
        (ClientVpnEndpoint.clientCertificate S props)
        (ClientVpnEndpoint.userBasedAuthentication S props) = inl e ->
      ClientVpnEndpoint.ClientVpnEndpoint_new cfnToken isUnresolved C
        CidrBlock_new containsCidr S scope id props t
      = (inl e, t ++ vpn_early_children props (scope ++ [id]))).
Proof.
  intros Hf.
  pose proof (ClientVpnEndpoint_new_run cfnToken isUnresolved C CidrBlock_new
                containsCidr S scope id props t Hf) as H.
  repeat split.
  - intros e Hc. now rewrite Hc in H.
  - intros Hc Hd. now rewrite Hc, Hd in H.
  - intros Hc Hd Hl. now rewrite Hc, Hd, Hl in H.
  - intros e Hc Hd Hl Hr. now rewrite Hc, Hd, Hl, Hr in H.
Qed.

Lemma ClientVpnEndpoint_new_errors_witness :
  ClientVpnEndpoint.ClientVpnEndpoint_new sample_cfnToken sample_isUnresolved
    string sample_CidrBlock_new sample_containsCidr unit ["Stack"] "Vpn"
    (sample_vpn_props "10.0.0.0/16") []
  = (inl (Core.Thrown ClientVpnEndpoint.overlap_msg),
     [(["Stack"; "Vpn"], Core.KConstruct)]).
Proof.
  apply (proj1 (ClientVpnEndpoint_new_errors sample_cfnToken
                  sample_isUnresolved string sample_CidrBlock_new
                  sample_containsCidr unit ["Stack"] "Vpn"
                  (sample_vpn_props "10.0.0.0/16") [] (fresh_under_nil _))).
  reflexivity.
Defined.

(** X16: when no guard fires and the authentication options render, the
    [ClientVpnEndpoint] constructor succeeds.  Its children are, in order:
    a LogGroup unless logging is disabled or a log group is supplied, a
    SecurityGroup unless security groups are supplied, the endpoint
    resource, the SelfServicePortalUrl output exactly when user based
    authentication is given and the portal is not switched off, one
    association per selected subnet named Association0, Association1, ...
    and the AuthorizeAll rule unless [authorizeAllUsersToVpcCidr] is
    false.  [targetNetworksAssociated] holds exactly the associations. *)
Theorem ClientVpnEndpoint_new_success
  (cfnToken : Core.Path -> string -> string) (isUnresolved : string -> bool)
  (C : Type) (CidrBlock_new : string -> Core.Error + C)
  (containsCidr : C -> C -> bool) (S : Type)
  (scope : Core.Path) (id : string)
  (props : ClientVpnEndpoint.ClientVpnEndpointProps S) (t : Core.Tree)
  (opts : list ClientVpnEndpoint.ClientAuthenticationRequest) :
  fresh_under t (scope ++ [id]) ->
  cidr_check isUnresolved CidrBlock_new containsCidr props = None ->
  too_many_dns props = false ->
  logging_conflict props = false ->
  ClientVpnEndpoint.renderAuthenticationOptions
    (ClientVpnEndpoint.clientCertificate S props)
    (ClientVpnEndpoint.userBasedAuthentication S props) = inr opts ->
  exists endpoint,
    ClientVpnEndpoint.ClientVpnEndpoint_new cfnToken isUnresolved C
      CidrBlock_new containsCidr S scope id props t
    = (inr endpoint, t ++ vpn_children cfnToken props (scope ++ [id]))
    /\ ClientVpnEndpoint.node endpoint = scope ++ [id]
    /\ ClientVpnEndpoint.endpointId endpoint
       = cfnToken (scope ++ [id; "Resource"]) "Ref"
    /\ ClientVpnEndpoint.targetNetworksAssociated endpoint
       = map (association_path (scope ++ [id]))
           (seq 0 (length (vpn_subnets props)))
    /\ length (ClientVpnEndpoint.targetNetworksAssociated endpoint)
       = length (vpn_subnets props).
Proof.
  intros Hf Hc Hd Hl Hr.
  pose proof (ClientVpnEndpoint_new_run cfnToken isUnresolved C CidrBlock_new
                containsCidr S scope id props t Hf) as H.
  rewrite Hc, Hd, Hl, Hr in H.
  eexists. split; [exact H|].
  cbn [ClientVpnEndpoint.node ClientVpnEndpoint.endpointId
       ClientVpnEndpoint.targetNetworksAssociated].
  repeat split. now rewrite length_map, length_seq.
Qed.

Lemma ClientVpnEndpoint_new_success_witness :
  exists endpoint,
    ClientVpnEndpoint.ClientVpnEndpoint_new sample_cfnToken
      sample_isUnresolved string sample_CidrBlock_new sample_containsCidr
      unit ["Stack"] "Vpn"
      (sample_vpn_props "${Token[Stack/Vpc/Resource.CidrBlock]}") []
    = (inr endpoint,
       [(["Stack"; "Vpn"], Core.KConstruct);
        (["Stack"; "Vpn"; "LogGroup"], Core.KConstruct);
        (["Stack"; "Vpn"; "SecurityGroup"], Core.KConstruct);
        (["Stack"; "Vpn"; "Resource"],
          Core.KResource "AWS::EC2::ClientVpnEndpoint");
        (["Stack"; "Vpn"; "Association0"],
          Core.KResource "AWS::EC2::ClientVpnTargetNetworkAssociation");
        (["Stack"; "Vpn"; "Association1"],
          Core.KResource "AWS::EC2::ClientVpnTargetNetworkAssociation");
        (["Stack"; "Vpn"; "AuthorizeAll"], Core.KConstruct)])
    /\ ClientVpnEndpoint.targetNetworksAssociated endpoint
       = [["Stack"; "Vpn"; "Association0"]; ["Stack"; "Vpn"; "Association1"]].
Proof.
  destruct (ClientVpnEndpoint_new_success sample_cfnToken
              sample_isUnresolved string sample_CidrBlock_new
              sample_containsCidr unit ["Stack"] "Vpn"
              (sample_vpn_props "${Token[Stack/Vpc/Resource.CidrBlock]}") []
              [ClientVpnEndpoint.certificate_authentication
                 "arn:aws:acm:eu-west-1:123456789012:certificate/client"]
              (fresh_under_nil _) eq_refl eq_refl eq_refl eq_refl)
    as (endpoint & H1 & _ & _ & H2 & _).
  exists endpoint. split; [exact H1|]. rewrite H2. reflexivity.
Defined.

(** X17: [renderAuthenticationOptions] fails in exactly two ways: with the
    "both" error when a directory id and a SAML provider are both given,
    and with the "at least one" error when there is no client certificate
    and neither of them (an empty string counts as absent).  Otherwise
    it returns one option per given method, the certificate first: one or
    two options, never a directory and a federated option together. *)
Theorem renderAuthenticationOptions_cases
  (cert : option string)
  (uba : option ClientVpnEndpoint.ClientVpnUserBasedAuthentication) :
  let dir := Core.truthy_string (uba ≫= ClientVpnEndpoint.directoryId) in
  let saml := Core.truthy_string (uba ≫= ClientVpnEndpoint.samlProviderArn) in
  match ClientVpnEndpoint.renderAuthenticationOptions cert uba with
  | inl e =>
      (e = Core.Thrown ClientVpnEndpoint.both_auth_msg
       /\ dir = true /\ saml = true)
      \/ (e = Core.Thrown ClientVpnEndpoint.no_auth_msg
          /\ cert = None /\ dir = false /\ saml = false)
  | inr opts =>
      (dir && saml = false)
      /\ opts
         = match cert with
           | Some arn => [ClientVpnEndpoint.certificate_authentication arn]
           | None => []
           end
           ++ (if dir
               then [ClientVpnEndpoint.directory_service_authentication
                       (default "" (uba ≫= ClientVpnEndpoint.directoryId))]
               else [])
           ++ (if saml
               then [ClientVpnEndpoint.federated_authentication
                       (default "" (uba ≫= ClientVpnEndpoint.samlProviderArn))
                       (uba ≫= ClientVpnEndpoint.selfServiceSamlProviderArn)]
               else [])
      /\ 1 <= length opts <= 2
  end.
Proof.
  intros dir saml. unfold ClientVpnEndpoint.renderAuthenticationOptions.
  fold dir saml.
  destruct dir, saml, cert as [arn|]; cbn; auto 10.
Qed.

(** ** Lambda bundling utilities *)
Section CountItemsFacts.
Import NodejsUtil.
Variable inherited_text : string -> string.

Lemma put_lookup_ne item v ret x :
  item ≠ x -> put item v ret !! x = ret !! x.
Proof.
  intros Hne. unfold put. destruct (String.eqb item "__proto__");
    [reflexivity|]. now apply lookup_insert_ne.
Qed.

Lemma put_lookup_eq item v ret :
  item ≠ "__proto__" -> put item v ret !! item = Some v.
Proof.
  intros Hne. unfold put. apply String.eqb_neq in Hne. rewrite Hne.
  apply lookup_insert_eq.
Qed.

Lemma count_step_lookup_ne ret item x :
  item ≠ x -> count_step inherited_text ret item !! x = ret !! x.
Proof.
  intros Hne. unfold count_step.
  destruct (get inherited_text ret item) as [v|];
    [destruct (truthy v)|]; now apply put_lookup_ne.
Qed.

Lemma own_names_not_proto x :
  x ∉ object_prototype_names -> x ≠ "__proto__".
Proof.
  intros Hx ->. apply Hx. unfold object_prototype_names.
  repeat (first [left | right]).
Qed.

Lemma count_plain x l ret n :
  x ∉ object_prototype_names ->
  ret !! x = (if n =? 0 then None else Some (JNum n)) ->
  fold_left (count_step inherited_text) l ret !! x
  = (if n + count_occ String.string_dec l x =? 0 then None
     else Some (JNum (n + count_occ String.string_dec l x))).
Proof.
  intros Hx. pose proof (own_names_not_proto x Hx) as Hp.
  revert ret n. induction l as [|y l IH]; intros ret n Hret.
  - simpl. now rewrite Nat.add_0_r.
  - cbn [fold_left count_occ]. destruct (String.string_dec y x) as [->|Hne].
    + rewrite (IH _ (S n)).
      * now rewrite Nat.add_succ_r.
      * cbn [Nat.eqb]. unfold count_step, get. rewrite Hret.
        rewrite bool_decide_eq_false_2 by exact Hx.
        destruct n as [|n]; cbn [Nat.eqb].
        -- now apply put_lookup_eq.
        -- cbn [truthy Nat.eqb negb plus_one].
           rewrite put_lookup_eq by exact Hp. now rewrite Nat.add_1_r.
    + rewrite (IH _ n); [reflexivity|].
      now rewrite count_step_lookup_ne.
Qed.

Lemma count_proto l ret :
  ret !! "__proto__" = None ->
  fold_left (count_step inherited_text) l ret !! "__proto__" = None.
Proof.
  revert ret. induction l as [|y l IH]; intros ret Hret; [exact Hret|].
  cbn [fold_left]. apply IH.
  destruct (String.string_dec y "__proto__") as [->|Hne].
  - unfold count_step, put.
    destruct (get inherited_text ret "__proto__") as [v|];
      [destruct (truthy v)|]; exact Hret.
  - now rewrite count_step_lookup_ne.
Qed.

Lemma string_app_assoc (a b c : string) :
  (a +:+ b) +:+ c = a +:+ (b +:+ c).
Proof.
  induction a as [|x a IH]; [reflexivity|].
  change (String x ((a +:+ b) +:+ c) = String x (a +:+ (b +:+ c))).
  now f_equal.
Qed.

Lemma append_one_nonempty s : s +:+ "1" ≠ "".
Proof. destruct s; discriminate. Qed.

Lemma count_inherited x l ret n :
  x ∈ object_prototype_names -> x ≠ "__proto__" ->
  inherited_text x ≠ "" ->
  ret !! x = (if n =? 0 then None
              else Some (JStr (inherited_text x +:+ ones n))) ->
  fold_left (count_step inherited_text) l ret !! x
  = (if n + count_occ String.string_dec l x =? 0 then None
     else Some (JStr (inherited_text x
                      +:+ ones (n + count_occ String.string_dec l x)))).
Proof.
  intros Hx Hp Ht. revert ret n.
  induction l as [|y l IH]; intros ret n Hret.
  - simpl. now rewrite Nat.add_0_r.
  - cbn [fold_left count_occ]. destruct (String.string_dec y x) as [->|Hne].
    + rewrite (IH _ (S n)).
      * now rewrite Nat.add_succ_r.
      * cbn [Nat.eqb ones]. unfold count_step, get. rewrite Hret.
        rewrite bool_decide_eq_true_2 by exact Hx.
        destruct n as [|n]; cbn [Nat.eqb].
        -- cbn [truthy]. apply String.eqb_neq in Ht. rewrite Ht.
           cbn [negb plus_one ones]. now rewrite put_lookup_eq.
        -- cbn [truthy ones].
           assert (E : String.eqb
                         (inherited_text x +:+ (ones n +:+ "1")) "" = false).
           { apply String.eqb_neq.
             rewrite <- string_app_assoc. apply append_one_nonempty. }
           rewrite E. cbn [negb plus_one]. rewrite put_lookup_eq by exact Hp.
           now rewrite !string_app_assoc.
    + rewrite (IH _ n); [reflexivity|].
      now rewrite count_step_lookup_ne.
Qed.
End CountItemsFacts.

(** X19: [countItems] maps an item to the number of its occurrences only
    when the item is not the name of a member every object inherits.  For
    such a name (constructor, toString, hasOwnProperty, ...) the first
    lookup finds the inherited member, which is truthy, so [+= 1] appends
    the text 1 to its string form at every occurrence and the result holds
    a string, not a count; [__proto__] is never stored at all. *)
Theorem countItems_counts (inherited_text : string -> string)
  (l : list string) (x : string) :
  (x ∉ NodejsUtil.object_prototype_names ->
   NodejsUtil.countItems inherited_text l !! x
   = (if count_occ String.string_dec l x =? 0 then None
      else Some (NodejsUtil.JNum (count_occ String.string_dec l x))))
  /\ (x ∈ NodejsUtil.object_prototype_names -> x ≠ "__proto__" ->
      inherited_text x ≠ "" ->
      NodejsUtil.countItems inherited_text l !! x
      = (if count_occ String.string_dec l x =? 0 then None
         else Some (NodejsUtil.JStr
                      (inherited_text x
                       +:+ ones (count_occ String.string_dec l x)))))
  /\ NodejsUtil.countItems inherited_text l !! "__proto__" = None.
Proof.
  unfold NodejsUtil.countItems. split; [|split].
  - intros Hx. now apply (count_plain inherited_text x l ∅ 0 Hx).
  - intros Hx Hp Ht.
    now apply (count_inherited inherited_text x l ∅ 0 Hx Hp Ht).
  - now apply count_proto.
Qed.

Lemma countItems_counts_witness :
  NodejsUtil.countItems sample_inherited_text
    ["aws-sdk"; "constructor"; "aws-sdk"] !! "aws-sdk"
  = Some (NodejsUtil.JNum 2)
  /\ NodejsUtil.countItems sample_inherited_text
       ["aws-sdk"; "constructor"; "aws-sdk"] !! "constructor"
     = Some (NodejsUtil.JStr "function constructor() { [native code] }1").
Proof.
  split.
  - apply (proj1 (countItems_counts sample_inherited_text
                    ["aws-sdk"; "constructor"; "aws-sdk"] "aws-sdk")).
    vm_compute. intros H. repeat (apply elem_of_cons in H as [H|H];
                                  [discriminate H|]).
    now apply elem_of_nil in H.
  - apply (proj1 (proj2 (countItems_counts sample_inherited_text
                           ["aws-sdk"; "constructor"; "aws-sdk"]
                           "constructor"))).
    + left.
    + discriminate.
    + discriminate.
Defined.

Section ReplaceFacts.
Import Regex NodejsUtil.

Lemma list_ascii_app (a b : string) :
  list_ascii_of_string (a +:+ b)
  = list_ascii_of_string a ++ list_ascii_of_string b.
Proof.
  induction a as [|x a IH]; [reflexivity|].
  change (x :: list_ascii_of_string (a +:+ b)
          = x :: (list_ascii_of_string a ++ list_ascii_of_string b)).
  now f_equal.
Qed.

Lemma string_of_list_app (l1 l2 : list ascii) :
  string_of_list_ascii (l1 ++ l2)
  = string_of_list_ascii l1 +:+ string_of_list_ascii l2.
Proof.
  induction l1 as [|x l1 IH]; [reflexivity|].
  change (String x (string_of_list_ascii (l1 ++ l2))
          = String x (string_of_list_ascii l1 +:+ string_of_list_ascii l2)).
  now f_equal.
Qed.

Lemma ends_word (s w : list ascii) (i : nat) :
  w ≠ [] ->
  ends s (word w) i
  = if bool_decide (take (length w) (drop i s) = w)
    then [i + length w] else [].
Proof.
  revert i. induction w as [|c w IH]; intros i Hne; [congruence|].
  destruct w as [|c2 w'].
  - cbn [word ends length]. unfold step_char.
    destruct (s !! i) as [a|] eqn:E.
    + rewrite (drop_S _ _ _ E). cbn [take].
      destruct (Ascii.eqb_spec c a) as [->|Hca].
      * rewrite bool_decide_eq_true_2 by reflexivity.
        now rewrite Nat.add_1_r.
      * rewrite bool_decide_eq_false_2; [reflexivity|]. congruence.
    + rewrite drop_ge by now apply lookup_ge_None.
      rewrite bool_decide_eq_false_2; [reflexivity|]. discriminate.
  - change (word (c :: c2 :: w')) with (Seq (Lit c) (word (c2 :: w'))).
    cbn [ends]. unfold step_char.
    destruct (s !! i) as [a|] eqn:E.
    + rewrite (drop_S _ _ _ E).
      change (take (length (c :: c2 :: w')) (a :: drop (S i) s))
        with (a :: take (length (c2 :: w')) (drop (S i) s)).
      destruct (Ascii.eqb_spec c a) as [->|Hca].
      * cbn [flat_map]. rewrite app_nil_r, IH by discriminate.
        destruct (decide (take (length (c2 :: w')) (drop (S i) s)
                          = c2 :: w')) as [Ht|Ht].
        -- rewrite !bool_decide_eq_true_2 by congruence.
           cbn [length]. f_equal. lia.
        -- rewrite !bool_decide_eq_false_2 by congruence. reflexivity.
      * rewrite bool_decide_eq_false_2; [reflexivity|]. congruence.
    + rewrite drop_ge by now apply lookup_ge_None.
      rewrite bool_decide_eq_false_2; [reflexivity|]. discriminate.
Qed.

Lemma node_modules_match (s : list ascii) (i : nat) :
  ends s node_modules_regex i
  = if bool_decide (drop i s = list_ascii_of_string "node_modules")
    then [length s] else [].
Proof.
  unfold node_modules_regex. cbn [ends].
  rewrite ends_word by discriminate.
  set (nm := list_ascii_of_string "node_modules").
  destruct (decide (drop i s = nm)) as [Hd|Hd].
  - rewrite Hd, take_ge by reflexivity.
    rewrite !bool_decide_eq_true_2 by reflexivity.
    cbn [flat_map]. rewrite app_nil_r.
    assert (Hlen : i + length nm = length s).
    { apply (f_equal length) in Hd. rewrite length_drop in Hd.
      change (length nm) with 12 in *. lia. }
    rewrite Hlen, Nat.eqb_refl. reflexivity.
  - rewrite (bool_decide_eq_false_2 (drop i s = nm)) by exact Hd.
    destruct (decide (take (length nm) (drop i s) = nm)) as [Ht|Ht].
    + rewrite bool_decide_eq_true_2 by exact Ht.
      cbn [flat_map]. rewrite app_nil_r.
      destruct (i + length nm =? length s) eqn:El; [|reflexivity].
      apply Nat.eqb_eq in El. exfalso. apply Hd.
      rewrite <- Ht. symmetry. apply take_ge.
      rewrite length_drop. lia.
    + now rewrite bool_decide_eq_false_2 by exact Ht.
Qed.

Lemma find_seq_first (f : nat -> bool) (n a i0 : nat) :
  a <= i0 < a + n -> f i0 = true ->
  (forall i, a <= i < i0 -> f i = false) ->
  find f (seq a n) = Some i0.
Proof.
  revert a. induction n as [|n IH]; intros a Hr Hi0 Hbefore; [lia|].
  cbn [seq find]. destruct (Nat.eq_dec a i0) as [->|Hne].
  - now rewrite Hi0.
  - rewrite (Hbefore a) by lia. apply IH; [lia|exact Hi0|].
    intros i Hi. apply Hbefore. lia.
Qed.

Lemma find_all_false {A} (f : A -> bool) (l : list A) :
  (forall x, In x l -> f x = false) -> find f l = None.
Proof.
  induction l as [|x l IH]; intros H; [reflexivity|].
  cbn [find]. rewrite (H x) by now left.
  apply IH. intros y Hy. apply H. now right.
Qed.

Lemma candidate_node_modules (d : string) :
  candidate (d +:+ "node_modules") = d +:+ "package.json".
Proof.
  unfold candidate, replace, search.
  rewrite list_ascii_app.
  set (ld := list_ascii_of_string d).
  assert (Hat : bool_decide
                  (drop (length ld)
                     (ld ++ list_ascii_of_string "node_modules")
                   = list_ascii_of_string "node_modules") = true).
  { apply bool_decide_eq_true_2. now rewrite drop_app_length. }
  rewrite (find_seq_first _ _ 0 (length ld)).
  - rewrite node_modules_match, Hat.
    rewrite take_app_length, drop_all, app_nil_r, string_of_list_app.
    unfold ld. now rewrite !string_of_list_ascii_of_string.
  - rewrite length_app. lia.
  - unfold matches_at. now rewrite node_modules_match, Hat.
  - intros i Hi. unfold matches_at. rewrite node_modules_match.
    rewrite bool_decide_eq_false_2; [reflexivity|].
    intros E. apply (f_equal length) in E.
    rewrite length_drop, length_app in E. lia.
Qed.

Lemma candidate_other (path : string) :
  (forall d, path ≠ d +:+ "node_modules") -> candidate path = path.
Proof.
  intros Hp. unfold candidate, replace, search.
  set (s := list_ascii_of_string path).
  rewrite find_all_false; [reflexivity|].
  intros i _. unfold matches_at. rewrite node_modules_match.
  rewrite bool_decide_eq_false_2; [reflexivity|].
  intros E. apply (Hp (string_of_list_ascii (take i s))).
  rewrite <- (string_of_list_ascii_of_string path). fold s.
  rewrite <- (take_drop i s) at 1. rewrite E, string_of_list_app.
  reflexivity.
Qed.

Variable existsSync : string -> bool.

Lemma find_loop_first l1 p l2 acc :
  Forall (fun q => existsSync (candidate q) = false) l1 ->
  existsSync (candidate p) = true ->
  find_loop existsSync (l1 ++ p :: l2) acc = Some (candidate p).
Proof.
  intros Hl1 Hp. revert acc.
  induction Hl1 as [|q l1 Hq Hl1 IH]; intros acc; cbn [app find_loop].
  - fold (candidate p). now rewrite Hp.
  - fold (candidate q). rewrite Hq. apply IH.
Qed.

Lemma find_loop_none paths acc :
  Forall (fun q => existsSync (candidate q) = false) paths ->
  find_loop existsSync paths acc
  = match last paths with
    | Some p => Some (candidate p)
    | None => acc
    end.
Proof.
  intros H. revert acc.
  induction H as [|q l Hq Hl IH]; intros acc; [reflexivity|].
  cbn [find_loop]. fold (candidate q). rewrite Hq, IH.
  destruct l as [|q' l']; [reflexivity|].
  change (last (q :: q' :: l')) with (last (q' :: l')).
  destruct (last (q' :: l')) eqn:E; [reflexivity|].
  apply last_None in E. discriminate E.
Qed.
End ReplaceFacts.

(** X20: [findPkgPath] returns the candidate of the first entry of
    [module.paths] whose candidate exists.  When no candidate exists it
    does not throw: [pkgPath] keeps the candidate of the last entry, which
    is returned although no such file exists.  The error "Cannot find a
    `package.json` file." is thrown only when [module.paths] is empty or
    the selected candidate is the empty string. *)
Theorem findPkgPath_result (existsSync : string -> bool)
  (paths : list string) :
  (forall l1 p l2,
     paths = l1 ++ p :: l2 ->
     Forall (fun q => existsSync (candidate q) = false) l1 ->
     existsSync (candidate p) = true ->
     NodejsUtil.findPkgPath existsSync paths
     = if String.eqb (candidate p) ""
       then inl (Core.Thrown NodejsUtil.no_package_json_msg)
       else inr (candidate p))
  /\ (forall p,
      Forall (fun q => existsSync (candidate q) = false) paths ->
      last paths = Some p ->
      NodejsUtil.findPkgPath existsSync paths
      = if String.eqb (candidate p) ""
        then inl (Core.Thrown NodejsUtil.no_package_json_msg)
        else inr (candidate p))
  /\ (paths = [] ->
      NodejsUtil.findPkgPath existsSync paths
      = inl (Core.Thrown NodejsUtil.no_package_json_msg)).
Proof.
  unfold NodejsUtil.findPkgPath. split; [|split].
  - intros l1 p l2 -> Hl1 Hp. now rewrite find_loop_first.
  - intros p Hall Hlast. now rewrite find_loop_none, Hlast.
  - now intros ->.
Qed.

Lemma findPkgPath_result_witness :
  NodejsUtil.findPkgPath (fun _ => false)
    ["/app/src/node_modules"; "/app/node_modules"; "/node_modules"]
  = inr "/package.json".
Proof.
  apply (proj1 (proj2 (findPkgPath_result (fun _ => false)
                         ["/app/src/node_modules"; "/app/node_modules";
                          "/node_modules"])) "/node_modules").
  - repeat constructor.
  - reflexivity.
Defined.

(** X21: the candidate [findPkgPath] derives from an entry of
    [module.paths]: a trailing node_modules is replaced by package.json,
    and an entry that does not end in node_modules is taken as it is (an
    occurrence elsewhere in the path is not replaced). *)
Theorem findPkgPath_candidate :
  (forall d, candidate (d +:+ "node_modules") = d +:+ "package.json")
  /\ (forall path,
        (forall d, path ≠ d +:+ "node_modules") -> candidate path = path).
Proof. split; [exact candidate_node_modules|exact candidate_other]. Qed.

Lemma findPkgPath_candidate_witness :
  candidate "/app/node_modules/pkg" = "/app/node_modules/pkg".
Proof.
  apply (proj2 findPkgPath_candidate). intros d E.
  apply (f_equal (fun s => last (list_ascii_of_string s))) in E.
  rewrite list_ascii_app, last_app in E. discriminate E.
Defined.

(** ** The AWS SDK custom resource *)

(** X18: [AwsSdkJsCustomResource] throws "At least `onCreate`, `onUpdate`
    or `onDelete` must be specified." exactly when none of the three calls
    is given, leaving only the construct node.  Otherwise it is
    constructed, and the create and update calls handed to the custom
    resource stand in for each other: create is [onCreate] when given, else
    [onUpdate], and update is [onUpdate] when given, else [onCreate], so one
    of them is set exactly when the other is; delete has no stand-in. *)
Theorem AwsSdkJsCustomResource_new_calls
  (scope : Core.Path) (id : string)
  (props : AwsSdkJsCustomResource.AwsSdkJsCustomResourceProps)
  (t : Core.Tree) :
  fresh_under t (scope ++ [id]) ->
  (AwsSdkJsCustomResource.onCreate props = None ->
   AwsSdkJsCustomResource.onUpdate props = None ->
   AwsSdkJsCustomResource.onDelete props = None ->
   AwsSdkJsCustomResource.AwsSdkJsCustomResource_new scope id props t
   = (inl (Core.Thrown AwsSdkJsCustomResource.no_call_msg),
      t ++ [(scope ++ [id], Core.KConstruct)]))
  /\ (is_Some (AwsSdkJsCustomResource.onCreate props)
      \/ is_Some (AwsSdkJsCustomResource.onUpdate props)
      \/ is_Some (AwsSdkJsCustomResource.onDelete props) ->
      exists r t',
        AwsSdkJsCustomResource.AwsSdkJsCustomResource_new scope id props t
        = (inr r, t')
        /\ (is_Some (AwsSdkJsCustomResource.cr_create r)
            <-> is_Some (AwsSdkJsCustomResource.cr_update r))
        /\ (is_Some (AwsSdkJsCustomResource.cr_create r)
            <-> is_Some (AwsSdkJsCustomResource.onCreate props)
                \/ is_Some (AwsSdkJsCustomResource.onUpdate props))
        /\ (forall c, AwsSdkJsCustomResource.onCreate props = Some c ->
                      AwsSdkJsCustomResource.cr_create r = Some c)
        /\ (AwsSdkJsCustomResource.onCreate props = None ->
            AwsSdkJsCustomResource.cr_create r
            = AwsSdkJsCustomResource.onUpdate props)
        /\ (forall c, AwsSdkJsCustomResource.onUpdate props = Some c ->
                      AwsSdkJsCustomResource.cr_update r = Some c)
        /\ (AwsSdkJsCustomResource.onUpdate props = None ->
            AwsSdkJsCustomResource.cr_update r
            = AwsSdkJsCustomResource.onCreate props)
        /\ AwsSdkJsCustomResource.cr_delete r
           = AwsSdkJsCustomResource.onDelete props).
Proof.
  intros Hf. set (this := scope ++ [id]) in *.
  unfold AwsSdkJsCustomResource.AwsSdkJsCustomResource_new.
  rewrite (bind_ok _ _ _ _ _
             (Construct_new_ok _ _ _ (fresh_under_self _ _ Hf))).
  fold this. split.
  - intros -> -> ->. reflexivity.
  - intros Hsome.
    assert (Hg : negb (Core.defined (AwsSdkJsCustomResource.onCreate props))
                 && negb (Core.defined
                            (AwsSdkJsCustomResource.onUpdate props))
                 && negb (Core.defined
                            (AwsSdkJsCustomResource.onDelete props))
                 = false).
    { destruct Hsome as [[c ->]|[[c ->]|[c ->]]]; simpl;
        rewrite ?andb_false_r; reflexivity. }
    rewrite Hg.
    erewrite bind_ok; [|apply Construct_new_ok; fresh_node Hf].
    erewrite bind_ok; [|apply Construct_new_ok; fresh_node Hf].
    eexists _, _. split; [reflexivity|].
    cbn [AwsSdkJsCustomResource.cr_create AwsSdkJsCustomResource.cr_update
         AwsSdkJsCustomResource.cr_delete].
    unfold AwsSdkJsCustomResource.or_else.
    destruct (AwsSdkJsCustomResource.onCreate props) as [c1|];
      destruct (AwsSdkJsCustomResource.onUpdate props) as [c2|];
      repeat split; try (intros; eauto; congruence);
      try (intros [H|H]; exact H || (destruct H; discriminate)).
Qed.

Lemma AwsSdkJsCustomResource_new_calls_witness :
  exists r t',
    AwsSdkJsCustomResource.AwsSdkJsCustomResource_new ["Stack"] "Call"
      {| AwsSdkJsCustomResource.onCreate := None;
         AwsSdkJsCustomResource.onUpdate :=
           Some {| AwsSdkJsCustomResource.service := "SNS";
                   AwsSdkJsCustomResource.action := "publish";
                   AwsSdkJsCustomResource.parameters := "{}" |};
         AwsSdkJsCustomResource.onDelete := None |} []
    = (inr r, t')
    /\ AwsSdkJsCustomResource.cr_create r
       = Some {| AwsSdkJsCustomResource.service := "SNS";
                 AwsSdkJsCustomResource.action := "publish";
                 AwsSdkJsCustomResource.parameters := "{}" |}.
Proof.
  destruct (proj2 (AwsSdkJsCustomResource_new_calls ["Stack"] "Call"
                     {| AwsSdkJsCustomResource.onCreate := None;
                        AwsSdkJsCustomResource.onUpdate :=
                          Some {| AwsSdkJsCustomResource.service := "SNS";
                                  AwsSdkJsCustomResource.action := "publish";
                                  AwsSdkJsCustomResource.parameters := "{}" |};
                        AwsSdkJsCustomResource.onDelete := None |} []
                     (fresh_under_nil _)))
    as (r & t' & H & _ & _ & _ & Hc & _).
  - right. left. eexists. reflexivity.
  - exists r, t'. split; [exact H|]. now apply Hc.
Defined.

(** ** The rotation construct *)
Lemma RotationSingleUser_new_run (V : Type) (uniqueId : Core.Path -> string)
  (allowDefaultPortFrom : Instance.Connections -> Core.Path -> Core.M unit)
  (scope : Core.Path) (id : string)
  (props : Rotation.RotationSingleUserProps V) (t : Core.Tree) :
  fresh_under t (scope ++ [id]) ->
  (forall c sg t', allowDefaultPortFrom c sg t' = (inr tt, t')) ->
  Rotation.RotationSingleUser_new V uniqueId allowDefaultPortFrom scope id
    props t
  = if Core.defined (Rotation.instance V props)
       && Core.defined (Rotation.cluster V props)
    then (inl (Core.Thrown Rotation.both_msg),
          t ++ [(scope ++ [id], Core.KConstruct)])
    else
      match rotation_target props with
      | None => (inl (Core.Thrown Rotation.either_msg),
                 t ++ [(scope ++ [id], Core.KConstruct)])
      | Some target =>
          match Rotation.target_secret target with
          | None => (inl (Core.Thrown Rotation.no_secret_msg),
                     t ++ [(scope ++ [id], Core.KConstruct)])
          | Some arn =>
              match rotation_location props target with
              | inl e =>
                  (inl e,
                   t ++ [(scope ++ [id], Core.KConstruct);
                         (scope ++ [id; "SecurityGroup"], Core.KConstruct)])
              | inr loc =>
                  (inr {| Rotation.node := scope ++ [id];
                          Rotation.location := loc;
                          Rotation.functionName := uniqueId (scope ++ [id]);
                          Rotation.vpcSubnetIds :=
                            String.concat ","
                              (map Instance.subnetId
                                 (Instance.vpc_subnets V (Rotation.vpc V props)
                                    (Rotation.vpcPlacement V props)));
                          Rotation.secretId := arn;
                          Rotation.rotationAfterDays :=
                            match Rotation.automaticallyAfterDays V props with
                            | Some 0%Z | None => 30%Z
                            | Some d => d
                            end |},
                   t ++ [(scope ++ [id], Core.KConstruct);
                         (scope ++ [id; "SecurityGroup"], Core.KConstruct);
                         (scope ++ [id; "Resource"],
                           Core.KResource "AWS::Serverless::Application");
                         (scope ++ [id; "Permission"],
                           Core.KResource "AWS::Lambda::Permission");
                         (scope ++ [id; "Schedule"],
                           Core.KResource
                             "AWS::SecretsManager::RotationSchedule")])
              end
          end
      end.
Proof.
  intros Hf Hallow. set (this := scope ++ [id]) in *.
  unfold Rotation.RotationSingleUser_new.
  rewrite (bind_ok _ _ _ _ _
             (Construct_new_ok _ _ _ (fresh_under_self _ _ Hf))).
  fold this. fold (rotation_target props).
  destruct (Core.defined (Rotation.instance V props)
            && Core.defined (Rotation.cluster V props)); [reflexivity|].
  destruct (rotation_target props) as [target|]; [|reflexivity].
  destruct (Rotation.target_secret target) as [arn|]; [|reflexivity].
  erewrite bind_ok; [|apply Construct_new_ok; fresh_node Hf].
  erewrite bind_ok; [|apply Hallow].
  unfold rotation_location.
  destruct (Rotation.serverlessApplicationLocation V props) as [l|].
  - erewrite bind_ok; [|reflexivity].
    erewrite bind_ok; [|apply CfnResource_new_ok; fresh_node Hf].
    erewrite bind_ok; [|apply CfnResource_new_ok; fresh_node Hf].
    erewrite bind_ok; [|apply CfnResource_new_ok; fresh_node Hf].
    cbn [mret Core.M_ret]. unfold this. rewrite <- !app_assoc. simpl app.
    repeat f_equal.
    destruct (Rotation.automaticallyAfterDays V props) as [[| |]|];
      reflexivity.
  - destruct (Rotation.getApplicationLocation (Rotation.target_engine target))
      as [e|loc].
    + erewrite bind_err; [|reflexivity].
      unfold this. now rewrite <- !app_assoc.
    + erewrite bind_ok; [|reflexivity].
      erewrite bind_ok; [|apply CfnResource_new_ok; fresh_node Hf].
      erewrite bind_ok; [|apply CfnResource_new_ok; fresh_node Hf].
      erewrite bind_ok; [|apply CfnResource_new_ok; fresh_node Hf].
      cbn [mret Core.M_ret]. unfold this. rewrite <- !app_assoc. simpl app.
      repeat f_equal.
      destruct (Rotation.automaticallyAfterDays V props) as [[| |]|];
        reflexivity.
Qed.

(** X22: the [RotationSingleUser] constructor, when the ingress rule can
    be added.  Giving both an instance and a cluster, giving neither, and
    a target without a secret are rejected in this order, each leaving only
    the construct node.  An engine without a rotation application is only
    detected after the security group has been created (and the ingress
    rule added), and a given [serverlessApplicationLocation] bypasses the
    engine lookup altogether.  On success the children are SecurityGroup,
    Resource, Permission and Schedule, and the rotation period is 30 days
    when [automaticallyAfterDays] is omitted or zero. *)
Theorem RotationSingleUser_new_outcome (V : Type)
  (uniqueId : Core.Path -> string)
  (allowDefaultPortFrom : Instance.Connections -> Core.Path -> Core.M unit)
  (scope : Core.Path) (id : string)
  (props : Rotation.RotationSingleUserProps V) (t : Core.Tree) :
  fresh_under t (scope ++ [id]) ->
  (forall c sg t', allowDefaultPortFrom c sg t' = (inr tt, t')) ->
  let run :=
    Rotation.RotationSingleUser_new V uniqueId allowDefaultPortFrom scope id
      props t in
  let only_node := t ++ [(scope ++ [id], Core.KConstruct)] in
  (forall i c, Rotation.instance V props = Some i ->
               Rotation.cluster V props = Some c ->
               run = (inl (Core.Thrown Rotation.both_msg), only_node))
  /\ (Rotation.instance V props = None -> Rotation.cluster V props = None ->
      run = (inl (Core.Thrown Rotation.either_msg), only_node))
  /\ (forall target,
        Core.defined (Rotation.instance V props)
        && Core.defined (Rotation.cluster V props) = false ->
        rotation_target props = Some target ->
        (Rotation.target_secret target = None ->
         run = (inl (Core.Thrown Rotation.no_secret_msg), only_node))
        /\ (forall arn e,
              Rotation.target_secret target = Some arn ->
              rotation_location props target = inl e ->
              Rotation.serverlessApplicationLocation V props = None
              /\ run = (inl e,
                        only_node
                        ++ [(scope ++ [id; "SecurityGroup"],
                              Core.KConstruct)]))
        /\ (forall arn loc,
              Rotation.target_secret target = Some arn ->
              rotation_location props target = inr loc ->
              exists r,
                run = (inr r,
                       only_node
                       ++ [(scope ++ [id; "SecurityGroup"], Core.KConstruct);
                           (scope ++ [id; "Resource"],
                             Core.KResource "AWS::Serverless::Application");
                           (scope ++ [id; "Permission"],
                             Core.KResource "AWS::Lambda::Permission");
                           (scope ++ [id; "Schedule"],
                             Core.KResource
                               "AWS::SecretsManager::RotationSchedule")])
                /\ Rotation.location r = loc
                /\ Rotation.secretId r = arn
                /\ Rotation.rotationAfterDays r
                   = match Rotation.automaticallyAfterDays V props with
                     | Some 0%Z | None => 30%Z
                     | Some d => d
                     end)).
Proof.
  intros Hf Hallow run only_node. subst run only_node.
  rewrite (RotationSingleUser_new_run V uniqueId allowDefaultPortFrom scope id
             props t Hf Hallow).
  split; [|split].
  - intros i c -> ->. reflexivity.
  - intros Hi Hc. unfold rotation_target. now rewrite Hi, Hc.
  - intros target Hb Ht. rewrite Hb, Ht. split; [|split].
    + now intros ->.
    + intros arn e -> He. split.
      * unfold rotation_location in He.
        now destruct (Rotation.serverlessApplicationLocation V props).
      * rewrite He. now rewrite <- app_assoc.
    + intros arn loc -> Hl. rewrite Hl. eexists.
      split; [now rewrite <- app_assoc|]. repeat split.
Qed.

Lemma RotationSingleUser_new_outcome_witness :
  Rotation.RotationSingleUser_new unit (String.concat "")
    (fun _ _ => mret tt) ["Stack"] "Rotation"
    (sample_rotation_props None None) []
  = (inl (Core.Thrown Rotation.either_msg),
     [(["Stack"; "Rotation"], Core.KConstruct)])
  /\ exists r t',
       Rotation.RotationSingleUser_new unit (String.concat "")
         (fun _ _ => mret tt) ["Stack"] "Rotation"
         (sample_rotation_props (Some sample_instance_with_secret)
            (Some 0%Z)) []
       = (inr r, t')
       /\ Rotation.location r = Rotation.PostgresRotationSingleUser
       /\ Rotation.rotationAfterDays r = 30%Z.
Proof.
  split.
  - apply (proj1 (proj2 (RotationSingleUser_new_outcome unit
                           (String.concat "") (fun _ _ => mret tt)
                           ["Stack"] "Rotation"
                           (sample_rotation_props None None) []
                           (fresh_under_nil _) (fun _ _ _ => eq_refl))));
      reflexivity.
  - destruct (RotationSingleUser_new_outcome unit
                (String.concat "") (fun _ _ => mret tt)
                ["Stack"] "Rotation"
                (sample_rotation_props (Some sample_instance_with_secret)
                   (Some 0%Z)) []
                (fresh_under_nil _) (fun _ _ _ => eq_refl))
      as (_ & _ & H).
    destruct (H (Rotation.TargetInstance sample_instance_with_secret)
                eq_refl eq_refl) as (_ & _ & H').
    destruct (H' "arn:aws:secretsmanager:eu-west-1:1:secret:db"
                Rotation.PostgresRotationSingleUser eq_refl eq_refl)
      as (r & Hr & Hl & _ & Hd).
    exists r. eexists. split; [exact Hr|]. split; [exact Hl|exact Hd].
Defined.
